(** * Bookly: the booking lifecycle and the calendar builder

    A shallow embedding of [backend/app/routers/bookings.py] together with
    the parts of [models.py] and [schemas.py] it relies on, and the
    properties of the conflict checker, the booking lifecycle and the
    calendar builder established on that embedding.

    Conventions of the embedding.
    - The router leans on two modules of the Python standard library,
      [datetime] and [calendar]; the functions it reaches are transcribed
      from CPython ([Lib/_pydatetime.py], [Lib/calendar.py]).
    - A [datetime.date] is represented by its proleptic Gregorian ordinal
      ([date.toordinal()], day 1 = 0001-01-01).  The constructor
      [datetime.date_new] performs the range checks of [datetime.date(y, m, d)]
      and is the only place where a [ValueError] can arise;
      [date + timedelta(days=k)] is addition on ordinals and comparison of
      dates is comparison of ordinals.  [ord2ymd_ymd2ord] shows that the
      year, month and day read back from the ordinal of a constructed date
      are the ones it was constructed from, and [grid_within_date_range]
      that the additions the builder performs stay below [date.max].
    - The database is a pair of tables (lists of rows) and two id sequences,
      as PostgreSQL keeps them for the two integer primary keys; a request
      runs inside a session whose transaction view is discarded unless the
      handler commits.  Requests are handled one at a time.
    - [strftime]/[isoformat] renderings are not modelled: a field holding
      the rendering of a day holds the day itself.  The customer name of a
      calendar summary, read through the joined relationship, is left out.
    - A text is a string of bytes, and [lower] is [str.lower()] on ASCII
      text; a property that depends on the lowered form of an address
      assumes the address is ASCII ([isascii]).
    - Three refusals of the layers below the handlers are left out, and the
      properties are stated so as not to depend on them.  The driver binds
      a booking id to an INTEGER parameter and refuses a number outside
      that range before the query runs: a property about an arbitrary id
      carries the range as a hypothesis ([int32]).  The INSERT of a booking
      is refused for a resource id of more than 64 characters and for an
      amount the column cannot hold (the amount is not modelled), and the
      response of a creation cannot be built once the upsert has changed
      the name of a customer, although the rows are committed by then: a
      property of a creation speaks of the rows it commits, or of the
      response it gives when it gives one; that a creation succeeds is
      said of the embedding only, in the lemma [create_booking_run]. *)

From Stdlib Require Import ZArith Lia.
From stdpp Require Import gmap strings list fin_maps.

Local Open Scope Z_scope.

(** ** Python helpers *)

(** [range(lo, hi)] *)
Definition range (lo hi : Z) : list Z := seqZ lo (hi - lo).

(** [range(lo, hi, step)] for a positive [step] *)
Definition range_step (lo hi step : Z) : list Z :=
  (λ i, lo + step * i) <$> seqZ 0 ((hi - lo + step - 1) / step).

(** the slice [l[i:j]] for [0 <= i <= j] *)
Definition slice {A} (l : list A) (i j : Z) : list A :=
  take (Z.to_nat (j - i)) (drop (Z.to_nat i) l).

(** ** The [datetime] module: dates as ordinals *)

Module datetime.

Definition MINYEAR : Z := 1.
Definition MAXYEAR : Z := 9999.

Definition date : Type := Z.

Definition _is_leap (year : Z) : bool :=
  (year mod 4 =? 0) && (negb (year mod 100 =? 0) || (year mod 400 =? 0)).

Definition _DAYS_IN_MONTH (month : Z) : Z :=
  match month with
  | 1 => 31 | 2 => 28 | 3 => 31 | 4 => 30 | 5 => 31 | 6 => 30
  | 7 => 31 | 8 => 31 | 9 => 30 | 10 => 31 | 11 => 30 | 12 => 31
  | _ => -1
  end.

Definition _DAYS_BEFORE_MONTH (month : Z) : Z :=
  match month with
  | 1 => 0 | 2 => 31 | 3 => 59 | 4 => 90 | 5 => 120 | 6 => 151
  | 7 => 181 | 8 => 212 | 9 => 243 | 10 => 273 | 11 => 304 | 12 => 334
  | _ => -1
  end.

Definition _days_before_year (year : Z) : Z :=
  let y := year - 1 in
  y * 365 + y / 4 - y / 100 + y / 400.

Definition _days_in_month (year month : Z) : Z :=
  if (month =? 2) && _is_leap year then 29 else _DAYS_IN_MONTH month.

Definition _days_before_month (year month : Z) : Z :=
  _DAYS_BEFORE_MONTH month + (if (2 <? month) && _is_leap year then 1 else 0).

Definition _ymd2ord (year month day : Z) : Z :=
  _days_before_year year + _days_before_month year month + day.

Definition _DI400Y : Z := 146097.
Definition _DI100Y : Z := 36524.
Definition _DI4Y : Z := 1461.

Definition _ord2ymd (n : Z) : Z * Z * Z :=
  let n := n - 1 in
  let n400 := n / _DI400Y in
  let n := n mod _DI400Y in
  let year := n400 * 400 + 1 in
  let n100 := n / _DI100Y in
  let n := n mod _DI100Y in
  let n4 := n / _DI4Y in
  let n := n mod _DI4Y in
  let n1 := n / 365 in
  let n := n mod 365 in
  let year := year + (n100 * 100 + n4 * 4 + n1) in
  if (n1 =? 4) || (n100 =? 4) then (year - 1, 12, 31)
  else
    let leapyear := (n1 =? 3) && (negb (n4 =? 24) || (n100 =? 3)) in
    let month := Z.shiftr (n + 50) 5 in
    let preceding :=
      _DAYS_BEFORE_MONTH month + (if (2 <? month) && leapyear then 1 else 0) in
    if n <? preceding then
      let month := month - 1 in
      let preceding :=
        preceding - (_DAYS_IN_MONTH month + (if (month =? 2) && leapyear then 1 else 0)) in
      (year, month, n - preceding + 1)
    else (year, month, n - preceding + 1).

(** [datetime.date(year, month, day)]; [None] is the [ValueError] *)
Definition date_new (year month day : Z) : option date :=
  if (MINYEAR <=? year) && (year <=? MAXYEAR)
     && (1 <=? month) && (month <=? 12)
     && (1 <=? day) && (day <=? _days_in_month year month)
  then Some (_ymd2ord year month day)
  else None.

(** [datetime.date] reads its arguments as C ints: for an argument outside
    that range the call raises [OverflowError], which is not a
    [ValueError]. *)
Definition fits_c_int (n : Z) : bool := (-2147483648 <=? n) && (n <=? 2147483647).

Definition year (d : date) : Z := (_ord2ymd d).1.1.
Definition month (d : date) : Z := (_ord2ymd d).1.2.
Definition day (d : date) : Z := (_ord2ymd d).2.

(** [date.weekday()]: Monday is 0 *)
Definition weekday (d : date) : Z := (d + 6) mod 7.

(** [date.max.toordinal()] *)
Definition _MAXORDINAL : Z := 3652059.

(** an instant, as returned by [datetime.now(timezone.utc)] *)
Definition datetime : Type := Z.

End datetime.

(** ** The [calendar] module of the standard library *)

Module calendar.

Definition isleap (year : Z) : bool :=
  (year mod 4 =? 0) && (negb (year mod 100 =? 0) || (year mod 400 =? 0)).

Definition mdays (month : Z) : Z :=
  match month with
  | 1 => 31 | 2 => 28 | 3 => 31 | 4 => 30 | 5 => 31 | 6 => 30
  | 7 => 31 | 8 => 31 | 9 => 30 | 10 => 31 | 11 => 30 | 12 => 31
  | _ => 0
  end.

Definition weekday (year month day : Z) : option Z :=
  let year :=
    if (datetime.MINYEAR <=? year) && (year <=? datetime.MAXYEAR) then year
    else 2000 + year mod 400 in
  datetime.weekday <$> datetime.date_new year month day.

(** [None] is [IllegalMonthError] (a [ValueError]) *)
Definition monthrange (year month : Z) : option (Z * Z) :=
  if (1 <=? month) && (month <=? 12) then
    day1 ← weekday year month 1;
    Some (day1, mdays month + (if (month =? 2) && isleap year then 1 else 0))
  else None.

Definition _monthlen (year month : Z) : Z :=
  mdays month + (if (month =? 2) && isleap year then 1 else 0).

Definition _prevmonth (year month : Z) : Z * Z :=
  if month =? 1 then (year - 1, 12) else (year, month - 1).

Definition _nextmonth (year month : Z) : Z * Z :=
  if month =? 12 then (year + 1, 1) else (year, month + 1).

Section Calendar.
Variable firstweekday : Z.

Definition itermonthdays3 (year month : Z) : option (list (Z * Z * Z)) :=
  '(day1, ndays) ← monthrange year month;
  let days_before := (day1 - firstweekday) mod 7 in
  let days_after := (firstweekday - day1 - ndays) mod 7 in
  let '(y, m) := _prevmonth year month in
  let end_ := _monthlen y m + 1 in
  let '(y', m') := _nextmonth year month in
  Some (((λ d, (y, m, d)) <$> range (end_ - days_before) end_)
        ++ ((λ d, (year, month, d)) <$> range 1 (ndays + 1))
        ++ ((λ d, (y', m', d)) <$> range 1 (days_after + 1))).

Definition itermonthdates (year month : Z) : option (list datetime.date) :=
  ymds ← itermonthdays3 year month;
  mapM (λ '(y, m, d), datetime.date_new y m d) ymds.

Definition monthdatescalendar (year month : Z) : option (list (list datetime.date)) :=
  dates ← itermonthdates year month;
  Some ((λ i, slice dates i (i + 7)) <$> range_step 0 (Z.of_nat (length dates)) 7).
End Calendar.

End calendar.

(** ** [app/models.py] *)

Module models.

Inductive BookingStatus := pending | approved | declined | cancelled.

#[global] Instance BookingStatus_eq_dec : EqDecision BookingStatus.
Proof. solve_decision. Defined.

Module Customer.
Record t := mk {
  id : Z;
  email : string;
  full_name : string;
}.
End Customer.

(** The [amount] column (a float re-read through its decimal text) and
    the server-maintained [created_at]/[updated_at] columns are left out:
    no operation reads them. *)
Module Booking.
Record t := mk {
  id : Z;
  customer_id : Z;
  resource_id : string;
  status : BookingStatus;
  start_at : datetime.date;
  end_at : datetime.date;
  requested_by : string;
  approved_by : option string;
  notes : option string;
  approved_at : option datetime.datetime;
}.
End Booking.

End models.

(** ** [app/schemas.py] *)

Module schemas.
Import models.

Module CustomerCreate.
Record t := mk { email : string; full_name : string }.
End CustomerCreate.

Module BookingCreate.
Record t := mk {
  customer : CustomerCreate.t;
  start_at : datetime.date;
  end_at : datetime.date;
  requested_by : string;
  notes : option string;
  resource_id : string;
}.
End BookingCreate.

(** [BookingRead.model_validate(booking, from_attributes=True)] copies the
    columns of the row and nests the joined customer. *)
Module BookingRead.
Record t := mk { booking : Booking.t; customer : option Customer.t }.
End BookingRead.

Module BookingDecision.
Record t := mk { actor : string; note : option string }.
End BookingDecision.

(** what [_format_window_label] renders *)
Inductive WindowLabel :=
| SingleDay (day : datetime.date)
| Span (first last : datetime.date).

Module CalendarBookingSummary.
Record t := mk {
  id : Z;
  status : BookingStatus;
  window_label : WindowLabel;
  requested_by : string;
  notes : option string;
}.
End CalendarBookingSummary.

Module CalendarDay.
Record t := mk {
  iso : datetime.date;
  is_current_month : bool;
  is_today : bool;
  is_full : bool;
  is_unavailable : bool;
  pending_count : Z;
  remaining_slots : Z;
  bookings : list CalendarBookingSummary.t;
}.
End CalendarDay.

Module CalendarMonth.
Record t := mk {
  month_label : datetime.date;
  selected_iso : datetime.date;
  total_bookings : Z;
  pending_count : Z;
  remaining_slots : Z;
  next_available_label : option datetime.date;
  updated_label : datetime.datetime;
  weekday_labels : list string;
  weeks : list (list CalendarDay.t);
}.
End CalendarMonth.

Inductive DaySummary := AllSlotsFilled | ReviewRequests | WideOpen.

Module CalendarDayDetail.
Record t := mk {
  iso : datetime.date;
  summary : DaySummary;
  confirmed_count : Z;
  pending_count : Z;
  remaining_slots : Z;
  bookings : list CalendarBookingSummary.t;
}.
End CalendarDayDetail.

Module PendingRequestSummary.
Record t := mk {
  id : Z;
  date : datetime.date;
  window_label : WindowLabel;
  requested_by : string;
  notes : option string;
}.
End PendingRequestSummary.

Module CalendarResponse.
Record t := mk {
  resource : string;
  calendar : CalendarMonth.t;
  selected_day : CalendarDayDetail.t;
  pending_requests : list PendingRequestSummary.t;
}.
End CalendarResponse.

End schemas.

(** ** [app/database.py]: the store and the request session *)

Module database.
Import models.

Record Tables := mkTables {
  customers : list Customer.t;
  bookings : list Booking.t;
}.

(** The server: the committed rows and the two id sequences.  A sequence
    holds the next id it hands out; sequences are not transactional. *)
Record Database := mkDatabase {
  tables : Tables;
  customers_id_seq : Z;
  bookings_id_seq : Z;
}.

Definition empty : Database := mkDatabase (mkTables [] []) 1 1.

(** An [AsyncSession]: the server together with the rows as the open
    transaction sees them (committed rows plus its own flushed writes). *)
Record AsyncSession := mkSession {
  server : Database;
  txn : Tables;
}.

Inductive HTTPException := mkHTTPException (status_code : Z) (detail : string).

(** A coroutine running against the session: it returns or raises, and
    leaves the session in some state either way. *)
Definition Handler (A : Type) : Type := AsyncSession → (HTTPException + A) * AsyncSession.

Definition ret {A} (a : A) : Handler A := λ s, (inr a, s).
Definition raise {A} (e : HTTPException) : Handler A := λ s, (inl e, s).
Definition bind {A B} (m : Handler A) (k : A → Handler B) : Handler B :=
  λ s, match m s with
       | (inr a, s') => k a s'
       | (inl e, s') => (inl e, s')
       end.
Definition get_txn : Handler Tables := λ s, (inr (txn s), s).

(** INSERT of a customer row: the id comes from the sequence *)
Definition insert_customer (email full_name : string) : Handler Customer.t :=
  λ s,
    let db := server s in
    let row := Customer.mk (customers_id_seq db) email full_name in
    (inr row,
     mkSession (mkDatabase (tables db) (customers_id_seq db + 1) (bookings_id_seq db))
               (mkTables (customers (txn s) ++ [row]) (bookings (txn s)))).

(** UPDATE of the customer row with the primary key of [row] *)
Definition update_customer (row : Customer.t) : Handler unit :=
  λ s,
    (inr (),
     mkSession (server s)
               (mkTables ((λ c, if decide (Customer.id c = Customer.id row) then row else c)
                            <$> customers (txn s))
                         (bookings (txn s)))).

(** INSERT of a booking row built from the sequence's next id, for a row
    the columns can hold *)
Definition insert_booking (row : Z → Booking.t) : Handler Booking.t :=
  λ s,
    let db := server s in
    let b := row (bookings_id_seq db) in
    (inr b,
     mkSession (mkDatabase (tables db) (customers_id_seq db) (bookings_id_seq db + 1))
               (mkTables (customers (txn s)) (bookings (txn s) ++ [b]))).

(** UPDATE of the booking row with the primary key of [row] *)
Definition update_booking (row : Booking.t) : Handler unit :=
  λ s,
    (inr (),
     mkSession (server s)
               (mkTables (customers (txn s))
                         ((λ b, if decide (Booking.id b = Booking.id row) then row else b)
                            <$> bookings (txn s)))).

(** [await db.commit()] *)
Definition commit : Handler unit :=
  λ s,
    let db := server s in
    (inr (), mkSession (mkDatabase (txn s) (customers_id_seq db) (bookings_id_seq db)) (txn s)).

(** [get_db]: the session is opened on the committed rows and closed when
    the handler is done; closing discards what was not committed. *)
Definition get_db {A} (handler : Handler A) (db : Database) : (HTTPException + A) * Database :=
  let '(r, s) := handler (mkSession db (tables db)) in (r, server s).

End database.

Notation "x <- m ;; k" := (database.bind m (λ x, k))
  (at level 100, m at next level, right associativity).
Notation "m ;; k" := (database.bind m (λ _, k))
  (at level 100, right associativity).

(** ** [app/routers/bookings.py] *)

Module bookings.
Import models schemas database.

Definition DEFAULT_RESOURCE_ID : string := "alder-lake-house".
Definition CAPACITY_PER_DAY : Z := 1.
Definition WEEKDAY_LABELS : list string := ["Mon"; "Tue"; "Wed"; "Thu"; "Fri"; "Sat"; "Sun"].

Definition HTTP_404_NOT_FOUND : Z := 404.
Definition HTTP_409_CONFLICT : Z := 409.
Definition HTTP_422_UNPROCESSABLE_ENTITY : Z := 422.
Definition HTTP_500_INTERNAL_SERVER_ERROR : Z := 500.

(** An exception no handler catches (a [ValueError] of the date
    functions) reaches the client as a 500 response. *)
Definition uncaught {A} (o : option A) : Handler A :=
  match o with
  | Some a => ret a
  | None => raise (mkHTTPException HTTP_500_INTERNAL_SERVER_ERROR "Internal Server Error")
  end.

(** [str.lower()] on ASCII text: the letters A to Z are lowered and every
    other byte is kept *)
Definition lower_ascii (c : Ascii.ascii) : Ascii.ascii :=
  let n := Ascii.N_of_ascii c in
  if ((65 <=? n) && (n <=? 90))%N then Ascii.ascii_of_N (n + 32) else c.

Fixpoint lower (s : string) : string :=
  match s with
  | EmptyString => EmptyString
  | String c s' => String (lower_ascii c) (lower s')
  end.

(** [result.scalar_one_or_none()] on a result of at most one row *)
Definition scalar_one_or_none {A} (rows : list A) : option A := head rows.

(** [sorted(l, key=...)] for a key that is a pair of integers: a stable
    insertion of each element before the first one with a larger or
    equal key *)
Definition key_le (k1 k2 : Z * Z) : bool :=
  (k1.1 <? k2.1) || ((k1.1 =? k2.1) && (k1.2 <=? k2.2)).

Fixpoint insert_by {A} (key : A → Z * Z) (x : A) (l : list A) : list A :=
  match l with
  | [] => [x]
  | y :: l' => if key_le (key x) (key y) then x :: y :: l' else y :: insert_by key x l'
  end.

Definition sorted {A} (key : A → Z * Z) (l : list A) : list A :=
  foldr (insert_by key) [] l.

(** [while current <= end: yield current; current += timedelta(days=1)].
    The fuel is the number of days from [start] to [end_]; [daterange_seqZ]
    shows that the loop stops by its own test. *)
Fixpoint _daterange_loop (fuel : nat) (current end_ : datetime.date) : list datetime.date :=
  match fuel with
  | O => []
  | S fuel =>
      if current <=? end_ then current :: _daterange_loop fuel (current + 1) end_ else []
  end.

Definition _daterange (start end_ : datetime.date) : list datetime.date :=
  _daterange_loop (Z.to_nat (end_ - start + 1)) start end_.

Definition _upsert_customer (payload : CustomerCreate.t) : Handler Customer.t :=
  let normalized_email := lower (CustomerCreate.email payload) in
  t <- get_txn ;;
  match scalar_one_or_none
          (filter (λ c, Customer.email c = normalized_email) (customers t)) with
  | None => insert_customer normalized_email (CustomerCreate.full_name payload)
  | Some customer =>
      let customer :=
        Customer.mk (Customer.id customer) (Customer.email customer)
                    (CustomerCreate.full_name payload) in
      update_customer customer ;;
      ret customer
  end.

Definition _ensure_no_conflict (resource_id : string) (start_at end_at : datetime.date)
    (exclude_booking_id : option Z) : Handler unit :=
  t <- get_txn ;;
  let stmt :=
    filter (λ b, Booking.start_at b ≤ end_at)
      (filter (λ b, start_at ≤ Booking.end_at b)
         (filter (λ b, Booking.status b = approved)
            (filter (λ b, Booking.resource_id b = resource_id) (bookings t)))) in
  let stmt :=
    match exclude_booking_id with
    | Some i => filter (λ b, Booking.id b ≠ i) stmt
    | None => stmt
    end in
  match scalar_one_or_none (take 1 stmt) with
  | Some conflict =>
      raise (mkHTTPException HTTP_409_CONFLICT "Booking overlaps an approved reservation")
  | None => ret ()
  end.

Definition _format_window_label (booking : Booking.t) : WindowLabel :=
  if decide (Booking.start_at booking = Booking.end_at booking)
  then SingleDay (Booking.start_at booking)
  else Span (Booking.start_at booking) (Booking.end_at booking).

Definition _booking_summary (booking : Booking.t) : CalendarBookingSummary.t :=
  CalendarBookingSummary.mk (Booking.id booking) (Booking.status booking)
    (_format_window_label booking) (Booking.requested_by booking) (Booking.notes booking).

(** The query string is taken as already split at the dash and read as
    two integers; [None] is an absent or empty parameter, and [today] is
    what [date.today()] returns here.  The [except ValueError] clause
    catches the range error of [date], not the [OverflowError] it raises
    for a number that is no C int. *)
Definition _month_anchor (month : option (Z * Z)) (today : datetime.date)
    : Handler datetime.date :=
  match month with
  | None => uncaught (datetime.date_new (datetime.year today) (datetime.month today) 1)
  | Some (year, month_number) =>
      if datetime.fits_c_int year && datetime.fits_c_int month_number then
        match datetime.date_new year month_number 1 with
        | Some d => ret d
        | None =>
            raise (mkHTTPException HTTP_422_UNPROCESSABLE_ENTITY "Invalid month format")
        end
      else uncaught None
  end.

Definition _fetch_bookings_for_range (resource_id : string) (start_at end_at : datetime.date)
    : Handler (list Booking.t) :=
  t <- get_txn ;;
  ret (filter (λ b, Booking.start_at b ≤ end_at)
         (filter (λ b, start_at ≤ Booking.end_at b)
            (filter (λ b, Booking.resource_id b = resource_id) (bookings t)))).

Definition approved_count (bookings : list Booking.t) : Z :=
  Z.of_nat (length (filter (λ b, Booking.status b = approved) bookings)).

Definition pending_count (bookings : list Booking.t) : Z :=
  Z.of_nat (length (filter (λ b, Booking.status b = pending) bookings)).

Definition booking_key (b : Booking.t) : Z * Z := (Booking.start_at b, Booking.id b).

Definition _build_day_detail (day : datetime.date) (bookings : list Booking.t)
    : CalendarDayDetail.t :=
  let approved_count := approved_count bookings in
  let pending_count := pending_count bookings in
  let remaining_slots := Z.max 0 (CAPACITY_PER_DAY - approved_count) in
  let summary :=
    if CAPACITY_PER_DAY <=? approved_count then AllSlotsFilled
    else match bookings with
         | _ :: _ => ReviewRequests
         | [] => WideOpen
         end in
  CalendarDayDetail.mk day summary approved_count pending_count remaining_slots
    (_booking_summary <$> sorted booking_key bookings).

(** [bookings_by_day.setdefault(day_value, []).append(booking)] *)
Definition setdefault_append (booking : Booking.t)
    (bookings_by_day : gmap Z (list Booking.t)) (day_value : datetime.date)
    : gmap Z (list Booking.t) :=
  <[day_value := default [] (bookings_by_day !! day_value) ++ [booking]]> bookings_by_day.

Definition bucket (grid_start grid_end : datetime.date)
    (bookings_by_day : gmap Z (list Booking.t)) (booking : Booking.t)
    : gmap Z (list Booking.t) :=
  let span_start := Z.max (Booking.start_at booking) grid_start in
  let span_end := Z.min (Booking.end_at booking) grid_end in
  foldl (setdefault_append booking) bookings_by_day (_daterange span_start span_end).

(** [bookings_by_day.get(day_value, [])] *)
Definition get_day (bookings_by_day : gmap Z (list Booking.t)) (day_value : datetime.date)
    : list Booking.t :=
  default [] (bookings_by_day !! day_value).

Definition calendar_day (anchor today : datetime.date)
    (bookings_by_day : gmap Z (list Booking.t)) (day_value : datetime.date)
    : CalendarDay.t :=
  let day_bookings := get_day bookings_by_day day_value in
  let approved_count := approved_count day_bookings in
  let pending_count := pending_count day_bookings in
  let remaining_slots := Z.max 0 (CAPACITY_PER_DAY - approved_count) in
  CalendarDay.mk day_value
    (bool_decide (datetime.month day_value = datetime.month anchor))
    (bool_decide (day_value = today))
    (CAPACITY_PER_DAY <=? approved_count)
    false
    pending_count
    remaining_slots
    (_booking_summary <$> sorted booking_key day_bookings).

Definition pending_request (booking : Booking.t) : PendingRequestSummary.t :=
  PendingRequestSummary.mk (Booking.id booking) (Booking.start_at booking)
    (_format_window_label booking) (Booking.requested_by booking) (Booking.notes booking).

(** [None] is a [ValueError] (or [IndexError]) raised while the grid is
    derived; [today] is [date.today()] and [now] is
    [datetime.now(timezone.utc)]. *)
Definition _build_calendar (anchor : datetime.date) (resource_id : string)
    (bookings : list Booking.t) (selected_date : option datetime.date)
    (today : datetime.date) (now : datetime.datetime) : option CalendarResponse.t :=
  weeks_dates ← calendar.monthdatescalendar 0 (datetime.year anchor) (datetime.month anchor);
  grid_start ← (head weeks_dates ≫= head);
  grid_end ← (last weeks_dates ≫= last);
  let bookings_by_day := foldl (bucket grid_start grid_end) ∅ bookings in
  let month_start := anchor in
  '(_, ndays) ← calendar.monthrange (datetime.year anchor) (datetime.month anchor);
  month_end ← datetime.date_new (datetime.year anchor) (datetime.month anchor) ndays;
  let total_bookings :=
    Z.of_nat (size (list_to_set (C := gset Z)
      (Booking.id <$>
         filter (λ b, (Booking.status b = pending ∨ Booking.status b = approved)
                      ∧ Booking.start_at b ≤ month_end
                      ∧ month_start ≤ Booking.end_at b) bookings))) in
  let total_pending :=
    Z.of_nat (size (list_to_set (C := gset Z)
      (Booking.id <$>
         filter (λ b, Booking.status b = pending
                      ∧ Booking.start_at b ≤ month_end
                      ∧ month_start ≤ Booking.end_at b) bookings))) in
  let selected :=
    match selected_date with
    | Some d => d
    | None =>
        if bool_decide (datetime.year anchor = datetime.year today)
           && bool_decide (datetime.month anchor = datetime.month today)
        then today else anchor
    end in
  let weeks_payload :=
    (λ week : list datetime.date, calendar_day anchor today bookings_by_day <$> week)
      <$> weeks_dates in
  let total_remaining :=
    foldl (λ total day,
             if CalendarDay.is_current_month day
             then total + CalendarDay.remaining_slots day else total)
          0 (concat weeks_payload) in
  let next_available_label :=
    head (filter (λ day_value,
                    approved_count (get_day bookings_by_day day_value) < CAPACITY_PER_DAY)
                 (_daterange (Z.max today grid_start) grid_end)) in
  let selected :=
    if (selected <? grid_start) || (grid_end <? selected) then anchor else selected in
  let selected_detail := _build_day_detail selected (get_day bookings_by_day selected) in
  let pending_requests :=
    pending_request <$>
      sorted booking_key (filter (λ b, Booking.status b = pending) bookings) in
  let calendar_payload :=
    CalendarMonth.mk anchor selected total_bookings total_pending total_remaining
      next_available_label now WEEKDAY_LABELS weeks_payload in
  Some (CalendarResponse.mk resource_id calendar_payload selected_detail pending_requests).

(** the joined load of a booking's customer *)
Definition _booking_read (booking : Booking.t) : Handler BookingRead.t :=
  t <- get_txn ;;
  ret (BookingRead.mk booking
         (head (filter (λ c, Customer.id c = Booking.customer_id booking) (customers t)))).

Definition create_booking (payload : BookingCreate.t) : Handler BookingRead.t :=
  if BookingCreate.end_at payload <? BookingCreate.start_at payload then
    raise (mkHTTPException HTTP_422_UNPROCESSABLE_ENTITY
             "End date must be on or after start date")
  else
    customer <- _upsert_customer (BookingCreate.customer payload) ;;
    _ensure_no_conflict (BookingCreate.resource_id payload)
      (BookingCreate.start_at payload) (BookingCreate.end_at payload) None ;;
    booking <- insert_booking (λ id,
      Booking.mk id (Customer.id customer) (BookingCreate.resource_id payload) pending
        (BookingCreate.start_at payload) (BookingCreate.end_at payload)
        (BookingCreate.requested_by payload) None (BookingCreate.notes payload) None) ;;
    commit ;;
    _booking_read booking.

(** for an id the driver can bind to the INTEGER key *)
Definition _get_booking (booking_id : Z) : Handler Booking.t :=
  t <- get_txn ;;
  match scalar_one_or_none (filter (λ b, Booking.id b = booking_id) (bookings t)) with
  | None => raise (mkHTTPException HTTP_404_NOT_FOUND "Booking not found")
  | Some booking => ret booking
  end.

(** [f"{booking.notes}\nDecision: {payload.note}" if booking.notes else
    payload.note], under [if payload.note] *)
Definition decision_notes (notes note : option string) : option string :=
  match note with
  | Some (String _ _ as note) =>
      match notes with
      | Some (String _ _ as notes) => Some (notes +:+ "
Decision: " +:+ note)
      | _ => Some note
      end
  | _ => notes
  end.

Definition approve_booking (booking_id : Z) (payload : BookingDecision.t)
    (now : datetime.datetime) : Handler BookingRead.t :=
  booking <- _get_booking booking_id ;;
  if decide (Booking.status booking ≠ pending) then
    raise (mkHTTPException HTTP_409_CONFLICT "Only pending bookings can be approved")
  else
    _ensure_no_conflict (Booking.resource_id booking) (Booking.start_at booking)
      (Booking.end_at booking) (Some (Booking.id booking)) ;;
    let booking :=
      Booking.mk (Booking.id booking) (Booking.customer_id booking)
        (Booking.resource_id booking) approved (Booking.start_at booking)
        (Booking.end_at booking) (Booking.requested_by booking)
        (Some (BookingDecision.actor payload))
        (decision_notes (Booking.notes booking) (BookingDecision.note payload))
        (Some now) in
    update_booking booking ;;
    commit ;;
    _booking_read booking.

Definition decline_booking (booking_id : Z) (payload : BookingDecision.t)
    (now : datetime.datetime) : Handler BookingRead.t :=
  booking <- _get_booking booking_id ;;
  if decide (Booking.status booking ≠ pending) then
    raise (mkHTTPException HTTP_409_CONFLICT "Only pending bookings can be declined")
  else
    let booking :=
      Booking.mk (Booking.id booking) (Booking.customer_id booking)
        (Booking.resource_id booking) declined (Booking.start_at booking)
        (Booking.end_at booking) (Booking.requested_by booking)
        (Some (BookingDecision.actor payload))
        (decision_notes (Booking.notes booking) (BookingDecision.note payload))
        (Some now) in
    update_booking booking ;;
    commit ;;
    _booking_read booking.

(** The clock is read twice: [today_anchor] is [date.today()] as
    [_month_anchor] reads it, [today] is [date.today()] as the builder reads
    it afterwards. *)
Definition get_calendar (month : option (Z * Z)) (selected_date : option datetime.date)
    (resource_id : string) (today_anchor today : datetime.date) (now : datetime.datetime)
    : Handler CalendarResponse.t :=
  anchor <- _month_anchor month today_anchor ;;
  weeks <- uncaught (calendar.monthdatescalendar 0 (datetime.year anchor)
                       (datetime.month anchor)) ;;
  grid_start <- uncaught (head weeks ≫= head) ;;
  grid_end <- uncaught (last weeks ≫= last) ;;
  bookings <- _fetch_bookings_for_range resource_id grid_start grid_end ;;
  uncaught (_build_calendar anchor resource_id bookings selected_date today now).

Definition get_calendar_day (date_value : datetime.date) (resource_id : string)
    : Handler CalendarDayDetail.t :=
  bookings <- _fetch_bookings_for_range resource_id date_value date_value ;;
  let day_bookings :=
    filter (λ b, Booking.start_at b ≤ date_value ∧ date_value ≤ Booking.end_at b) bookings in
  ret (_build_day_detail date_value day_bookings).

End bookings.

(** ** Vocabulary of the specification *)

Module spec.
Import models schemas database.

(** The three mutating requests of the lifecycle API. *)
Inductive Request :=
| Create (payload : BookingCreate.t)
| Approve (booking_id : Z) (payload : BookingDecision.t) (now : datetime.datetime)
| Decline (booking_id : Z) (payload : BookingDecision.t) (now : datetime.datetime).

Definition run (r : Request) (db : Database) : (HTTPException + BookingRead.t) * Database :=
  match r with
  | Create payload => get_db (bookings.create_booking payload) db
  | Approve i payload now => get_db (bookings.approve_booking i payload now) db
  | Decline i payload now => get_db (bookings.decline_booking i payload now) db
  end.

(** States reachable from the empty store; a request that fails is a step too. *)
Inductive reachable : Database → Prop :=
| reachable_empty : reachable database.empty
| reachable_step db r : reachable db → reachable (run r db).2.

Definition ConflictError (e : HTTPException) : Prop :=
  match e with mkHTTPException code _ => code = 409 end.

Definition ValidationError (e : HTTPException) : Prop :=
  match e with mkHTTPException code _ => code = 422 end.

(** [b] occupies day [D] of resource [R] as an approved booking *)
Definition occupies (R : string) (D : datetime.date) (b : Booking.t) : Prop :=
  Booking.resource_id b = R ∧ Booking.status b = approved
  ∧ Booking.start_at b ≤ D ∧ D ≤ Booking.end_at b.

#[global] Instance occupies_dec R D b : Decision (occupies R D b).
Proof. unfold occupies. apply _. Defined.

(** [b] is a booking the conflict check for [(resourceId, startDate,
    endDate, excludeBookingId)] must report *)
Definition conflicts_with (resourceId : string) (startDate endDate : datetime.date)
    (excludeBookingId : option Z) (b : Booking.t) : Prop :=
  Booking.resource_id b = resourceId ∧ Booking.status b = approved
  ∧ startDate ≤ Booking.end_at b ∧ Booking.start_at b ≤ endDate
  ∧ ∀ i, excludeBookingId = Some i → Booking.id b ≠ i.

(** the row a primary key designates *)
Definition booking_by_id (db : Database) (i : Z) : option Booking.t :=
  head (filter (λ b, Booking.id b = i) (bookings (tables db))).

(** two bookings that may not both be approved: same resource and
    intersecting spans *)
Definition clash (b1 b2 : Booking.t) : Prop :=
  Booking.resource_id b1 = Booking.resource_id b2
  ∧ Booking.start_at b1 ≤ Booking.end_at b2 ∧ Booking.start_at b2 ≤ Booking.end_at b1.

(** The invariant of the store: booking ids are below the sequence and
    pairwise distinct, approved bookings do not clash, and every span is
    well ordered. *)
Record store_inv (db : Database) : Prop := {
  inv_ids_below :
    ∀ b, b ∈ bookings (tables db) → Booking.id b < bookings_id_seq db;
  inv_ids_distinct :
    ∀ i j b1 b2, bookings (tables db) !! i = Some b1 → bookings (tables db) !! j = Some b2 →
                 i ≠ j → Booking.id b1 ≠ Booking.id b2;
  inv_no_clash :
    ∀ i j b1 b2, bookings (tables db) !! i = Some b1 → bookings (tables db) !! j = Some b2 →
                 i ≠ j → Booking.status b1 = approved → Booking.status b2 = approved →
                 ¬ clash b1 b2;
  inv_ordered :
    ∀ b, b ∈ bookings (tables db) → Booking.start_at b ≤ Booking.end_at b;
}.

(** how a decision note is recorded, given the notes the booking had *)
Definition note_recorded (old_notes : option string) (note : string)
    (new_notes : option string) : Prop :=
  (∀ old, old_notes = Some old → old ≠ EmptyString →
          new_notes = Some (old +:+ "
Decision: " +:+ note))
  ∧ (old_notes = None ∨ old_notes = Some EmptyString → new_notes = Some note).

Definition monday_on_or_before (d : datetime.date) : datetime.date :=
  d - datetime.weekday d.

Definition sunday_on_or_after (d : datetime.date) : datetime.date :=
  d + (6 - datetime.weekday d).

(** the number of bookings of status [st] whose span, clipped to
    [[grid_start, grid_end]], contains [d] *)
Definition count_on (st : BookingStatus) (grid_start grid_end : datetime.date)
    (bookings : list Booking.t) (d : datetime.date) : Z :=
  Z.of_nat (length (filter (λ b, Booking.status b = st
                                 ∧ Z.max (Booking.start_at b) grid_start ≤ d
                                 ∧ d ≤ Z.min (Booking.end_at b) grid_end) bookings)).

(** the number of bookings of status [st] whose span contains [d] *)
Definition count_containing (st : BookingStatus) (bookings : list Booking.t)
    (d : datetime.date) : Z :=
  Z.of_nat (length (filter (λ b, Booking.status b = st
                                 ∧ Booking.start_at b ≤ d ∧ d ≤ Booking.end_at b)
                           bookings)).

(** a month the date type can anchor: [date(year, month, 1)] exists *)
Definition anchor_month (year month : Z) : Prop :=
  1 ≤ year ≤ 9999 ∧ 1 ≤ month ≤ 12.

(** the first and the last day of a month, and the corners of its grid *)
Definition month_first (year month : Z) : datetime.date :=
  datetime._ymd2ord year month 1.

Definition month_last (year month : Z) : datetime.date :=
  datetime._ymd2ord year month (datetime._days_in_month year month).

Definition grid_first (year month : Z) : datetime.date :=
  monday_on_or_before (month_first year month).

Definition grid_last (year month : Z) : datetime.date :=
  sunday_on_or_after (month_last year month).

(** the days shown by a response, row by row *)
Definition grid_of (resp : CalendarResponse.t) : list (list datetime.date) :=
  (λ week : list CalendarDay.t, CalendarDay.iso <$> week)
    <$> CalendarMonth.weeks (CalendarResponse.calendar resp).

End spec.

(** ** A worked scenario

    Booking A (2025-06-10 to 2025-06-12) is created and approved; requests
    B (2025-06-11), C (2025-06-20 to 2025-06-21) and a request whose range
    runs backwards follow. *)

Module scenario.
Import models schemas database spec.

Definition house : string := "alder-lake-house".
Definition alice := CustomerCreate.mk "Alice@Example.com" "Alice".
Definition bob := CustomerCreate.mk "bob@example.com" "Bob".
Definition request_A := BookingCreate.mk alice 739412 739414 "Alice" None house.
Definition request_B := BookingCreate.mk bob 739413 739413 "Bob" (Some "one night") house.
Definition request_C := BookingCreate.mk bob 739422 739423 "Bob" (Some "two nights") house.
Definition request_backwards := BookingCreate.mk bob 739437 739433 "Bob" None house.
Definition owner := BookingDecision.mk "Owner" (Some "fine").

Definition A_created : Database := (run (Create request_A) database.empty).2.
Definition A_approved : Database := (run (Approve 1 owner 1000) A_created).2.
Definition C_created : Database := (run (Create request_C) A_approved).2.

(** booking A once approved *)
Definition booking_A : Booking.t :=
  Booking.mk 1 1 house approved 739412 739414 "Alice" (Some "Owner") (Some "fine") (Some 1000).

(** booking C while pending *)
Definition booking_C : Booking.t :=
  Booking.mk 2 2 house pending 739422 739423 "Bob" None (Some "two nights") None.
End scenario.

(** ** [app/routers/bookings.py], continued: the listing endpoint *)

Module listing.
Import models schemas database bookings.

(** [[f(x) for x in l]] for a coroutine [f] *)
Fixpoint for_each {A B} (f : A → Handler B) (l : list A) : Handler (list B) :=
  match l with
  | [] => ret []
  | x :: l' =>
      y <- f x ;;
      ys <- for_each f l' ;;
      ret (y :: ys)
  end.

Definition list_bookings (status_filter : option BookingStatus) (resource_id : string)
    (start_date end_date : option datetime.date) : Handler (list BookingRead.t) :=
  t <- get_txn ;;
  let stmt := filter (λ b, Booking.resource_id b = resource_id) (database.bookings t) in
  let stmt :=
    match status_filter with
    | Some st => filter (λ b, Booking.status b = st) stmt
    | None => stmt
    end in
  let stmt :=
    match start_date with
    | Some d => filter (λ b, d ≤ Booking.end_at b) stmt
    | None => stmt
    end in
  let stmt :=
    match end_date with
    | Some d => filter (λ b, Booking.start_at b ≤ d) stmt
    | None => stmt
    end in
  (* ORDER BY start_at ASC, id ASC *)
  let records := sorted booking_key stmt in
  for_each _booking_read records.

End listing.

(** ** Vocabulary of the further properties *)

Module spec_more.
Import models schemas database.

(** a number the INTEGER column of a primary key can hold, and the driver
    can bind to it *)
Definition int32 (n : Z) : Prop := -2147483648 ≤ n ≤ 2147483647.

(** [str.isascii()] *)
Fixpoint isascii (s : string) : bool :=
  match s with
  | EmptyString => true
  | String c s' => (Ascii.N_of_ascii c <? 128)%N && isascii s'
  end.

(** the text holds one of the capital letters A to Z *)
Fixpoint has_capital (s : string) : bool :=
  match s with
  | EmptyString => false
  | String c s' =>
      ((65 <=? Ascii.N_of_ascii c) && (Ascii.N_of_ascii c <=? 90))%N || has_capital s'
  end.

(** the answer to an id that names no booking *)
Definition NotFoundError (e : HTTPException) : Prop :=
  match e with mkHTTPException code _ => code = 404 end.

(** the order of [(start date, id)] keys *)
Definition key_lex (k1 k2 : Z * Z) : Prop :=
  k1.1 < k2.1 ∨ (k1.1 = k2.1 ∧ k1.2 ≤ k2.2).

(** a list in ascending order of its [(start date, id)] keys *)
Definition ascending {A} (key : A → Z * Z) (l : list A) : Prop :=
  ∀ (i j : nat) x y, (i < j)%nat → l !! i = Some x → l !! j = Some y →
                     key_lex (key x) (key y).

Definition by_start_then_id (l : list Booking.t) : Prop :=
  ascending bookings.booking_key l.

(** a row matches the filters of the listing endpoint *)
Definition listed (status_filter : option BookingStatus) (resource_id : string)
    (start_date end_date : option datetime.date) (b : Booking.t) : Prop :=
  Booking.resource_id b = resource_id
  ∧ match status_filter with Some st => Booking.status b = st | None => True end
  ∧ match start_date with Some d => d ≤ Booking.end_at b | None => True end
  ∧ match end_date with Some d => Booking.start_at b ≤ d | None => True end.

#[global] Instance listed_dec status_filter resource_id start_date end_date b :
  Decision (listed status_filter resource_id start_date end_date b).
Proof. unfold listed. destruct status_filter, start_date, end_date; apply _. Defined.

(** [out] renders, in ascending order of [(start date, id)], exactly the
    rows of [bookings] that satisfy [P], each once *)
Definition renders {A} (render : Booking.t → A) (out : list A)
    (P : Booking.t → Prop) `{!∀ b, Decision (P b)} (bookings : list Booking.t) : Prop :=
  ∃ rows, out = render <$> rows ∧ rows ≡ₚ filter P bookings ∧ by_start_then_id rows.

(** the booking's span contains the day *)
Definition contains (d : datetime.date) (b : Booking.t) : Prop :=
  Booking.start_at b ≤ d ∧ d ≤ Booking.end_at b.

#[global] Instance contains_dec d b : Decision (contains d b).
Proof. unfold contains. apply _. Defined.

(** the booking's span meets the days from [lo] to [hi] *)
Definition overlaps (lo hi : datetime.date) (b : Booking.t) : Prop :=
  Booking.start_at b ≤ hi ∧ lo ≤ Booking.end_at b.

#[global] Instance overlaps_dec lo hi b : Decision (overlaps lo hi b).
Proof. unfold overlaps. apply _. Defined.

(** the columns no decision writes *)
Definition same_request (b b' : Booking.t) : Prop :=
  Booking.id b' = Booking.id b
  ∧ Booking.customer_id b' = Booking.customer_id b
  ∧ Booking.resource_id b' = Booking.resource_id b
  ∧ Booking.start_at b' = Booking.start_at b
  ∧ Booking.end_at b' = Booking.end_at b
  ∧ Booking.requested_by b' = Booking.requested_by b.

(** The invariant of the customers table: ids below the sequence and
    pairwise distinct, addresses in lower case and pairwise distinct, and
    every booking owned by a customer of the table. *)
Record customers_inv (db : Database) : Prop := {
  inv_customer_ids_below :
    ∀ c, c ∈ customers (tables db) → Customer.id c < customers_id_seq db;
  inv_customer_ids_distinct : NoDup (Customer.id <$> customers (tables db));
  inv_emails_distinct : NoDup (Customer.email <$> customers (tables db));
  inv_emails_lower :
    ∀ c, c ∈ customers (tables db) → bookings.lower (Customer.email c) = Customer.email c;
  inv_bookings_owned :
    ∀ b, b ∈ database.bookings (tables db) →
         ∃ c, c ∈ customers (tables db) ∧ Customer.id c = Booking.customer_id b;
}.

(** ids grow along the table, from 1 and below the sequence *)
Definition ids_increase (db : Database) : Prop :=
  (∀ b, b ∈ database.bookings (tables db) → 1 ≤ Booking.id b < bookings_id_seq db)
  ∧ ∀ (i j : nat) b1 b2,
      (i < j)%nat →
      database.bookings (tables db) !! i = Some b1 →
      database.bookings (tables db) !! j = Some b2 →
      Booking.id b1 < Booking.id b2.

(** the sum of [f] over a list of days *)
Definition sum_over (f : datetime.date → Z) (days : list datetime.date) : Z :=
  foldr (λ d acc, f d + acc) 0 days.

End spec_more.

(** ** The worked scenario, continued *)

Module scenario_more.
Import models schemas database spec.

(** requests A and B both pending *)
Definition AB_created : Database := (run (Create scenario.request_B) scenario.A_created).2.

(** Alice writes again, with another spelling of her address and name *)
Definition alice_again := CustomerCreate.mk "ALICE@example.COM" "Alice Liddell".
Definition request_D :=
  BookingCreate.mk alice_again 739430 739431 "Alice" None scenario.house.

End scenario_more.

(** * Properties *)

Import models schemas database.

(** * Dates *)


Lemma month_cases m :
  1 <= m <= 12 ->
  m = 1 \/ m = 2 \/ m = 3 \/ m = 4 \/ m = 5 \/ m = 6 \/ m = 7 \/ m = 8 \/ m = 9
  \/ m = 10 \/ m = 11 \/ m = 12.
Proof. lia. Qed.

(** closed sums and differences of literals *)
Ltac zlit :=
  repeat match goal with
    | |- context [Z.pos ?p + Z.pos ?q] =>
        let v := eval vm_compute in (Z.pos p + Z.pos q) in
        change (Z.pos p + Z.pos q) with v
    | |- context [Z.pos ?p - Z.pos ?q] =>
        let v := eval vm_compute in (Z.pos p - Z.pos q) in
        change (Z.pos p - Z.pos q) with v
    end.

Ltac each_month H :=
  destruct (month_cases _ H) as [->|[->|[->|[->|[->|[->|[->|[->|[->|[->|[->| ->]]]]]]]]]]].

Lemma days_before_year_succ y :
  datetime._days_before_year (y + 1)
  = datetime._days_before_year y + (if datetime._is_leap y then 366 else 365).
Proof.
  unfold datetime._days_before_year, datetime._is_leap.
  destruct (_ && _) eqn:E; Z.div_mod_to_equations; lia.
Qed.

Lemma year_decomp y :
  1 <= y ->
  exists a b c e,
    y = 400 * a + 100 * b + 4 * c + e + 1
    /\ 0 <= a /\ 0 <= b <= 3 /\ 0 <= c <= 24 /\ 0 <= e <= 3
    /\ datetime._days_before_year y = 146097 * a + 36524 * b + 1461 * c + 365 * e
    /\ datetime._is_leap y = ((e =? 3) && (negb (c =? 24) || (b =? 3))).
Proof.
  intros Hy.
  exists ((y - 1) / 400), ((y - 1) mod 400 / 100),
    ((y - 1) mod 400 mod 100 / 4), ((y - 1) mod 400 mod 100 mod 4).
  unfold datetime._days_before_year, datetime._is_leap.
  repeat split; try (Z.div_mod_to_equations; lia).
Qed.


Lemma ord2ymd_tail (year : Z) (leapyear : bool) m d :
  1 <= m <= 12 ->
  1 <= d <= (if (m =? 2) && leapyear then 29 else datetime._DAYS_IN_MONTH m) ->
  let n := datetime._DAYS_BEFORE_MONTH m + (if (2 <? m) && leapyear then 1 else 0) + d - 1 in
  (let month := Z.shiftr (n + 50) 5 in
   let preceding :=
     datetime._DAYS_BEFORE_MONTH month + (if (2 <? month) && leapyear then 1 else 0) in
   if n <? preceding then
     let month := month - 1 in
     let preceding :=
       preceding - (datetime._DAYS_IN_MONTH month + (if (month =? 2) && leapyear then 1 else 0)) in
     (year, month, n - preceding + 1)
   else (year, month, n - preceding + 1)) = (year, m, d).
Proof.
  intros Hm Hd n.
  pose proof (month_cases m Hm) as Hm'.
  rewrite Z.shiftr_div_pow2 by lia. change (2 ^ 5) with 32.
  destruct leapyear;
    destruct Hm' as [->|[->|[->|[->|[->|[->|[->|[->|[->|[->|[->| ->]]]]]]]]]]];
    cbn in Hd; subst n; cbn [datetime._DAYS_BEFORE_MONTH Z.ltb Z.compare Pos.compare Pos.compare_cont andb].
  all: match goal with
       | |- context [(?e + 50) / 32] =>
           remember ((e + 50) / 32) as q eqn:Eq
       end;
       match goal with
       | |- _ = (_, ?m, _) =>
           let m1 := eval cbv in (m + 1) in
           assert (Hq : q = m \/ q = m1) by (Z.div_mod_to_equations; lia)
       end;
       destruct Hq as [Hq|Hq]; rewrite Hq in *; clear Hq;
       cbn -[Z.div];
       match goal with
       | |- context [?a <? ?b] => destruct (Z.ltb_spec a b)
       end;
       repeat match goal with
         | |- context [Z.pos ?p - 1] =>
             let v := eval vm_compute in (Z.pos p - 1) in change (Z.pos p - 1) with v
         end;
       cbn -[Z.div Z.add Z.sub];
       try (repeat f_equal; lia);
       try (exfalso; Z.div_mod_to_equations; lia).
Qed.

Lemma ord2ymd_ymd2ord y m d :
  1 <= y -> 1 <= m <= 12 -> 1 <= d <= datetime._days_in_month y m ->
  datetime._ord2ymd (datetime._ymd2ord y m d) = (y, m, d).
Proof.
  intros Hy Hm Hd.
  destruct (year_decomp y Hy) as (a & b & c & e & Hyeq & Ha & Hb & Hc & He & Hdby & Hleap).
  unfold datetime._ymd2ord, datetime._days_before_month, datetime._days_in_month in *.
  rewrite Hdby. rewrite Hleap in *. clear Hdby Hleap.
  set (leap := (e =? 3) && (negb (c =? 24) || (b =? 3))) in *.
  set (o := datetime._DAYS_BEFORE_MONTH m + (if (2 <? m) && leap then 1 else 0) + d - 1).
  assert (Ho : 0 <= o <= 364 \/ (o = 365 /\ leap = true)).
  { subst o.
    pose proof (month_cases m Hm) as Hm'.
    destruct leap;
    destruct Hm' as [->|[->|[->|[->|[->|[->|[->|[->|[->|[->|[->| ->]]]]]]]]]]];
    cbn in *; lia. }
  assert (Hmd : o = 365 -> m = 12 /\ d = 31).
  { subst o. intros Ho'.
    pose proof (month_cases m Hm) as Hm'.
    destruct leap;
    destruct Hm' as [->|[->|[->|[->|[->|[->|[->|[->|[->|[->|[->| ->]]]]]]]]]]];
    cbn in *; lia. }
  match goal with
  | |- datetime._ord2ymd ?n = _ =>
      replace n with (146097 * a + 36524 * b + 1461 * c + 365 * e + o + 1) by (subst o; lia)
  end.
  assert (Eo : o = datetime._DAYS_BEFORE_MONTH m + (if (2 <? m) && leap then 1 else 0) + d - 1)
    by reflexivity.
  clearbody o.
  unfold datetime._ord2ymd, datetime._DI400Y, datetime._DI100Y, datetime._DI4Y.
  cbv zeta.
  replace (146097 * a + 36524 * b + 1461 * c + 365 * e + o + 1 - 1)
    with (146097 * a + 36524 * b + 1461 * c + 365 * e + o) by lia.
  set (K := 146097 * a + 36524 * b + 1461 * c + 365 * e + o).
  destruct Ho as [Ho | [Ho Hl]].
  - assert (E400 : K / 146097 = a) by (subst K; Z.div_mod_to_equations; lia).
    assert (R400 : K mod 146097 = 36524 * b + 1461 * c + 365 * e + o)
      by (subst K; Z.div_mod_to_equations; lia).
    rewrite E400, R400.
    assert (E100 : (36524 * b + 1461 * c + 365 * e + o) / 36524 = b)
      by (Z.div_mod_to_equations; lia).
    assert (R100 : (36524 * b + 1461 * c + 365 * e + o) mod 36524 = 1461 * c + 365 * e + o)
      by (Z.div_mod_to_equations; lia).
    rewrite E100, R100.
    assert (E4 : (1461 * c + 365 * e + o) / 1461 = c) by (Z.div_mod_to_equations; lia).
    assert (R4 : (1461 * c + 365 * e + o) mod 1461 = 365 * e + o)
      by (Z.div_mod_to_equations; lia).
    rewrite E4, R4.
    assert (E1 : (365 * e + o) / 365 = e) by (Z.div_mod_to_equations; lia).
    assert (R1 : (365 * e + o) mod 365 = o) by (Z.div_mod_to_equations; lia).
    rewrite E1, R1.
    replace ((e =? 4) || (b =? 4)) with false by lia.
    replace (a * 400 + 1 + (b * 100 + c * 4 + e)) with y by lia.
    fold leap. rewrite Eo.
    apply (ord2ymd_tail y leap m d Hm Hd).
  - destruct (Hmd Ho) as [-> ->].
    match goal with
    | |- (if ?t then _ else _) = _ =>
        replace t with true by (subst K leap; Z.div_mod_to_equations; lia)
    end.
    repeat f_equal. subst K leap. Z.div_mod_to_equations. lia.
Qed.

Lemma monthlen_days_in_month y m :
  1 ≤ m ≤ 12 → calendar._monthlen y m = datetime._days_in_month y m.
Proof.
  intros Hm. unfold calendar._monthlen, datetime._days_in_month, calendar.isleap,
    datetime._is_leap.
  each_month Hm; cbn; repeat case_match; done.
Qed.

Lemma days_in_month_bounds y m : 1 ≤ m ≤ 12 → 28 ≤ datetime._days_in_month y m ≤ 31.
Proof.
  intros Hm. unfold datetime._days_in_month.
  each_month Hm; cbn; destruct (datetime._is_leap y); cbn; lia.
Qed.

Lemma date_new_Some y m d :
  spec.anchor_month y m → 1 ≤ d ≤ datetime._days_in_month y m →
  datetime.date_new y m d = Some (datetime._ymd2ord y m d).
Proof.
  intros [Hy Hm] Hd. unfold datetime.date_new, datetime.MINYEAR, datetime.MAXYEAR.
  replace (_ && _) with true; [done |]. lia.
Qed.

(** consecutive days of one month have consecutive ordinals *)
Lemma ymd2ord_day y m d : datetime._ymd2ord y m d = datetime._ymd2ord y m 1 + (d - 1).
Proof. unfold datetime._ymd2ord. lia. Qed.

(** the first of a month follows the last day of the month before *)
Lemma ymd2ord_next_month y m :
  1 ≤ m ≤ 12 →
  let '(y', m') := calendar._nextmonth y m in
  datetime._ymd2ord y' m' 1 = datetime._ymd2ord y m (datetime._days_in_month y m) + 1.
Proof.
  intros Hm. unfold calendar._nextmonth, datetime._ymd2ord, datetime._days_before_month,
    datetime._days_in_month.
  each_month Hm; cbn -[datetime._days_before_year datetime._is_leap]; zlit;
    cbn -[datetime._days_before_year datetime._is_leap];
    try (destruct (datetime._is_leap y); lia).
  rewrite days_before_year_succ.
  destruct (datetime._is_leap y), (datetime._is_leap (y + 1)); lia.
Qed.

Lemma prevmonth_nextmonth y m :
  1 ≤ m ≤ 12 →
  let '(y', m') := calendar._prevmonth y m in
  calendar._nextmonth y' m' = (y, m) ∧ 1 ≤ m' ≤ 12.
Proof.
  intros Hm. unfold calendar._prevmonth, calendar._nextmonth.
  each_month Hm; cbn; zlit; cbn; split; first [done | lia | f_equal; lia].
Qed.

(** * The month grid *)

Lemma mapM_seqZ {A} (f : A → option Z) (g : Z → A) (a b n : Z) :
  (∀ i, 0 ≤ i < n → f (g (a + i)) = Some (b + i)) →
  mapM f (g <$> seqZ a n) = Some (seqZ b n).
Proof.
  intros Hf. apply mapM_Some. apply Forall2_fmap_l.
  apply Forall2_same_length_lookup. split; [by rewrite !length_seqZ |].
  intros i x z [-> Hi]%lookup_seqZ [-> _]%lookup_seqZ. apply Hf. lia.
Qed.

Lemma mapM_app_Some {A B} (f : A → option B) l1 l2 k1 k2 :
  mapM f l1 = Some k1 → mapM f l2 = Some k2 → mapM f (l1 ++ l2) = Some (k1 ++ k2).
Proof. rewrite !mapM_Some. apply Forall2_app. Qed.

Lemma weekday_bounds d : 0 ≤ datetime.weekday d ≤ 6.
Proof. unfold datetime.weekday. Z.div_mod_to_equations. lia. Qed.

Lemma slice_seqZ a n i :
  0 ≤ i → i + 7 ≤ n → slice (seqZ a n) i (i + 7) = seqZ (a + i) 7.
Proof.
  intros Hi Hn. unfold slice.
  replace n with (i + (7 + (n - i - 7))) by lia.
  rewrite seqZ_app by lia. rewrite (seqZ_app _ 7) by lia.
  rewrite drop_app_length' by (rewrite length_seqZ; lia).
  rewrite take_app_length' by (rewrite length_seqZ; lia). done.
Qed.

Lemma head_seqZ a n : 0 < n → head (seqZ a n) = Some a.
Proof. intros Hn. by rewrite seqZ_cons. Qed.

Lemma last_seqZ a n : 0 < n → last (seqZ a n) = Some (a + n - 1).
Proof.
  intros Hn. rewrite last_lookup, length_seqZ.
  rewrite lookup_seqZ_lt by lia. f_equal. lia.
Qed.

Section grid.
Variables y m : Z.
Hypothesis Hym : spec.anchor_month y m.

Local Abbreviation first_day := (spec.month_first y m).
Local Abbreviation ndays := (datetime._days_in_month y m).
Local Abbreviation last_day := (spec.month_last y m).
Local Abbreviation grid_start := (spec.grid_first y m).
Local Abbreviation grid_end := (spec.grid_last y m).

Lemma last_day_first : last_day = first_day + ndays - 1.
Proof. unfold last_day, first_day. rewrite ymd2ord_day. lia. Qed.

Lemma monthrange_eq : calendar.monthrange y m = Some (datetime.weekday first_day, ndays).
Proof.
  destruct Hym as [Hy Hm]. unfold calendar.monthrange, calendar.weekday.
  replace ((1 <=? m) && (m <=? 12)) with true by lia.
  replace ((datetime.MINYEAR <=? y) && (y <=? datetime.MAXYEAR)) with true
    by (unfold datetime.MINYEAR, datetime.MAXYEAR; lia).
  rewrite date_new_Some by (done || pose proof (days_in_month_bounds y m Hm); lia).
  cbn. do 2 f_equal. apply (monthlen_days_in_month y m Hm).
Qed.

Lemma grid_span :
  grid_start ≤ first_day ≤ grid_start + 6
  ∧ last_day ≤ grid_end ≤ last_day + 6
  ∧ datetime.weekday grid_start = 0
  ∧ datetime.weekday grid_end = 6
  ∧ (grid_end + 1 - grid_start) mod 7 = 0
  ∧ 28 ≤ grid_end + 1 - grid_start.
Proof.
  pose proof (days_in_month_bounds y m (proj2 Hym)) as Hn. fold ndays in Hn.
  pose proof last_day_first as Hl.
  unfold grid_start, grid_end, spec.monday_on_or_before, spec.sunday_on_or_after,
    datetime.weekday.
  repeat split; Z.div_mod_to_equations; lia.
Qed.

Lemma itermonthdates_eq :
  (y, m) ≠ (9999, 12) →
  calendar.itermonthdates 0 y m = Some (seqZ grid_start (grid_end + 1 - grid_start)).
Proof.
  intros Hmax. destruct Hym as [Hy Hm].
  pose proof (days_in_month_bounds y m Hm) as Hn. fold ndays in Hn.
  pose proof last_day_first as Hl.
  unfold calendar.itermonthdates, calendar.itermonthdays3.
  rewrite monthrange_eq. cbn [mbind option_bind].
  set (wd := datetime.weekday first_day).
  pose proof (weekday_bounds first_day) as Hwd. fold wd in Hwd.
  set (days_before := (wd - 0) mod 7).
  set (days_after := (0 - wd - ndays) mod 7).
  assert (Hdb : days_before = first_day - grid_start).
  { unfold days_before, grid_start, spec.monday_on_or_before. fold wd.
    Z.div_mod_to_equations. lia. }
  assert (Hda : days_after = grid_end - last_day ∧ 0 ≤ days_after ≤ 6).
  { unfold days_after, grid_end, spec.sunday_on_or_after, wd, datetime.weekday.
    Z.div_mod_to_equations. lia. }
  destruct Hda as [Hda Hda'].
  assert (Hdb' : 0 ≤ days_before ≤ 6)
    by (unfold days_before; Z.div_mod_to_equations; lia).
  assert (Hdb0 : (y, m) = (1, 1) → days_before = 0).
  { intros [= -> ->]. reflexivity. }
  clearbody days_before days_after.
  pose proof (prevmonth_nextmonth y m Hm) as Hprev.
  pose proof (ymd2ord_next_month y m Hm) as Hnext.
  destruct (calendar._prevmonth y m) as [py pm] eqn:Epm.
  destruct (calendar._nextmonth y m) as [ny nm] eqn:Enm.
  destruct Hprev as [Hprev Hpm].
  cbn [mbind option_bind].
  replace (grid_end + 1 - grid_start) with (days_before + (ndays + days_after)) by lia.
  rewrite seqZ_app by lia. rewrite (seqZ_app _ ndays days_after) by lia.
  apply mapM_app_Some; [| apply mapM_app_Some].
  - unfold range.
    replace (calendar._monthlen py pm + 1 - (calendar._monthlen py pm + 1 - days_before))
      with days_before by lia.
    apply mapM_seqZ. intros i Hi.
    assert (Hpy : spec.anchor_month py pm).
    { split; [| done]. unfold calendar._prevmonth in Epm.
      destruct (Z.eqb_spec m 1) as [-> | Hm1]; simplify_eq; [| lia].
      destruct (decide (y = 1)) as [-> | ?]; [| lia].
      rewrite Hdb0 in Hi by done. lia. }
    pose proof (days_in_month_bounds py pm Hpm) as Hpn.
    rewrite (monthlen_days_in_month py pm Hpm).
    pose proof (ymd2ord_next_month py pm Hpm) as Hadj. rewrite Hprev in Hadj.
    fold first_day in Hadj.
    rewrite date_new_Some by (done || lia).
    rewrite ymd2ord_day. rewrite ymd2ord_day in Hadj. f_equal. lia.
  - unfold range. replace (ndays + 1 - 1) with ndays by lia.
    apply mapM_seqZ. intros i Hi.
    rewrite date_new_Some by (done || fold ndays; lia).
    rewrite ymd2ord_day. fold first_day. f_equal. lia.
  - unfold range. replace (days_after + 1 - 1) with days_after by lia.
    apply mapM_seqZ. intros i Hi.
    assert (Hny : spec.anchor_month ny nm).
    { unfold calendar._nextmonth in Enm.
      destruct (Z.eqb_spec m 12) as [-> | Hm12]; simplify_eq; split; try lia.
      destruct (decide (y = 9999)) as [-> | ?]; [done | lia]. }
    pose proof (days_in_month_bounds ny nm (proj2 Hny)) as Hnn.
    rewrite date_new_Some by (done || lia).
    rewrite ymd2ord_day, Hnext. fold ndays last_day. f_equal. lia.
Qed.

(** the number of weeks of the grid *)
Local Abbreviation nweeks := ((grid_end + 1 - grid_start) / 7).

Lemma nweeks_span : grid_end + 1 - grid_start = 7 * nweeks ∧ 4 ≤ nweeks.
Proof.
  destruct grid_span as (_ & _ & _ & _ & Hmod & Hlen).
  Z.div_mod_to_equations. lia.
Qed.

Lemma monthdatescalendar_eq :
  (y, m) ≠ (9999, 12) →
  calendar.monthdatescalendar 0 y m
  = Some ((λ i, seqZ (grid_start + 7 * i) 7) <$> seqZ 0 nweeks).
Proof.
  intros Hmax. destruct nweeks_span as [Hspan Hn].
  unfold calendar.monthdatescalendar. rewrite itermonthdates_eq by done.
  cbn [mbind option_bind]. f_equal. unfold range_step.
  rewrite length_seqZ, Z2Nat.id by lia.
  replace ((grid_end + 1 - grid_start - 0 + 7 - 1) / 7) with nweeks
    by (Z.div_mod_to_equations; lia).
  rewrite <- list_fmap_compose. apply list_fmap_ext.
  intros i x [-> Hx]%lookup_seqZ. cbn.
  rewrite slice_seqZ by lia. f_equal; lia.
Qed.

Lemma grid_corners :
  let weeks := (λ i, seqZ (grid_start + 7 * i) 7) <$> seqZ 0 nweeks in
  head weeks ≫= head = Some grid_start ∧ last weeks ≫= last = Some grid_end.
Proof.
  destruct nweeks_span as [Hspan Hn]. cbv zeta. split.
  - rewrite seqZ_cons by lia. cbn. rewrite head_seqZ by lia. f_equal. lia.
  - rewrite fmap_last, last_seqZ by lia. cbn. rewrite last_seqZ by lia. f_equal. lia.
Qed.

Lemma grid_concat :
  concat ((λ i, seqZ (grid_start + 7 * i) 7) <$> seqZ 0 nweeks)
  = seqZ grid_start (grid_end + 1 - grid_start).
Proof.
  destruct nweeks_span as [Hspan Hn].
  set (n := nweeks) in *. rewrite Hspan. clearbody n.
  assert (H : ∀ k : nat,
             concat ((λ i, seqZ (grid_start + 7 * i) 7) <$> seqZ 0 (Z.of_nat k))
             = seqZ grid_start (7 * Z.of_nat k)).
  { induction k as [|k IH]; [done |].
    rewrite seqZ_S, fmap_app, concat_app, IH. cbn. rewrite app_nil_r.
    replace (7 * Z.of_nat (S k)) with (7 * Z.of_nat k + 7) by lia.
    rewrite seqZ_app by lia. do 2 f_equal; lia. }
  specialize (H (Z.to_nat n)). by rewrite Z2Nat.id in H by lia.
Qed.
End grid.

(** * The calendar builder *)

Section buckets.
Import bookings.

Lemma daterange_loop_seqZ (fuel : nat) (current end_ : Z) :
  Z.of_nat fuel = Z.max 0 (end_ - current + 1) →
  _daterange_loop fuel current end_ = seqZ current (end_ - current + 1).
Proof.
  revert current. induction fuel as [|fuel IH]; intros current Hfuel; cbn.
  - by rewrite seqZ_nil by lia.
  - replace (current <=? end_) with true by lia.
    rewrite seqZ_cons by lia. f_equal.
    rewrite IH by lia. f_equal; lia.
Qed.

Lemma daterange_seqZ (start end_ : Z) : _daterange start end_ = seqZ start (end_ - start + 1).
Proof. apply daterange_loop_seqZ. lia. Qed.

Lemma elem_of_daterange start end_ d : d ∈ _daterange start end_ ↔ start ≤ d ≤ end_.
Proof. rewrite daterange_seqZ, elem_of_seqZ. lia. Qed.

Lemma get_day_setdefault_append b acc x d :
  get_day (setdefault_append b acc x) d
  = if decide (d = x) then get_day acc d ++ [b] else get_day acc d.
Proof.
  unfold get_day, setdefault_append. case_decide as Hd.
  - subst. by rewrite lookup_insert_eq.
  - by rewrite lookup_insert_ne.
Qed.

Lemma get_day_foldl_setdefault b days acc d :
  NoDup days →
  get_day (foldl (setdefault_append b) acc days) d
  = get_day acc d ++ (if decide (d ∈ days) then [b] else []).
Proof.
  intros Hnd. revert acc. induction Hnd as [|x days Hx Hnd IH]; intros acc; cbn [foldl].
  - rewrite decide_False by apply not_elem_of_nil. by rewrite app_nil_r.
  - rewrite IH, get_day_setdefault_append.
    destruct (decide (d = x)) as [-> | Hne].
    + rewrite decide_False by done. rewrite decide_True by left. by rewrite app_nil_r.
    + destruct (decide (d ∈ days)) as [Hin | Hin].
      * rewrite decide_True by (by right). done.
      * rewrite decide_False; [done |]. by intros [? | ?]%elem_of_cons.
Qed.

(** What the bucketing loop leaves under a day: the bookings whose
    clipped span contains it, in the order of the input. *)
Lemma get_day_foldl_bucket grid_start grid_end bookings acc d :
  get_day (foldl (bucket grid_start grid_end) acc bookings) d
  = get_day acc d
    ++ filter (λ b, Z.max (Booking.start_at b) grid_start ≤ d
                    ∧ d ≤ Z.min (Booking.end_at b) grid_end) bookings.
Proof.
  revert acc. induction bookings as [|b l IH]; intros acc; cbn [foldl].
  - by rewrite app_nil_r.
  - rewrite IH. unfold bucket.
    rewrite get_day_foldl_setdefault by (rewrite daterange_seqZ; apply NoDup_seqZ).
    rewrite filter_cons, <- app_assoc. f_equal.
    destruct (decide (d ∈ _)) as [Hin | Hin]; rewrite elem_of_daterange in Hin.
    + by rewrite decide_True.
    + by rewrite decide_False.
Qed.

Lemma get_day_bookings_by_day grid_start grid_end bookings d :
  get_day (foldl (bucket grid_start grid_end) ∅ bookings) d
  = filter (λ b, Z.max (Booking.start_at b) grid_start ≤ d
                 ∧ d ≤ Z.min (Booking.end_at b) grid_end) bookings.
Proof. rewrite get_day_foldl_bucket. unfold get_day. by rewrite lookup_empty. Qed.

Lemma count_on_containing st grid_start grid_end bookings d :
  grid_start ≤ d ≤ grid_end →
  spec.count_on st grid_start grid_end bookings d = spec.count_containing st bookings d.
Proof.
  intros Hd. unfold spec.count_on, spec.count_containing. do 2 f_equal.
  apply list_filter_iff. intros b. split; intros (? & ? & ?); repeat split; try done; lia.
Qed.

Lemma approved_count_by_day grid_start grid_end bookings d :
  approved_count (get_day (foldl (bucket grid_start grid_end) ∅ bookings) d)
  = spec.count_on approved grid_start grid_end bookings d.
Proof.
  unfold approved_count, spec.count_on.
  by rewrite get_day_bookings_by_day, list_filter_filter.
Qed.

Lemma pending_count_by_day grid_start grid_end bookings d :
  pending_count (get_day (foldl (bucket grid_start grid_end) ∅ bookings) d)
  = spec.count_on pending grid_start grid_end bookings d.
Proof.
  unfold pending_count, spec.count_on.
  by rewrite get_day_bookings_by_day, list_filter_filter.
Qed.
End buckets.

Section builder.
Import bookings.

Lemma year_month_first y m :
  spec.anchor_month y m →
  datetime.year (spec.month_first y m) = y ∧ datetime.month (spec.month_first y m) = m.
Proof.
  intros [Hy Hm]. unfold datetime.year, datetime.month, spec.month_first.
  pose proof (days_in_month_bounds y m Hm).
  rewrite ord2ymd_ymd2ord by lia. done.
Qed.

Lemma month_first_in_grid y m :
  spec.anchor_month y m →
  spec.grid_first y m ≤ spec.month_first y m ≤ spec.grid_last y m.
Proof.
  intros Hym. destruct (grid_span y m Hym) as (H1 & H2 & _).
  pose proof (last_day_first y m) as Hl.
  pose proof (days_in_month_bounds y m (proj2 Hym)). lia.
Qed.

Lemma build_calendar_run y m resource_id bookings selected_date today now :
  spec.anchor_month y m → (y, m) ≠ (9999, 12) →
  let anchor := spec.month_first y m in
  let grid_start := spec.grid_first y m in
  let grid_end := spec.grid_last y m in
  let bookings_by_day := foldl (bucket grid_start grid_end) ∅ bookings in
  ∃ resp selected,
    _build_calendar anchor resource_id bookings selected_date today now = Some resp
    ∧ CalendarMonth.weeks (CalendarResponse.calendar resp)
      = (λ week : list Z, calendar_day anchor today bookings_by_day <$> week)
          <$> ((λ i, seqZ (grid_start + 7 * i) 7)
                 <$> seqZ 0 ((grid_end + 1 - grid_start) / 7))
    ∧ CalendarMonth.next_available_label (CalendarResponse.calendar resp)
      = head (filter (λ d, approved_count (get_day bookings_by_day d) < CAPACITY_PER_DAY)
                (_daterange (Z.max today grid_start) grid_end))
    ∧ CalendarResponse.selected_day resp
      = _build_day_detail selected (get_day bookings_by_day selected)
    ∧ grid_start ≤ selected ≤ grid_end.
Proof.
  intros Hym Hmax. cbv zeta.
  destruct (year_month_first y m Hym) as [Hyear Hmonth].
  pose proof (month_first_in_grid y m Hym) as Hanchor.
  destruct (grid_corners y m Hym) as [Hhead Hlast]; cbv zeta in Hhead, Hlast.
  cbn [mbind option_bind] in Hhead, Hlast.
  unfold _build_calendar. rewrite Hyear, Hmonth.
  rewrite monthdatescalendar_eq by done. cbn [mbind option_bind].
  unfold datetime.date in *. rewrite Hhead, Hlast. cbn [mbind option_bind].
  rewrite monthrange_eq by done. cbn [mbind option_bind].
  pose proof (days_in_month_bounds y m (proj2 Hym)).
  rewrite date_new_Some by (done || lia). cbn [mbind option_bind].
  eexists _, _. split; [reflexivity |]. cbn.
  repeat split; try reflexivity.
  all: destruct (_ || _) eqn:E; lia.
Qed.

Lemma date_new_first_inv y m anchor :
  datetime.date_new y m 1 = Some anchor →
  spec.anchor_month y m ∧ anchor = spec.month_first y m.
Proof.
  unfold datetime.date_new, datetime.MINYEAR, datetime.MAXYEAR, spec.anchor_month.
  destruct (_ && _) eqn:E; [| done]. intros [= <-]. split; [lia | done].
Qed.

(** December 9999: the last week of the grid would run into year 10000. *)
Lemma build_calendar_december_9999 resource_id bookings selected_date today now :
  _build_calendar (spec.month_first 9999 12) resource_id bookings selected_date today now
  = None.
Proof.
  assert (calendar.monthdatescalendar 0 (datetime.year (spec.month_first 9999 12))
            (datetime.month (spec.month_first 9999 12)) = None) as H
    by (vm_compute; reflexivity).
  unfold _build_calendar. by rewrite H.
Qed.

Lemma build_calendar_Some_inv y m anchor resource_id bookings selected_date today now resp :
  datetime.date_new y m 1 = Some anchor →
  _build_calendar anchor resource_id bookings selected_date today now = Some resp →
  spec.anchor_month y m ∧ anchor = spec.month_first y m ∧ (y, m) ≠ (9999, 12).
Proof.
  intros [Hym ->]%date_new_first_inv Hrun. repeat split; try apply Hym.
  intros [= -> ->]. by rewrite build_calendar_december_9999 in Hrun.
Qed.
End builder.

Section endpoint.
Import bookings spec.

(** The grid of every month but December 9999 ends before [date.max], so
    the day after its last day, which [_daterange] computes before it
    stops, is still a date. *)
Lemma days_before_year_mono y1 y2 :
  y1 ≤ y2 → datetime._days_before_year y1 + 365 * (y2 - y1) ≤ datetime._days_before_year y2.
Proof. intros H. unfold datetime._days_before_year. Z.div_mod_to_equations. lia. Qed.

Lemma grid_within_date_range y m :
  anchor_month y m → (y, m) ≠ (9999, 12) →
  1 ≤ grid_first y m ∧ grid_last y m < datetime._MAXORDINAL.
Proof.
  intros Hym Hmax. destruct (grid_span y m Hym) as (H1 & H2 & H3 & _).
  pose proof (last_day_first y m) as Hl.
  pose proof (days_in_month_bounds y m (proj2 Hym)) as Hn.
  destruct Hym as [Hy Hm]. split.
  - destruct (decide ((y, m) = (1, 1))) as [[= -> ->] | Hne]; [by vm_compute |].
    assert (8 ≤ month_first y m); [| lia].
    unfold month_first, datetime._ymd2ord, datetime._days_before_month.
    pose proof (days_before_year_mono 1 y ltac:(lia)) as Hmono.
    change (datetime._days_before_year 1) with 0 in Hmono.
    destruct (decide (y = 1)) as [-> | ?].
    + each_month Hm; cbn; try done; try lia; repeat case_match; lia.
    + assert (0 ≤ datetime._DAYS_BEFORE_MONTH m) by (each_month Hm; cbn; lia).
      repeat case_match; lia.
  - unfold datetime._MAXORDINAL.
    assert (month_last y m ≤ 3652028); [| lia].
    rewrite Hl. unfold month_first, datetime._ymd2ord, datetime._days_before_month,
      datetime._days_in_month in *.
    destruct (decide (y = 9999)) as [-> | ?].
    + assert (m ≤ 11) by (destruct (decide (m = 12)); [congruence | lia]).
      change (datetime._days_before_year 9999) with 3651694.
      change (datetime._is_leap 9999) with false.
      assert (Hm' : 1 ≤ m ≤ 12) by lia.
      each_month Hm'; cbn; lia.
    + pose proof (days_before_year_mono (y + 1) 9999 ltac:(lia)) as Hmono.
      change (datetime._days_before_year 9999) with 3651694 in Hmono.
      rewrite days_before_year_succ in Hmono.
      each_month Hm; cbn -[datetime._days_before_year datetime._is_leap];
        destruct (datetime._is_leap y); cbn; lia.
Qed.

(** The calendar endpoint: it fetches the bookings of the resource that
    overlap the grid and hands them to the builder; nothing is written. *)
Lemma get_calendar_run (db : Database) y m selected_date resource_id today_anchor today
    now :
  anchor_month y m → (y, m) ≠ (9999, 12) →
  let fetched :=
    filter (λ b, Booking.start_at b ≤ grid_last y m)
      (filter (λ b, grid_first y m ≤ Booking.end_at b)
         (filter (λ b, Booking.resource_id b = resource_id)
            (database.bookings (tables db)))) in
  ∃ resp,
    get_db (get_calendar (Some (y, m)) selected_date resource_id today_anchor today now) db
    = (inr resp, db)
    ∧ _build_calendar (month_first y m) resource_id fetched selected_date today now
      = Some resp.
Proof.
  intros Hym Hmax. cbv zeta.
  destruct (build_calendar_run y m resource_id
              (filter (λ b, Booking.start_at b ≤ grid_last y m)
                 (filter (λ b, grid_first y m ≤ Booking.end_at b)
                    (filter (λ b, Booking.resource_id b = resource_id)
                       (database.bookings (tables db)))))
              selected_date today now Hym Hmax) as (resp & _ & Hrun & _).
  exists resp. split; [| exact Hrun].
  destruct (year_month_first y m Hym) as [Hyear Hmonth].
  destruct (grid_corners y m Hym) as [Hhead Hlast]; cbv zeta in Hhead, Hlast.
  pose proof (days_in_month_bounds y m (proj2 Hym)).
  unfold get_db, get_calendar, _month_anchor.
  replace (datetime.fits_c_int y && datetime.fits_c_int m) with true
    by (unfold datetime.fits_c_int, anchor_month in *; lia).
  rewrite date_new_Some by (done || lia). fold (month_first y m).
  unfold bind at 1. unfold ret at 1. rewrite Hyear, Hmonth.
  rewrite monthdatescalendar_eq by done.
  unfold bind at 1. unfold uncaught at 1, ret at 1.
  unfold datetime.date in *. rewrite Hhead.
  unfold bind at 1. unfold uncaught at 1, ret at 1.
  rewrite Hlast.
  unfold bind at 1. unfold uncaught at 1, ret at 1.
  unfold bind at 1. unfold _fetch_bookings_for_range, bind, get_txn, ret. cbn [txn].
  rewrite Hrun. by destruct db.
Qed.

(** For a day of the grid, counting over the fetched bookings is counting
    over the bookings of the resource in the store. *)
Lemma count_containing_fetched st grid_start grid_end resource_id (l : list Booking.t) d :
  grid_start ≤ d ≤ grid_end →
  count_containing st
    (filter (λ b, Booking.start_at b ≤ grid_end)
       (filter (λ b, grid_start ≤ Booking.end_at b)
          (filter (λ b, Booking.resource_id b = resource_id) l))) d
  = count_containing st (filter (λ b, Booking.resource_id b = resource_id) l) d.
Proof.
  intros Hd. unfold count_containing. rewrite !list_filter_filter. do 2 f_equal.
  apply list_filter_iff. intros b. split.
  - tauto.
  - intros ((Hst & Hs & He) & Hr). repeat split; try done; lia.
Qed.
End endpoint.

(** ** The model on concrete inputs *)

Example monthdatescalendar_2025_06 :
  calendar.monthdatescalendar 0 2025 6
  = Some [seqZ 739397 7; seqZ 739404 7; seqZ 739411 7;
          seqZ 739418 7; seqZ 739425 7; seqZ 739432 7].
Proof. reflexivity. Qed.

Example monthdatescalendar_0001_01 :
  calendar.monthdatescalendar 0 1 1
  = Some [seqZ 1 7; seqZ 8 7; seqZ 15 7; seqZ 22 7; seqZ 29 7].
Proof. reflexivity. Qed.

Example monthdatescalendar_9999_12 : calendar.monthdatescalendar 0 9999 12 = None.
Proof. reflexivity. Qed.

Example ord2ymd_2025_06_10 : datetime._ord2ymd 739412 = (2025, 6, 10).
Proof. reflexivity. Qed.

Example date_max : datetime.date_new 9999 12 31 = Some datetime._MAXORDINAL.
Proof. reflexivity. Qed.

Example sorted_is_stable :
  bookings.sorted (λ p : Z * Z * string, p.1) [(2, 1, "a"); (1, 5, "b"); (2, 1, "c"); (1, 2, "d")]
  = [(1, 2, "d"); (1, 5, "b"); (2, 1, "a"); (2, 1, "c")].
Proof. reflexivity. Qed.

Example scenario_next_available :
  CalendarMonth.next_available_label
    <$> (CalendarResponse.calendar
           <$> bookings._build_calendar 739403 scenario.house
                 (database.bookings (tables scenario.C_created)) None 739412 5000)
  = Some (Some 739415).
Proof. reflexivity. Qed.

(** * The lifecycle handlers, case by case *)

Section handlers.
Import bookings spec.

Lemma ensure_no_conflict_cases resource_id start_at end_at exclude (s : AsyncSession) :
  (_ensure_no_conflict resource_id start_at end_at exclude s
     = (inl (mkHTTPException 409 "Booking overlaps an approved reservation"), s)
   ∧ Exists (conflicts_with resource_id start_at end_at exclude) (bookings (txn s)))
  ∨ (_ensure_no_conflict resource_id start_at end_at exclude s = (inr (), s)
     ∧ Forall (λ b, ¬ conflicts_with resource_id start_at end_at exclude b) (bookings (txn s))).
Proof.
  unfold _ensure_no_conflict, bind, get_txn, scalar_one_or_none. cbn beta iota.
  set (base := filter _ (filter _ (filter _ (filter _ (bookings (txn s)))))).
  set (stmt := match exclude with Some i => filter _ base | None => base end).
  assert (Hstmt : ∀ b, b ∈ stmt ↔ b ∈ bookings (txn s)
                                   ∧ conflicts_with resource_id start_at end_at exclude b).
  { intros b. unfold conflicts_with. subst stmt base.
    destruct exclude as [i|]; rewrite ?list_elem_of_filter; split.
    - intros (? & ? & ? & ? & ? & ?). repeat split; try done. by intros ? [= <-].
    - intros (? & ? & ? & ? & ? & Hx). repeat split; try done. by apply Hx.
    - intros (? & ? & ? & ? & ?). repeat split; done.
    - intros (? & ? & ? & ? & ? & Hx). repeat split; done. }
  clearbody stmt. destruct stmt as [|b stmt]; [right | left]; (split; [done |]).
  - apply Forall_forall. intros b Hb Hc.
    assert (b ∈ []) as Hin by (apply Hstmt; done). by apply elem_of_nil in Hin.
  - apply Exists_exists. exists b. apply Hstmt. left.
Qed.

(** The upsert always returns; it touches neither the committed rows nor
    the bookings. *)
Lemma upsert_customer_run payload (s : AsyncSession) :
  ∃ customer s',
    _upsert_customer payload s = (inr customer, s')
    ∧ bookings (txn s') = bookings (txn s)
    ∧ tables (server s') = tables (server s)
    ∧ bookings_id_seq (server s') = bookings_id_seq (server s).
Proof.
  unfold _upsert_customer, bind, get_txn, scalar_one_or_none. cbn beta iota.
  destruct (head _) as [c|]; cbn; eauto 10.
Qed.

Lemma create_booking_run (db : Database) (payload : BookingCreate.t) :
  let start_at := BookingCreate.start_at payload in
  let end_at := BookingCreate.end_at payload in
  let resource_id := BookingCreate.resource_id payload in
  (end_at < start_at
   ∧ get_db (create_booking payload) db
     = (inl (mkHTTPException 422 "End date must be on or after start date"), db))
  ∨ (start_at ≤ end_at
     ∧ Exists (conflicts_with resource_id start_at end_at None) (bookings (tables db))
     ∧ ∃ db', get_db (create_booking payload) db
              = (inl (mkHTTPException 409 "Booking overlaps an approved reservation"), db')
              ∧ tables db' = tables db
              ∧ bookings_id_seq db' = bookings_id_seq db)
  ∨ (start_at ≤ end_at
     ∧ Forall (λ b, ¬ conflicts_with resource_id start_at end_at None b) (bookings (tables db))
     ∧ ∃ read db' customer_id,
         get_db (create_booking payload) db = (inr read, db')
         ∧ BookingRead.booking read
           = Booking.mk (bookings_id_seq db) customer_id resource_id pending start_at end_at
               (BookingCreate.requested_by payload) None (BookingCreate.notes payload) None
         ∧ bookings (tables db') = bookings (tables db) ++ [BookingRead.booking read]
         ∧ bookings_id_seq db' = bookings_id_seq db + 1).
Proof.
  cbv zeta.
  remember (get_db (create_booking payload) db) as R eqn:HR.
  unfold get_db, create_booking in HR.
  destruct (Z.ltb_spec (BookingCreate.end_at payload) (BookingCreate.start_at payload))
    as [Hlt|Hle].
  { left. split; [done |]. subst R. by destruct db. }
  right.
  destruct (upsert_customer_run (BookingCreate.customer payload) (mkSession db (tables db)))
    as (customer & s1 & Hup & Hb & Ht & Hseq).
  unfold bind at 1 in HR. rewrite Hup in HR.
  destruct (ensure_no_conflict_cases (BookingCreate.resource_id payload)
              (BookingCreate.start_at payload) (BookingCreate.end_at payload) None s1)
    as [[Hrun Hex]|[Hrun Hall]]; unfold bind at 1 in HR; rewrite Hrun in HR;
    cbn in Hb, Ht, Hseq, HR; rewrite Hb in *.
  - left. repeat split; try done. exists (server s1). by rewrite HR.
  - right. repeat split; try done.
    subst R. eexists _, _, (Customer.id customer). split; [reflexivity |].
    cbn. rewrite ?Hseq, ?Hb. done.
Qed.

Lemma get_booking_run booking_id (db : Database) :
  _get_booking booking_id (mkSession db (tables db))
  = match booking_by_id db booking_id with
    | Some b => (inr b, mkSession db (tables db))
    | None => (inl (mkHTTPException 404 "Booking not found"), mkSession db (tables db))
    end.
Proof.
  unfold _get_booking, booking_by_id, bind, get_txn, scalar_one_or_none. cbn.
  by destruct (head _).
Qed.

Lemma approve_booking_run (db : Database) booking_id payload now :
  let R := get_db (approve_booking booking_id payload now) db in
  (booking_by_id db booking_id = None
   ∧ R = (inl (mkHTTPException 404 "Booking not found"), db))
  ∨ ∃ b, booking_by_id db booking_id = Some b
    ∧ ((Booking.status b ≠ pending
        ∧ R = (inl (mkHTTPException 409 "Only pending bookings can be approved"), db))
       ∨ (Booking.status b = pending
          ∧ Exists (conflicts_with (Booking.resource_id b) (Booking.start_at b)
                      (Booking.end_at b) (Some (Booking.id b))) (bookings (tables db))
          ∧ R = (inl (mkHTTPException 409 "Booking overlaps an approved reservation"), db))
       ∨ (Booking.status b = pending
          ∧ Forall (λ b', ¬ conflicts_with (Booking.resource_id b) (Booking.start_at b)
                      (Booking.end_at b) (Some (Booking.id b)) b') (bookings (tables db))
          ∧ ∃ read,
              let b' :=
                Booking.mk (Booking.id b) (Booking.customer_id b) (Booking.resource_id b)
                  approved (Booking.start_at b) (Booking.end_at b) (Booking.requested_by b)
                  (Some (BookingDecision.actor payload))
                  (decision_notes (Booking.notes b) (BookingDecision.note payload))
                  (Some now) in
              BookingRead.booking read = b'
              ∧ R = (inr read,
                     mkDatabase
                       (mkTables (customers (tables db))
                          ((λ x, if decide (Booking.id x = Booking.id b) then b' else x)
                             <$> bookings (tables db)))
                       (customers_id_seq db) (bookings_id_seq db)))).
Proof.
  cbv zeta.
  remember (get_db (approve_booking booking_id payload now) db) as R eqn:HR.
  unfold get_db, approve_booking in HR. unfold bind at 1 in HR.
  rewrite get_booking_run in HR.
  destruct (booking_by_id db booking_id) as [b|]; [right; exists b; split; [done|] | left].
  2: { split; [done |]. by destruct db. }
  destruct (decide (Booking.status b ≠ pending)) as [Hne|Heq].
  { left. split; [done |]. by destruct db. }
  right. apply dec_stable in Heq.
  destruct (ensure_no_conflict_cases (Booking.resource_id b) (Booking.start_at b)
              (Booking.end_at b) (Some (Booking.id b)) (mkSession db (tables db)))
    as [[Hrun Hex]|[Hrun Hall]]; unfold bind at 1 in HR; rewrite Hrun in HR; cbn in HR.
  - left. repeat split; done.
  - right. repeat split; try done. eexists. split; [| exact HR]. done.
Qed.

Lemma decline_booking_run (db : Database) booking_id payload now :
  let R := get_db (decline_booking booking_id payload now) db in
  (booking_by_id db booking_id = None
   ∧ R = (inl (mkHTTPException 404 "Booking not found"), db))
  ∨ ∃ b, booking_by_id db booking_id = Some b
    ∧ ((Booking.status b ≠ pending
        ∧ R = (inl (mkHTTPException 409 "Only pending bookings can be declined"), db))
       ∨ (Booking.status b = pending
          ∧ ∃ read,
              let b' :=
                Booking.mk (Booking.id b) (Booking.customer_id b) (Booking.resource_id b)
                  declined (Booking.start_at b) (Booking.end_at b) (Booking.requested_by b)
                  (Some (BookingDecision.actor payload))
                  (decision_notes (Booking.notes b) (BookingDecision.note payload))
                  (Some now) in
              BookingRead.booking read = b'
              ∧ R = (inr read,
                     mkDatabase
                       (mkTables (customers (tables db))
                          ((λ x, if decide (Booking.id x = Booking.id b) then b' else x)
                             <$> bookings (tables db)))
                       (customers_id_seq db) (bookings_id_seq db)))).
Proof.
  cbv zeta.
  remember (get_db (decline_booking booking_id payload now) db) as R eqn:HR.
  unfold get_db, decline_booking in HR. unfold bind at 1 in HR.
  rewrite get_booking_run in HR.
  destruct (booking_by_id db booking_id) as [b|]; [right; exists b; split; [done|] | left].
  2: { split; [done |]. by destruct db. }
  destruct (decide (Booking.status b ≠ pending)) as [Hne|Heq].
  { left. split; [done |]. by destruct db. }
  right. apply dec_stable in Heq. cbn in HR.
  split; [done |]. eexists. split; [| exact HR]. done.
Qed.
End handlers.

(** * The invariant of reachable stores *)

Section invariant.
Import bookings spec.

Lemma booking_by_id_Some db i b :
  booking_by_id db i = Some b → b ∈ bookings (tables db) ∧ Booking.id b = i.
Proof.
  unfold booking_by_id. intros H%head_Some_elem_of.
  apply list_elem_of_filter in H. tauto.
Qed.

Lemma store_inv_empty : store_inv database.empty.
Proof.
  split; cbn; intros *.
  - by intros ?%elem_of_nil.
  - by rewrite lookup_nil.
  - by rewrite lookup_nil.
  - by intros ?%elem_of_nil.
Qed.

(** Only the rows of the bookings table and its sequence matter. *)
Lemma store_inv_same_bookings db db' :
  bookings (tables db') = bookings (tables db) →
  bookings_id_seq db' = bookings_id_seq db →
  store_inv db → store_inv db'.
Proof.
  intros Hb Hs [H1 H2 H3 H4]. split; rewrite ?Hb, ?Hs; done.
Qed.

Lemma store_inv_insert db db' b :
  bookings (tables db') = bookings (tables db) ++ [b] →
  bookings_id_seq db' = bookings_id_seq db + 1 →
  Booking.id b = bookings_id_seq db →
  Booking.status b = pending →
  Booking.start_at b ≤ Booking.end_at b →
  store_inv db → store_inv db'.
Proof.
  intros Hb Hs Hid Hst Hord [H1 H2 H3 H4].
  split; rewrite ?Hb, ?Hs.
  - intros x [Hx | ->%list_elem_of_singleton]%elem_of_app; [apply H1 in Hx |]; lia.
  - intros i j b1 b2 [Hi | [Hli [Hi0 <-]%list_lookup_singleton_Some]]%lookup_app_Some
                     [Hj | [Hlj [Hj0 <-]%list_lookup_singleton_Some]]%lookup_app_Some Hne.
    + by eapply H2.
    + apply list_elem_of_lookup_2, H1 in Hi. lia.
    + apply list_elem_of_lookup_2, H1 in Hj. lia.
    + lia.
  - intros i j b1 b2 [Hi | [Hli [Hi0 <-]%list_lookup_singleton_Some]]%lookup_app_Some
                     [Hj | [Hlj [Hj0 <-]%list_lookup_singleton_Some]]%lookup_app_Some Hne;
      try congruence.
    by eapply H3.
  - intros x [Hx | ->%list_elem_of_singleton]%elem_of_app; [by apply H4 | done].
Qed.

Lemma store_inv_update db b b' custs cseq :
  b ∈ bookings (tables db) →
  Booking.id b' = Booking.id b →
  Booking.resource_id b' = Booking.resource_id b →
  Booking.start_at b' = Booking.start_at b →
  Booking.end_at b' = Booking.end_at b →
  (Booking.status b' = approved →
   Forall (λ x, ¬ conflicts_with (Booking.resource_id b) (Booking.start_at b)
                    (Booking.end_at b) (Some (Booking.id b)) x) (bookings (tables db))) →
  store_inv db →
  store_inv (mkDatabase
               (mkTables custs
                  ((λ x, if decide (Booking.id x = Booking.id b) then b' else x)
                     <$> bookings (tables db)))
               cseq (bookings_id_seq db)).
Proof.
  intros Hin Hid Hres Hs He Hfree [H1 H2 H3 H4].
  set (f := λ x, if decide (Booking.id x = Booking.id b) then b' else x).
  assert (Hfid : ∀ x, Booking.id (f x) = Booking.id x).
  { intros x. unfold f. case_decide; congruence. }
  split; cbn.
  - intros y (x & -> & Hx)%list_elem_of_fmap. rewrite Hfid. by apply H1.
  - intros i j y1 y2. rewrite !list_lookup_fmap.
    intros (x1 & Hx1 & ->)%fmap_Some (x2 & Hx2 & ->)%fmap_Some Hne.
    rewrite !Hfid. by eapply H2.
  - intros i j y1 y2. rewrite !list_lookup_fmap.
    intros (x1 & Hx1 & ->)%fmap_Some (x2 & Hx2 & ->)%fmap_Some Hne.
    pose proof (H2 _ _ _ _ Hx1 Hx2 Hne) as Hids.
    pose proof (H3 _ _ _ _ Hx1 Hx2 Hne) as Hold.
    unfold f. repeat case_decide; try congruence; intros Ha1 Ha2 (Hr & Ho1 & Ho2).
    + rewrite Forall_forall in Hfree. apply (Hfree Ha1 x2).
      * by eapply list_elem_of_lookup_2.
      * unfold conflicts_with. repeat split; try congruence; try lia.
    + rewrite Forall_forall in Hfree. apply (Hfree Ha2 x1).
      * by eapply list_elem_of_lookup_2.
      * unfold conflicts_with. repeat split; try congruence; try lia.
    + apply Hold; done.
  - intros y (x & -> & Hx)%list_elem_of_fmap. unfold f. case_decide.
    + rewrite Hs, He. by apply H4.
    + by apply H4.
Qed.

Lemma reachable_store_inv db : reachable db → store_inv db.
Proof.
  induction 1 as [|db r Hreach IH]; [apply store_inv_empty |].
  destruct r as [payload | i payload now | i payload now]; cbn [run].
  - destruct (create_booking_run db payload)
      as [[_ ->] | [(_ & _ & db' & -> & Ht & Hs) | (Hle & _ & read & db' & c & -> & Hb & Hl & Hs)]];
      cbn [snd]; [done | |].
    + eapply store_inv_same_bookings; [by rewrite Ht | done | done].
    + eapply store_inv_insert; [exact Hl | exact Hs | by rewrite Hb | by rewrite Hb | | done].
      by rewrite Hb.
  - destruct (approve_booking_run db i payload now)
      as [[_ ->] | (b & Hb & [[_ ->] | [(_ & _ & ->) | (_ & Hfree & read & _ & ->)]])];
      cbn [snd]; try done.
    apply booking_by_id_Some in Hb as [Hin _]. by apply store_inv_update.
  - destruct (decline_booking_run db i payload now)
      as [[_ ->] | (b & Hb & [[_ ->] | (_ & read & _ & ->)])];
      cbn [snd]; try done.
    apply booking_by_id_Some in Hb as [Hin _]. by apply store_inv_update.
Qed.

Lemma filter_none {A} (P : A → Prop) `{!∀ x, Decision (P x)} (l : list A) :
  Forall (λ x, ¬ P x) l → filter P l = [].
Proof.
  induction 1 as [|x l Hx _ IH]; [done |]. by rewrite filter_cons_False.
Qed.

Lemma filter_at_most_one {A} (P : A → Prop) `{!∀ x, Decision (P x)} (l : list A) :
  (∀ i j x y, l !! i = Some x → l !! j = Some y → i ≠ j → P x → P y → False) →
  (length (filter P l) ≤ 1)%nat.
Proof.
  induction l as [|a l IH]; intros Hpair; [cbn; lia |].
  rewrite filter_cons. destruct (decide (P a)) as [Ha|Ha].
  - rewrite filter_none; [cbn; lia |].
    apply Forall_forall. intros y [k Hk]%list_elem_of_lookup_1 Hy.
    by apply (Hpair 0%nat (S k) a y).
  - apply IH. intros i j x y Hi Hj Hne. apply (Hpair (S i) (S j)); done || lia.
Qed.
End invariant.

Section lifecycle.
Import bookings spec.

(** Claim C1.  In every store reachable from the empty one by create,
    approve and decline requests, at most one approved booking of any
    resource [R] occupies any day [D]: capacity is one per day and resource. *)
Theorem approved_bookings_never_share_a_day (db : Database) (R : string) (D : datetime.date) :
reachable db →
(length (filter (occupies R D) (bookings (tables db))) ≤ 1)%nat.
Proof.
intros [_ Hids Hclash _]%reachable_store_inv.
apply filter_at_most_one.
intros i j x y Hi Hj Hne (Hrx & Hax & Hsx & Hex) (Hry & Hay & Hsy & Hey).
apply (Hclash i j x y); try done.
unfold clash. repeat split; [congruence | lia | lia].
Qed.

Lemma approved_bookings_never_share_a_day_witness :
(length (filter (occupies scenario.house 739413%Z)
           (bookings (tables scenario.C_created))) ≤ 1)%nat.
Proof.
apply (approved_bookings_never_share_a_day scenario.C_created scenario.house 739413).
unfold scenario.C_created, scenario.A_approved, scenario.A_created.
repeat apply reachable_step. apply reachable_empty.
Defined.

(** Claim C3.  The conflict check either raises the 409 error or returns,
    leaving the session as it is; it raises exactly when the bookings table
    holds a booking of the resource whose status is approved, whose end is
    on or after the start date, whose start is on or before the end date,
    and whose id differs from the excluded one when one is given.  Pending,
    declined and cancelled bookings never make it raise. *)
Theorem conflict_check_reports_exactly_approved_overlaps
  (s : AsyncSession) (resourceId : string) (startDate endDate : datetime.date)
  (excludeBookingId : option Z) :
let check := _ensure_no_conflict resourceId startDate endDate excludeBookingId s in
(check = (inl (mkHTTPException 409 "Booking overlaps an approved reservation"), s)
 ∨ check = (inr (), s))
∧ (check = (inl (mkHTTPException 409 "Booking overlaps an approved reservation"), s)
   ↔ ∃ b, b ∈ bookings (txn s)
        ∧ Booking.resource_id b = resourceId
        ∧ Booking.status b = approved
        ∧ startDate ≤ Booking.end_at b
        ∧ Booking.start_at b ≤ endDate
        ∧ ∀ i, excludeBookingId = Some i → Booking.id b ≠ i)
∧ (Forall (λ b, Booking.status b = pending ∨ Booking.status b = declined
                ∨ Booking.status b = cancelled) (bookings (txn s))
   → check = (inr (), s)).
Proof.
cbv zeta.
destruct (ensure_no_conflict_cases resourceId startDate endDate excludeBookingId s)
  as [[-> Hex] | [-> Hall]].
- split; [by left |]. split.
  + split; [intros _ | done]. apply Exists_exists in Hex as (b & Hb & Hc). by exists b.
  + intros Hst. exfalso. apply Exists_exists in Hex as (b & Hb & Hc).
    rewrite Forall_forall in Hst. destruct (Hst b Hb) as [H|[H|H]], Hc as (_ & Ha & _);
      congruence.
- split; [by right |]. split; [| done].
  split; [done |]. intros (b & Hb & Hc). exfalso.
  rewrite Forall_forall in Hall. by apply (Hall b Hb).
Qed.


Lemma conflict_check_reports_exactly_approved_overlaps_witness :
  let s := mkSession scenario.A_approved (tables scenario.A_approved) in
  _ensure_no_conflict scenario.house 739413 739413 None s
  = (inl (mkHTTPException 409 "Booking overlaps an approved reservation"), s)
  ∧ _ensure_no_conflict scenario.house 739413 739413 None
      (mkSession scenario.A_created (tables scenario.A_created))
    = (inr (), mkSession scenario.A_created (tables scenario.A_created)).
Proof.
  split.
  - apply (proj1 (proj2 (conflict_check_reports_exactly_approved_overlaps
                           (mkSession scenario.A_approved (tables scenario.A_approved))
                           scenario.house 739413 739413 None))).
    exists scenario.booking_A. split; [left |].
    vm_compute. repeat split; congruence.
  - apply (proj2 (proj2 (conflict_check_reports_exactly_approved_overlaps
                           (mkSession scenario.A_created (tables scenario.A_created))
                           scenario.house 739413 739413 None))).
    apply Forall_forall. intros b Hb.
    assert (database.bookings (tables scenario.A_created)
            = [Booking.mk 1 1 scenario.house pending 739412 739414 "Alice" None None None])
      as Hl by reflexivity.
    cbn [txn] in Hb. rewrite Hl in Hb. apply list_elem_of_singleton in Hb as ->. by left.
Defined.

(** Claim C2, as stated, fails.  Once booking A (2025-06-10 to 2025-06-12)
    is approved, the create request for 2025-06-11 on the same resource is
    answered with the 409 conflict error and no booking row is added. *)
Lemma create_over_approved_day_is_rejected :
(∃ b, b ∈ bookings (tables scenario.A_approved) ∧ occupies scenario.house 739413 b)
∧ BookingCreate.resource_id scenario.request_B = scenario.house
∧ BookingCreate.start_at scenario.request_B ≤ 739413 ≤ BookingCreate.end_at scenario.request_B
∧ (run (Create scenario.request_B) scenario.A_approved).1
  = inl (mkHTTPException 409 "Booking overlaps an approved reservation")
∧ bookings (tables (run (Create scenario.request_B) scenario.A_approved).2)
  = bookings (tables scenario.A_approved)
∧ ¬ ∃ read db', run (Create scenario.request_B) scenario.A_approved = (inr read, db').
Proof.
split; [| split; [| split; [| split; [| split]]]].
- eexists. split; [left |]. vm_compute. repeat split; congruence.
- reflexivity.
- vm_compute. split; congruence.
- reflexivity.
- reflexivity.
- intros (read & db' & H). vm_compute in H. congruence.
Qed.

(** Claim C2, amended.  Whenever an approved booking of a resource
    occupies a day of the requested range, a create request for that
    resource is answered with the conflict error and the rows are left as
    they were; in a reachable store this is the only case in which a
    create request is answered with a conflict error, so that bookings of
    any other status never block a creation; and a creation that returns
    a booking has appended it in pending status, with the resource and the
    dates of the request, over a range that no approved booking of the
    resource overlaps. *)
Theorem create_is_refused_exactly_over_approved_days
  (db : Database) (payload : BookingCreate.t) :
(∀ b D,
   b ∈ bookings (tables db) →
   occupies (BookingCreate.resource_id payload) D b →
   BookingCreate.start_at payload ≤ D ≤ BookingCreate.end_at payload →
   ∃ db', run (Create payload) db
          = (inl (mkHTTPException 409 "Booking overlaps an approved reservation"), db')
          ∧ tables db' = tables db)
∧ (reachable db →
   ∀ e db',
     run (Create payload) db = (inl e, db') → ConflictError e →
     ∃ b D,
       b ∈ bookings (tables db)
       ∧ occupies (BookingCreate.resource_id payload) D b
       ∧ BookingCreate.start_at payload ≤ D ≤ BookingCreate.end_at payload)
∧ (∀ read db',
     run (Create payload) db = (inr read, db') →
     Booking.status (BookingRead.booking read) = pending
     ∧ Booking.resource_id (BookingRead.booking read) = BookingCreate.resource_id payload
     ∧ Booking.start_at (BookingRead.booking read) = BookingCreate.start_at payload
     ∧ Booking.end_at (BookingRead.booking read) = BookingCreate.end_at payload
     ∧ bookings (tables db') = bookings (tables db) ++ [BookingRead.booking read]
     ∧ ∀ b D,
         b ∈ bookings (tables db) →
         occupies (BookingCreate.resource_id payload) D b →
         ¬ BookingCreate.start_at payload ≤ D ≤ BookingCreate.end_at payload).
Proof.
cbn [run].
destruct (create_booking_run db payload)
  as [[Hlt ->] | [(Hle & Hex & db1 & -> & Ht & _) | (Hle & Hall & read1 & db1 & c & -> & Hb & Hl & _)]].
- split; [| split].
  + intros b D _ _ HD. lia.
  + intros _ e db' [= <- <-] He. cbn in He. lia.
  + intros read db' H. discriminate H.
- split; [by eauto | split].
  + intros Hreach e db' _ _.
    apply Exists_exists in Hex as (b & Hin & Hr & Ha & Hs & He & _).
    pose proof (inv_ordered db (reachable_store_inv db Hreach) b Hin) as Hord.
    exists b, (Z.max (BookingCreate.start_at payload) (Booking.start_at b)).
    split; [done |]. unfold occupies. repeat split; try done; lia.
  + intros read db' H. discriminate H.
- rewrite Forall_forall in Hall.
  assert (∀ b D, b ∈ bookings (tables db) →
                 occupies (BookingCreate.resource_id payload) D b →
                 ¬ BookingCreate.start_at payload ≤ D ≤ BookingCreate.end_at payload)
    as Hfree.
  { intros b D Hin (Hr & Ha & Hs & He) HD. apply (Hall b Hin).
    unfold conflicts_with. repeat split; try done; lia. }
  split; [| split].
  + intros b D Hin Hocc HD. by destruct (Hfree b D Hin Hocc).
  + intros _ e db' H. discriminate H.
  + intros read db' [= <- <-]. rewrite Hb in *. by cbn.
Qed.

Lemma create_is_refused_exactly_over_approved_days_witness :
∃ db', run (Create scenario.request_B) scenario.A_approved
       = (inl (mkHTTPException 409 "Booking overlaps an approved reservation"), db')
       ∧ tables db' = tables scenario.A_approved.
Proof.
refine (proj1 (create_is_refused_exactly_over_approved_days
                 scenario.A_approved scenario.request_B)
          (Booking.mk 1 1 scenario.house approved 739412 739414 "Alice" (Some "Owner")
             (Some "fine") (Some 1000)) 739413 _ _ _).
- vm_compute. left.
- vm_compute. repeat split; congruence.
- vm_compute. split; congruence.
Defined.

(** Claim C4.  Whenever create, approve or decline fails with a conflict
    error (status 409), the committed rows, bookings and customers alike,
    are exactly those before the call: the customer upsert of a rejected
    create is discarded with the session. *)
Theorem conflict_error_leaves_rows_unchanged (db db' : Database) (r : Request)
  (e : HTTPException) :
run r db = (inl e, db') → ConflictError e → tables db' = tables db.
Proof.
intros Hrun He. destruct r as [payload | i payload now | i payload now]; cbn [run] in Hrun.
- destruct (create_booking_run db payload)
    as [[_ H] | [(_ & _ & db1 & H & Ht & _) | (_ & _ & read & db1 & c & H & _)]];
    rewrite H in Hrun; by simplify_eq.
- destruct (approve_booking_run db i payload now)
    as [[_ H] | (b & Hb & [[_ H] | [(_ & _ & H) | (_ & _ & read & _ & H)]])];
    rewrite H in Hrun; by simplify_eq.
- destruct (decline_booking_run db i payload now)
    as [[_ H] | (b & Hb & [[_ H] | (_ & read & _ & H)])];
    rewrite H in Hrun; by simplify_eq.
Qed.

Lemma conflict_error_leaves_rows_unchanged_witness :
tables (run (Create scenario.request_B) scenario.A_approved).2 = tables scenario.A_approved
∧ customers_id_seq (run (Create scenario.request_B) scenario.A_approved).2
  = customers_id_seq scenario.A_approved + 1.
Proof.
split.
- apply (conflict_error_leaves_rows_unchanged scenario.A_approved _
           (Create scenario.request_B)
           (mkHTTPException 409 "Booking overlaps an approved reservation")).
  + vm_compute. reflexivity.
  + reflexivity.
- reflexivity.
Defined.

(** Claim C5.  For a booking whose status is not pending, approve and
    decline both fail with a conflict error and leave the store as it is. *)
Theorem decision_on_non_pending_is_rejected (db : Database) (booking_id : Z) (b : Booking.t)
  (payload : BookingDecision.t) (now : datetime.datetime) :
booking_by_id db booking_id = Some b →
Booking.status b ≠ pending →
run (Approve booking_id payload now) db
= (inl (mkHTTPException 409 "Only pending bookings can be approved"), db)
∧ run (Decline booking_id payload now) db
  = (inl (mkHTTPException 409 "Only pending bookings can be declined"), db)
∧ ConflictError (mkHTTPException 409 "Only pending bookings can be approved")
∧ ConflictError (mkHTTPException 409 "Only pending bookings can be declined").
Proof.
intros Hb Hst. cbn [run]. repeat split.
- destruct (approve_booking_run db booking_id payload now)
    as [[H _] | (b' & Hb' & [[_ H] | [(Hp & _) | (Hp & _)]])]; congruence.
- destruct (decline_booking_run db booking_id payload now)
    as [[H _] | (b' & Hb' & [[_ H] | (Hp & _)])]; congruence.
Qed.

Lemma decision_on_non_pending_is_rejected_witness :
run (Approve 1 scenario.owner 2000) scenario.A_approved
= (inl (mkHTTPException 409 "Only pending bookings can be approved"), scenario.A_approved)
∧ run (Decline 1 scenario.owner 2000) scenario.A_approved
  = (inl (mkHTTPException 409 "Only pending bookings can be declined"), scenario.A_approved).
Proof.
pose proof (decision_on_non_pending_is_rejected scenario.A_approved 1
              (Booking.mk 1 1 scenario.house approved 739412 739414 "Alice" (Some "Owner")
                 (Some "fine") (Some 1000)) scenario.owner 2000) as H.
destruct H as (H1 & H2 & _).
- reflexivity.
- discriminate.
- split; assumption.
Defined.

(** Claim C6.  A create request whose start date is after its end date
    fails with the validation error (status 422) and leaves the store as it
    is; hence every booking of a reachable store has start <= end. *)
Theorem backwards_range_is_rejected_before_persistence :
(∀ (db : Database) (payload : BookingCreate.t),
   BookingCreate.end_at payload < BookingCreate.start_at payload →
   run (Create payload) db
   = (inl (mkHTTPException 422 "End date must be on or after start date"), db)
   ∧ ValidationError (mkHTTPException 422 "End date must be on or after start date"))
∧ (∀ db : Database,
     reachable db →
     ∀ b, b ∈ bookings (tables db) → Booking.start_at b ≤ Booking.end_at b).
Proof.
split.
- intros db payload Hlt. split; [| done]. cbn [run].
  destruct (create_booking_run db payload) as [[_ H] | [(? & _) | (? & _)]]; [done | lia | lia].
- intros db [_ _ _ H]%reachable_store_inv. exact H.
Qed.

Lemma backwards_range_is_rejected_before_persistence_witness :
run (Create scenario.request_backwards) scenario.A_approved
= (inl (mkHTTPException 422 "End date must be on or after start date"), scenario.A_approved)
∧ ∀ b, b ∈ bookings (tables scenario.C_created) → Booking.start_at b ≤ Booking.end_at b.
Proof.
split.
- apply (proj1 backwards_range_is_rejected_before_persistence).
  vm_compute. reflexivity.
- apply (proj2 backwards_range_is_rejected_before_persistence).
  unfold scenario.C_created, scenario.A_approved, scenario.A_created.
  repeat apply reachable_step. apply reachable_empty.
Defined.

Lemma decision_notes_recorded old_notes note :
note ≠ EmptyString →
note_recorded old_notes note (decision_notes old_notes (Some note)).
Proof.
intros Hn. destruct note as [|c note]; [done |].
split.
- intros old -> Hold. by destruct old.
- by intros [-> | ->].
Qed.

Lemma booking_by_id_update db custs cseq bseq (f : Booking.t → Booking.t) i :
(∀ x, Booking.id (f x) = Booking.id x) →
booking_by_id (mkDatabase (mkTables custs (f <$> bookings (tables db))) cseq bseq) i
= f <$> booking_by_id db i.
Proof.
intros Hf. unfold booking_by_id. cbn.
induction (bookings (tables db)) as [|x l IH]; [done |].
rewrite fmap_cons, !filter_cons, Hf.
destruct (decide (Booking.id x = i)); [done | exact IH].
Qed.

(** Claim C10.  A non-empty decision note given to approve or decline is
    recorded after the old notes, a newline and the text "Decision: " when
    the booking had non-empty notes, and verbatim, without that prefix,
    when the booking's notes were empty or absent. *)
Theorem decision_note_format_depends_on_prior_notes (db : Database) (booking_id : Z)
  (b : Booking.t) (payload : BookingDecision.t) (now : datetime.datetime) (note : string) :
booking_by_id db booking_id = Some b →
Booking.status b = pending →
BookingDecision.note payload = Some note →
note ≠ EmptyString →
((∀ x, x ∈ bookings (tables db) →
       ¬ conflicts_with (Booking.resource_id b) (Booking.start_at b) (Booking.end_at b)
           (Some (Booking.id b)) x) →
 ∃ read db',
   run (Approve booking_id payload now) db = (inr read, db')
   ∧ note_recorded (Booking.notes b) note (Booking.notes (BookingRead.booking read))
   ∧ booking_by_id db' booking_id = Some (BookingRead.booking read))
∧ (∃ read db',
     run (Decline booking_id payload now) db = (inr read, db')
     ∧ note_recorded (Booking.notes b) note (Booking.notes (BookingRead.booking read))
     ∧ booking_by_id db' booking_id = Some (BookingRead.booking read)).
Proof.
intros Hb Hst Hnote Hne. cbn [run]. split.
- intros Hfree.
  destruct (approve_booking_run db booking_id payload now)
    as [[H _] | (b' & Hb' & [[Hp _] | [(_ & Hex & _) | (_ & _ & read & Hread & ->)]])];
    try congruence.
  + exfalso. apply Exists_exists in Hex as (x & Hx & Hc).
    replace b' with b in * by congruence. by apply (Hfree x).
  + replace b' with b in * by congruence. eexists _, _. split; [reflexivity |].
    rewrite Hread. cbn [Booking.notes]. rewrite Hnote. split.
    * by apply decision_notes_recorded.
    * rewrite booking_by_id_update by (intros; case_decide; cbn; congruence).
      rewrite Hb. cbn. by rewrite decide_True.
- destruct (decline_booking_run db booking_id payload now)
    as [[H _] | (b' & Hb' & [[Hp _] | (_ & read & Hread & ->)])];
    try congruence.
  replace b' with b in * by congruence. eexists _, _. split; [reflexivity |].
  rewrite Hread. cbn [Booking.notes]. rewrite Hnote. split.
  + by apply decision_notes_recorded.
  + rewrite booking_by_id_update by (intros; case_decide; cbn; congruence).
    rewrite Hb. cbn. by rewrite decide_True.
Qed.

Lemma decision_note_format_depends_on_prior_notes_witness :
(∃ read db',
   run (Approve 2 scenario.owner 3000) scenario.C_created = (inr read, db')
   ∧ Booking.notes (BookingRead.booking read) = Some "two nights
Decision: fine")
∧ (∃ read db',
     run (Decline 1 scenario.owner 3000) scenario.A_created = (inr read, db')
     ∧ Booking.notes (BookingRead.booking read) = Some "fine").
Proof.
split.
- destruct (proj1 (decision_note_format_depends_on_prior_notes scenario.C_created 2
                     scenario.booking_C scenario.owner 3000 "fine"
                     eq_refl eq_refl eq_refl ltac:(discriminate)))
    as (read & db' & Hrun & [Hold _] & _).
  + intros x Hx (_ & _ & Hs & _ & Hid).
    assert (bookings (tables scenario.C_created) = [scenario.booking_A; scenario.booking_C])
      as Hl by reflexivity.
    rewrite Hl in Hx. apply elem_of_cons in Hx as [-> | Hx].
    * vm_compute in Hs. by apply Hs.
    * apply list_elem_of_singleton in Hx as ->. by apply (Hid 2).
  + exists read, db'. split; [exact Hrun |]. apply (Hold "two nights"); [reflexivity | discriminate].
- destruct (proj2 (decision_note_format_depends_on_prior_notes scenario.A_created 1
                     (Booking.mk 1 1 scenario.house pending 739412 739414 "Alice" None None None)
                     scenario.owner 3000 "fine"
                     eq_refl eq_refl eq_refl ltac:(discriminate)))
    as (read & db' & Hrun & [_ Hnone] & _).
  exists read, db'. split; [exact Hrun |]. apply Hnone. by left.
Defined.
End lifecycle.

Section calendar_claims.
Import bookings spec.

Lemma grid_of_weeks anchor today by_day (weeks_dates : list (list Z)) resp :
  CalendarMonth.weeks (CalendarResponse.calendar resp)
  = (λ week : list Z, calendar_day anchor today by_day <$> week) <$> weeks_dates →
  grid_of resp = weeks_dates.
Proof.
  intros Hw. unfold grid_of. rewrite Hw, <- list_fmap_compose.
  rewrite <- (list_fmap_id weeks_dates) at 2. apply list_fmap_ext. intros _ week _. cbn.
  rewrite <- list_fmap_compose. rewrite <- (list_fmap_id week) at 2.
  by apply list_fmap_ext.
Qed.

(** Claim C7, as stated, fails for the anchor month December 9999: the
    anchor date exists, but the builder raises instead of producing a grid,
    because the days that would complete the last week lie in year 10000. *)
Lemma december_9999_has_no_grid :
  datetime.date_new 9999 12 1 = Some 3652029
  ∧ ∀ resource_id bookings selected_date today now,
      _build_calendar 3652029 resource_id bookings selected_date today now = None.
Proof.
  split; [reflexivity |]. intros.
  assert (calendar.monthdatescalendar 0 (datetime.year 3652029) (datetime.month 3652029)
          = None) as H by (vm_compute; reflexivity).
  unfold _build_calendar. by rewrite H.
Qed.

(** Claim C7, amended.  For every anchor month other than December 9999
    the builder produces a grid of rows of exactly seven consecutive dates,
    each row continuing the one before, from the Monday on or before the
    1st of the month to the Sunday on or after its last day, and every day
    of the month is in it; for December 9999 the builder produces nothing. *)
Theorem month_grid_is_whole_weeks_around_the_month
    (y m : Z) (anchor : datetime.date) (resource_id : string) (bookings : list Booking.t)
    (selected_date : option datetime.date) (today : datetime.date)
    (now : datetime.datetime) :
  datetime.date_new y m 1 = Some anchor →
  let grid_start := grid_first y m in
  let grid_end := grid_last y m in
  let built := _build_calendar anchor resource_id bookings selected_date today now in
  ((y, m) = (9999, 12) → built = None)
  ∧ ((y, m) ≠ (9999, 12) →
     anchor = month_first y m
     ∧ datetime.date_new y m (calendar._monthlen y m) = Some (month_last y m)
     ∧ ∃ resp,
         built = Some resp
         ∧ (∀ (i : nat) row, grid_of resp !! i = Some row →
                             row = seqZ (grid_start + 7 * Z.of_nat i) 7)
         ∧ Forall (λ row, length row = 7%nat) (grid_of resp)
         ∧ concat (grid_of resp) = seqZ grid_start (grid_end + 1 - grid_start)
         ∧ head (grid_of resp) ≫= head = Some grid_start
         ∧ last (grid_of resp) ≫= last = Some grid_end
         ∧ datetime.weekday grid_start = 0
         ∧ grid_start ≤ month_first y m < grid_start + 7
         ∧ datetime.weekday grid_end = 6
         ∧ grid_end - 7 < month_last y m ≤ grid_end
         ∧ ∀ d, month_first y m ≤ d ≤ month_last y m → d ∈ concat (grid_of resp)).
Proof.
  intros [Hym ->]%date_new_first_inv. cbv zeta. split.
  { intros [= -> ->]. apply build_calendar_december_9999. }
  intros Hmax.
  pose proof (days_in_month_bounds y m (proj2 Hym)) as Hn.
  split; [done |].
  split; [rewrite monthlen_days_in_month by apply Hym; apply date_new_Some; done || lia |].
  destruct (build_calendar_run y m resource_id bookings selected_date today now Hym Hmax)
    as (resp & selected & Hrun & Hweeks & _).
  exists resp. split; [done |].
  apply grid_of_weeks in Hweeks. rewrite Hweeks.
  destruct (grid_span y m Hym) as (H1 & H2 & H3 & H4 & H5 & H6).
  destruct (grid_corners y m Hym) as [Hhead Hlast].
  repeat split; try done; try lia.
  - intros i row. rewrite list_lookup_fmap.
    intros (j & [-> _]%lookup_seqZ & ->)%fmap_Some. f_equal; lia.
  - apply Forall_fmap, Forall_forall. intros j _. cbn. by rewrite length_seqZ.
  - apply grid_concat, Hym.
  - intros d Hd. rewrite grid_concat by done. apply elem_of_seqZ. lia.
Qed.

Lemma month_grid_is_whole_weeks_around_the_month_witness :
  ∃ resp,
    _build_calendar 739403 scenario.house
      (database.bookings (tables scenario.C_created)) None 739412 5000 = Some resp
    ∧ concat (grid_of resp) = seqZ (grid_first 2025 6) (grid_last 2025 6 + 1 - grid_first 2025 6)
    ∧ head (grid_of resp) ≫= head = Some (grid_first 2025 6)
    ∧ last (grid_of resp) ≫= last = Some (grid_last 2025 6).
Proof.
  destruct (month_grid_is_whole_weeks_around_the_month 2025 6 739403 scenario.house
              (database.bookings (tables scenario.C_created)) None 739412 5000)
    as (_ & H).
  - reflexivity.
  - destruct H as (_ & _ & resp & Hrun & _ & _ & Hconcat & Hhead & Hlast & _).
    + discriminate.
    + exists resp. split; [exact Hrun |]. split; [exact Hconcat |]. split; assumption.
Defined.

Lemma day_detail_counts day (l : list Booking.t) :
  let detail := _build_day_detail day l in
  CalendarDayDetail.iso detail = day
  ∧ CalendarDayDetail.confirmed_count detail = approved_count l
  ∧ CalendarDayDetail.pending_count detail = pending_count l
  ∧ CalendarDayDetail.remaining_slots detail = Z.max 0 (1 - approved_count l)
  ∧ (CalendarDayDetail.summary detail = AllSlotsFilled ↔ 1 ≤ approved_count l).
Proof.
  cbv zeta. unfold _build_day_detail, CAPACITY_PER_DAY. cbn.
  repeat split; try done.
  - destruct (Z.leb_spec 1 (approved_count l)); [done |]. by destruct l.
  - intros H. by rewrite (proj2 (Z.leb_le _ _) H).
Qed.

Lemma get_calendar_day_run (db : Database) date_value resource_id :
  get_db (get_calendar_day date_value resource_id) db
  = (inr (_build_day_detail date_value
            (filter (λ b, Booking.start_at b ≤ date_value ∧ date_value ≤ Booking.end_at b)
               (filter (λ b, Booking.start_at b ≤ date_value)
                  (filter (λ b, date_value ≤ Booking.end_at b)
                     (filter (λ b, Booking.resource_id b = resource_id)
                        (database.bookings (tables db))))))), db).
Proof. by destruct db. Qed.

(** Claim C8.  In every calendar view the builder produces, each grid day
    has its pending count equal to the number of pending bookings whose
    (grid-clipped) span contains it, its remaining slots equal to
    [max 0 (1 - approvedCount)], never negative, and is full exactly when
    [approvedCount >= 1], where [approvedCount] is the number of approved
    bookings whose (grid-clipped) span contains the day; the selected-day
    detail of the view and the result of the day endpoint report their
    confirmed, pending and remaining figures the same way. *)
Theorem day_aggregates_count_the_bookings_on_the_day :
  (∀ (y m : Z) (anchor : datetime.date) (resource_id : string) (bookings : list Booking.t)
     (selected_date : option datetime.date) (today : datetime.date)
     (now : datetime.datetime) (resp : CalendarResponse.t),
     datetime.date_new y m 1 = Some anchor →
     _build_calendar anchor resource_id bookings selected_date today now = Some resp →
     let grid_start := grid_first y m in
     let grid_end := grid_last y m in
     (∀ week cell,
        week ∈ CalendarMonth.weeks (CalendarResponse.calendar resp) → cell ∈ week →
        let d := CalendarDay.iso cell in
        let approvedCount := count_on approved grid_start grid_end bookings d in
        grid_start ≤ d ≤ grid_end
        ∧ approved_count (get_day (foldl (bucket grid_start grid_end) ∅ bookings) d)
          = approvedCount
        ∧ approvedCount = count_containing approved bookings d
        ∧ CalendarDay.pending_count cell = count_on pending grid_start grid_end bookings d
        ∧ CalendarDay.pending_count cell = count_containing pending bookings d
        ∧ CalendarDay.remaining_slots cell = Z.max 0 (1 - approvedCount)
        ∧ 0 ≤ CalendarDay.remaining_slots cell
        ∧ (CalendarDay.is_full cell = true ↔ 1 ≤ approvedCount))
     ∧ (let detail := CalendarResponse.selected_day resp in
        let d := CalendarDayDetail.iso detail in
        let approvedCount := count_on approved grid_start grid_end bookings d in
        grid_start ≤ d ≤ grid_end
        ∧ approvedCount = count_containing approved bookings d
        ∧ CalendarDayDetail.confirmed_count detail = approvedCount
        ∧ CalendarDayDetail.pending_count detail = count_containing pending bookings d
        ∧ CalendarDayDetail.remaining_slots detail = Z.max 0 (1 - approvedCount)
        ∧ 0 ≤ CalendarDayDetail.remaining_slots detail))
  ∧ (∀ (db : Database) (date_value : datetime.date) (resource_id : string),
       ∃ detail,
         get_db (get_calendar_day date_value resource_id) db = (inr detail, db)
         ∧ let on_resource :=
             filter (λ b, Booking.resource_id b = resource_id)
               (database.bookings (tables db)) in
           let approvedCount := count_containing approved on_resource date_value in
           CalendarDayDetail.iso detail = date_value
           ∧ CalendarDayDetail.confirmed_count detail = approvedCount
           ∧ CalendarDayDetail.pending_count detail
             = count_containing pending on_resource date_value
           ∧ CalendarDayDetail.remaining_slots detail = Z.max 0 (1 - approvedCount)
           ∧ 0 ≤ CalendarDayDetail.remaining_slots detail).
Proof.
  split.
  - intros y m anchor resource_id bookings selected_date today now resp0 Hanchor Hrun0.
    cbv zeta.
    destruct (build_calendar_Some_inv _ _ _ _ _ _ _ _ _ Hanchor Hrun0) as (Hym & -> & Hmax).
    destruct (build_calendar_run y m resource_id bookings selected_date today now Hym Hmax)
      as (resp & selected & Hrun & Hweeks & _ & Hsel & Hin).
    assert (resp0 = resp) as -> by congruence.
    split.
    + intros week cell. rewrite Hweeks.
      intros (dates & -> & Hdates)%list_elem_of_fmap (d & -> & Hd)%list_elem_of_fmap.
      apply list_elem_of_fmap in Hdates as (i & -> & [Hi0 Hi]%elem_of_seqZ).
      apply elem_of_seqZ in Hd.
      destruct (nweeks_span y m Hym) as [Hspan _].
      assert (grid_first y m ≤ d ≤ grid_last y m) as Hgrid by lia.
      unfold calendar_day, CAPACITY_PER_DAY. cbn.
      rewrite approved_count_by_day, pending_count_by_day.
      rewrite !count_on_containing by done.
      repeat split; try done; lia.
    + rewrite Hsel.
      destruct (day_detail_counts selected
                  (get_day (foldl (bucket (grid_first y m) (grid_last y m)) ∅ bookings)
                     selected)) as (-> & -> & -> & -> & _).
      rewrite approved_count_by_day, pending_count_by_day.
      rewrite !count_on_containing by done.
      repeat split; try done; lia.
  - intros db date_value resource_id. eexists. split; [apply get_calendar_day_run |].
    cbv zeta.
    match goal with
    | |- context [_build_day_detail ?d ?l] =>
        destruct (day_detail_counts d l) as (-> & -> & -> & -> & _)
    end.
    assert (Hc : ∀ st,
               Z.of_nat (length (filter (λ b, Booking.status b = st)
                 (filter (λ b, Booking.start_at b ≤ date_value ∧ date_value ≤ Booking.end_at b)
                    (filter (λ b, Booking.start_at b ≤ date_value)
                       (filter (λ b, date_value ≤ Booking.end_at b)
                          (filter (λ b, Booking.resource_id b = resource_id)
                             (database.bookings (tables db))))))))
               = count_containing st
                   (filter (λ b, Booking.resource_id b = resource_id)
                      (database.bookings (tables db))) date_value).
    { intros st. unfold count_containing. rewrite !list_filter_filter. do 2 f_equal.
      apply list_filter_iff. intros b. tauto. }
    unfold approved_count, pending_count. rewrite !Hc.
    repeat split; try done; lia.
Qed.

Lemma day_aggregates_count_the_bookings_on_the_day_witness :
  ∃ resp,
    _build_calendar 739403 scenario.house
      (database.bookings (tables scenario.C_created)) (Some 739412) 739412 5000 = Some resp
    ∧ CalendarDayDetail.iso (CalendarResponse.selected_day resp) = 739412
    ∧ CalendarDayDetail.confirmed_count (CalendarResponse.selected_day resp)
      = count_on approved (grid_first 2025 6) (grid_last 2025 6)
          (database.bookings (tables scenario.C_created))
          (CalendarDayDetail.iso (CalendarResponse.selected_day resp))
    ∧ 0 ≤ CalendarDayDetail.remaining_slots (CalendarResponse.selected_day resp).
Proof.
  eexists. split; [vm_compute; reflexivity |]. split; [reflexivity |].
  match goal with
  | |- context [CalendarResponse.selected_day ?r] =>
      destruct (proj1 day_aggregates_count_the_bookings_on_the_day 2025 6 739403
                  scenario.house (database.bookings (tables scenario.C_created))
                  (Some 739412) 739412 5000 r)
        as (_ & _ & _ & Hc & _ & _ & Hr)
  end.
  - reflexivity.
  - vm_compute. reflexivity.
  - split; [exact Hc | exact Hr].
Defined.

(** the first element of a range that satisfies a predicate *)
Lemma head_filter_seqZ_nat (P : Z → Prop) `{!∀ d, Decision (P d)} (a : Z) (k : nat) (d : Z) :
  head (filter P (seqZ a (Z.of_nat k))) = Some d
  ↔ a ≤ d < a + Z.of_nat k ∧ P d ∧ ∀ d', a ≤ d' < d → ¬ P d'.
Proof.
  revert a. induction k as [|k IH]; intros a.
  - cbn. split; [done | lia].
  - rewrite seqZ_cons by lia. rewrite filter_cons.
    replace (Z.pred (Z.of_nat (S k))) with (Z.of_nat k) by lia.
    destruct (decide (P a)) as [Ha | Ha]; cbn [head].
    + split.
      * intros [= <-]. repeat split; try done; lia.
      * intros (Hd & HP & Hmin). f_equal.
        destruct (decide (a = d)) as [| Hne]; [done |].
        exfalso. apply (Hmin a); [lia | done].
    + rewrite IH. split.
      * intros (Hd & HP & Hmin). repeat split; try done; try lia.
        intros d' Hd'. destruct (decide (d' = a)) as [-> |]; [done |].
        apply Hmin. lia.
      * intros (Hd & HP & Hmin).
        assert (d ≠ a) by (by intros ->).
        repeat split; try done; try lia. intros d' Hd'. apply Hmin. lia.
Qed.

Lemma head_filter_seqZ (P : Z → Prop) `{!∀ d, Decision (P d)} (a n : Z) :
  (∀ d, head (filter P (seqZ a n)) = Some d
        ↔ a ≤ d < a + n ∧ P d ∧ ∀ d', a ≤ d' < d → ¬ P d')
  ∧ (head (filter P (seqZ a n)) = None ↔ ∀ d, a ≤ d < a + n → ¬ P d).
Proof.
  assert (Hsome : ∀ d, head (filter P (seqZ a n)) = Some d
                       ↔ a ≤ d < a + n ∧ P d ∧ ∀ d', a ≤ d' < d → ¬ P d').
  { intros d. destruct (decide (0 ≤ n)) as [Hn | Hn].
    - pose proof (head_filter_seqZ_nat P a (Z.to_nat n) d) as Hk.
      rewrite Z2Nat.id in Hk by done. exact Hk.
    - rewrite seqZ_nil by lia. cbn. split; [done | lia]. }
  split; [exact Hsome |].
  destruct (head (filter P (seqZ a n))) as [d0 |] eqn:Hh.
  - split; [done |]. intros Hnone.
    destruct (proj1 (Hsome d0) eq_refl) as (Hd & HP & _). by apply Hnone in HP.
  - split; [intros _ | done]. intros d Hd HP.
    apply head_None in Hh.
    eapply (filter_nil_not_elem_of P); [exact Hh | exact HP |].
    apply elem_of_seqZ. lia.
Qed.

(** Claim C9.  In every calendar view the builder produces, the
    next-available label is the earliest day from [max today gridStart] to
    [gridEnd] whose approved count is below 1, and it is absent exactly
    when that range holds no such day, in particular when today is after
    [gridEnd]. *)
Theorem next_available_is_the_first_free_day
    (y m : Z) (anchor : datetime.date) (resource_id : string) (bookings : list Booking.t)
    (selected_date : option datetime.date) (today : datetime.date)
    (now : datetime.datetime) (resp : CalendarResponse.t) :
  datetime.date_new y m 1 = Some anchor →
  _build_calendar anchor resource_id bookings selected_date today now = Some resp →
  let gridStart := grid_first y m in
  let gridEnd := grid_last y m in
  let approvedCount := count_containing approved bookings in
  let from := Z.max today gridStart in
  let label := CalendarMonth.next_available_label (CalendarResponse.calendar resp) in
  head (grid_of resp) ≫= head = Some gridStart
  ∧ last (grid_of resp) ≫= last = Some gridEnd
  ∧ (∀ d, label = Some d
          ↔ from ≤ d ≤ gridEnd ∧ approvedCount d < 1
            ∧ ∀ d', from ≤ d' < d → ¬ approvedCount d' < 1)
  ∧ (label = None ↔ ∀ d, from ≤ d ≤ gridEnd → ¬ approvedCount d < 1)
  ∧ (gridEnd < today → label = None).
Proof.
  intros Hanchor Hrun0. cbv zeta.
  destruct (build_calendar_Some_inv _ _ _ _ _ _ _ _ _ Hanchor Hrun0) as (Hym & -> & Hmax).
  destruct (build_calendar_run y m resource_id bookings selected_date today now Hym Hmax)
    as (resp' & selected & Hrun & Hweeks & Hnext & _).
  assert (resp = resp') as -> by congruence.
  apply grid_of_weeks in Hweeks. rewrite Hweeks.
  destruct (grid_corners y m Hym) as [Hhead Hlast].
  split; [exact Hhead |]. split; [exact Hlast |].
  rewrite Hnext, daterange_seqZ. unfold CAPACITY_PER_DAY.
  set (lo := Z.max today (grid_first y m)). set (hi := grid_last y m).
  set (P := λ d, approved_count
                   (get_day (foldl (bucket (grid_first y m) hi) ∅ bookings) d) < 1).
  destruct (head_filter_seqZ P lo (hi - lo + 1)) as [Hsome Hnone].
  assert (HP : ∀ d, lo ≤ d ≤ hi → (P d ↔ count_containing approved bookings d < 1)).
  { intros d Hd. unfold P. rewrite approved_count_by_day.
    rewrite count_on_containing by (unfold lo, hi in *; lia). done. }
  assert (Hnone' : head (filter P (seqZ lo (hi - lo + 1))) = None
                   ↔ ∀ d, lo ≤ d ≤ hi → ¬ count_containing approved bookings d < 1).
  { rewrite Hnone. split; intros H d Hd.
    - rewrite <- HP by done. apply H. lia.
    - rewrite HP by lia. apply H. lia. }
  split; [| split; [exact Hnone' |]].
  - intros d. rewrite Hsome. split.
    + intros (Hd & Hfree & Hmin). split; [lia |]. split; [apply HP; [lia | done] |].
      intros d' Hd'. rewrite <- HP by lia. by apply Hmin.
    + intros (Hd & Hfree & Hmin). split; [lia |]. split; [apply HP; [lia | done] |].
      intros d' Hd'. rewrite HP by lia. apply Hmin. lia.
  - intros Hlate. apply Hnone'. intros d Hd. unfold lo, hi in Hd. lia.
Qed.

Lemma next_available_is_the_first_free_day_witness :
  ∃ resp,
    _build_calendar 739403 scenario.house
      (database.bookings (tables scenario.C_created)) None 739412 5000 = Some resp
    ∧ CalendarMonth.next_available_label (CalendarResponse.calendar resp) = Some 739415
    ∧ (∀ d, CalendarMonth.next_available_label (CalendarResponse.calendar resp) = Some d
            ↔ Z.max 739412 (grid_first 2025 6) ≤ d ≤ grid_last 2025 6
              ∧ count_containing approved (database.bookings (tables scenario.C_created)) d < 1
              ∧ ∀ d', Z.max 739412 (grid_first 2025 6) ≤ d' < d →
                      ¬ count_containing approved
                          (database.bookings (tables scenario.C_created)) d' < 1).
Proof.
  eexists. split; [vm_compute; reflexivity |]. split; [reflexivity |].
  match goal with
  | |- context [CalendarResponse.calendar ?r] =>
      destruct (next_available_is_the_first_free_day 2025 6 739403 scenario.house
                  (database.bookings (tables scenario.C_created)) None 739412 5000 r)
        as (_ & _ & Hsome & _)
  end.
  - reflexivity.
  - vm_compute. reflexivity.
  - exact Hsome.
Defined.
End calendar_claims.

(** * Sorting by (start date, id) *)

Section sorting.
Import bookings spec spec_more.

Lemma key_le_lex k1 k2 : key_le k1 k2 = true ↔ key_lex k1 k2.
Proof. unfold key_le, key_lex. destruct k1, k2. cbn. lia. Qed.

Lemma key_lex_total k1 k2 : key_le k1 k2 = false → key_lex k2 k1.
Proof. unfold key_le, key_lex. destruct k1, k2. cbn. lia. Qed.

Lemma key_lex_trans k1 k2 k3 : key_lex k1 k2 → key_lex k2 k3 → key_lex k1 k3.
Proof. unfold key_lex. destruct k1, k2, k3. cbn. lia. Qed.

Lemma ascending_cons {A} (key : A → Z * Z) x l :
  ascending key (x :: l) ↔ Forall (λ y, key_lex (key x) (key y)) l ∧ ascending key l.
Proof.
  split.
  - intros Hasc. split.
    + apply Forall_forall. intros y [j Hj]%list_elem_of_lookup_1.
      apply (Hasc 0%nat (S j) x y); [lia | done | done].
    + intros i j a b Hij Hi Hj. apply (Hasc (S i) (S j) a b); [lia | done | done].
  - intros [Hx Hasc] [| i] [| j] a b Hij Hi Hj; try lia; cbn in Hi, Hj.
    + injection Hi as <-. rewrite Forall_forall in Hx. apply Hx.
      by eapply list_elem_of_lookup_2.
    + apply (Hasc i j a b); [lia | done | done].
Qed.

Lemma insert_by_Permutation {A} (key : A → Z * Z) x l : insert_by key x l ≡ₚ x :: l.
Proof.
  induction l as [| y l IH]; [done |]. cbn.
  destruct (key_le (key x) (key y)); [done |]. rewrite IH. apply Permutation_swap.
Qed.

Lemma sorted_Permutation {A} (key : A → Z * Z) l : sorted key l ≡ₚ l.
Proof.
  induction l as [| x l IH]; [done |]. cbn.
  rewrite insert_by_Permutation. by f_equiv.
Qed.

Lemma insert_by_ascending {A} (key : A → Z * Z) x l :
  ascending key l → ascending key (insert_by key x l).
Proof.
  induction l as [| y l IH]; intros Hasc; cbn.
  - intros [| i] [| j] a b Hij Hi Hj; try lia; by destruct j.
  - apply ascending_cons in Hasc as [Hy Hasc].
    destruct (key_le (key x) (key y)) eqn:Hle.
    + apply key_le_lex in Hle. apply ascending_cons. split.
      * constructor; [done |]. eapply Forall_impl; [exact Hy |].
        intros z Hz. by eapply key_lex_trans.
      * by apply ascending_cons.
    + apply key_lex_total in Hle. apply ascending_cons. split; [| by apply IH].
      rewrite insert_by_Permutation. by constructor.
Qed.

Lemma sorted_ascending {A} (key : A → Z * Z) l : ascending key (sorted key l).
Proof.
  induction l as [| x l IH]; cbn.
  - intros i j a b _ Hi. by rewrite lookup_nil in Hi.
  - by apply insert_by_ascending.
Qed.

(** a list already in order is left as it is *)
Lemma sorted_id {A} (key : A → Z * Z) l : ascending key l → sorted key l = l.
Proof.
  induction l as [| x l IH]; [done |]. intros [Hx Hasc]%ascending_cons.
  unfold sorted in *. cbn [foldr]. rewrite IH by done. destruct l as [| y l]; [done |]. cbn.
  apply Forall_cons in Hx as [Hxy _]. apply key_le_lex in Hxy. by rewrite Hxy.
Qed.
End sorting.

(** ** The lifecycle, continued *)

Section lifecycle_more.
Import bookings spec spec_more.

(** Property X1.  Approving or declining an id that the INTEGER key column can
    hold and that no booking of the store carries is answered with 404,
    booking not found, and leaves the store as it was. *)
Theorem decision_on_unknown_id_is_not_found (db : Database) (booking_id : Z)
    (payload : BookingDecision.t) (now : datetime.datetime) :
  int32 booking_id →
  (∀ b, b ∈ database.bookings (tables db) → Booking.id b ≠ booking_id) →
  run (Approve booking_id payload now) db
  = (inl (mkHTTPException 404 "Booking not found"), db)
  ∧ run (Decline booking_id payload now) db
    = (inl (mkHTTPException 404 "Booking not found"), db).
Proof.
  intros _ Hnone. cbn [run].
  assert (booking_by_id db booking_id = None) as Hb.
  { unfold booking_by_id. rewrite filter_none; [done |].
    apply Forall_forall. intros b Hin. by apply Hnone. }
  split.
  - destruct (approve_booking_run db booking_id payload now)
      as [[_ H] | (b & Hb' & _)]; [done | congruence].
  - destruct (decline_booking_run db booking_id payload now)
      as [[_ H] | (b & Hb' & _)]; [done | congruence].
Qed.

Lemma decision_on_unknown_id_is_not_found_witness :
  run (Approve 7 scenario.owner 2000) scenario.C_created
  = (inl (mkHTTPException 404 "Booking not found"), scenario.C_created)
  ∧ run (Decline 7 scenario.owner 2000) scenario.C_created
    = (inl (mkHTTPException 404 "Booking not found"), scenario.C_created).
Proof.
  apply (decision_on_unknown_id_is_not_found scenario.C_created 7 scenario.owner 2000);
    [unfold int32; lia |].
  intros b Hb.
  assert (database.bookings (tables scenario.C_created)
          = [scenario.booking_A; scenario.booking_C]) as Hl by reflexivity.
  rewrite Hl in Hb. apply elem_of_cons in Hb as [-> | Hb]; [discriminate |].
  apply list_elem_of_singleton in Hb as ->. discriminate.
Defined.

(** every request that raises leaves the rows alone *)
Lemma failed_request_rows (db db' : Database) (r : Request) (e : HTTPException) :
  run r db = (inl e, db') → tables db' = tables db ∧ bookings_id_seq db' = bookings_id_seq db.
Proof.
  intros Hrun. destruct r as [payload | i payload now | i payload now]; cbn [run] in Hrun.
  - destruct (create_booking_run db payload)
      as [[_ H] | [(_ & _ & db1 & H & Ht & Hs) | (_ & _ & read & db1 & c & H & _)]];
      rewrite H in Hrun; by simplify_eq.
  - destruct (approve_booking_run db i payload now)
      as [[_ H] | (b & Hb & [[_ H] | [(_ & _ & H) | (_ & _ & read & _ & H)]])];
      rewrite H in Hrun; by simplify_eq.
  - destruct (decline_booking_run db i payload now)
      as [[_ H] | (b & Hb & [[_ H] | (_ & read & _ & H)])];
      rewrite H in Hrun; by simplify_eq.
Qed.

(** In a store that keeps the invariant, the row of a primary key is the
    only one with that key. *)
Lemma booking_by_id_unique db i b k x :
  store_inv db → booking_by_id db i = Some b →
  database.bookings (tables db) !! k = Some x → Booking.id x = Booking.id b → x = b.
Proof.
  intros [_ Hids _ _] Hb Hk Hid.
  apply booking_by_id_Some in Hb as [[j Hj]%list_elem_of_lookup_1 _].
  destruct (decide (k = j)) as [-> | Hne]; [congruence |].
  by destruct (Hids k j x b Hk Hj Hne).
Qed.

Lemma update_is_insert db b b' :
  store_inv db → b ∈ database.bookings (tables db) →
  (∀ k x, database.bookings (tables db) !! k = Some x → Booking.id x = Booking.id b → x = b) →
  ∃ k : nat,
    database.bookings (tables db) !! k = Some b
    ∧ (λ x, if decide (Booking.id x = Booking.id b) then b' else x)
        <$> database.bookings (tables db)
      = <[k := b']> (database.bookings (tables db)).
Proof.
  intros Hinv [k Hk]%list_elem_of_lookup_1 Huniq. exists k. split; [done |].
  apply list_eq. intros j. rewrite list_lookup_fmap.
  destruct (decide (j = k)) as [-> | Hne].
  - rewrite list_lookup_insert_eq by (by eapply lookup_lt_Some).
    rewrite Hk. cbn. by rewrite decide_True.
  - rewrite list_lookup_insert_ne by done.
    destruct (database.bookings (tables db) !! j) as [x |] eqn:Hj; [| done]. cbn.
    destruct (decide (Booking.id x = Booking.id b)) as [Hid | ?]; [| done].
    exfalso. destruct Hinv as [_ Hids _ _]. by destruct (Hids j k x b Hj Hk Hne).
Qed.

Lemma decided_row_position db i b b' :
  store_inv db → booking_by_id db i = Some b →
  ∃ k : nat,
    database.bookings (tables db) !! k = Some b
    ∧ (λ x, if decide (Booking.id x = Booking.id b) then b' else x)
        <$> database.bookings (tables db)
      = <[k := b']> (database.bookings (tables db)).
Proof.
  intros Hinv Hb. destruct (booking_by_id_Some _ _ _ Hb) as [Hin Hid].
  apply update_is_insert; [done | done |].
  intros k x Hk Hx. by eapply booking_by_id_unique.
Qed.

(** Property X2.  In a store the lifecycle requests can reach, a decision that
    succeeds rewrites the one row of the booking it names, in place: that row
    was pending, every other row and the customers table are unchanged, the
    request columns of the row (id, customer, resource, dates, requester) keep
    their values, and the row now carries the decided status, the actor and
    the time of the decision. *)
Theorem decision_rewrites_exactly_its_row (db db' : Database) (booking_id : Z)
    (payload : BookingDecision.t) (now : datetime.datetime) (read : BookingRead.t)
    (decided : BookingStatus) :
  reachable db →
  (decided = approved ∧ run (Approve booking_id payload now) db = (inr read, db')
   ∨ decided = declined ∧ run (Decline booking_id payload now) db = (inr read, db')) →
  ∃ (k : nat) (b : Booking.t),
    database.bookings (tables db) !! k = Some b
    ∧ Booking.id b = booking_id
    ∧ Booking.status b = pending
    ∧ database.bookings (tables db') = <[k := BookingRead.booking read]> (database.bookings (tables db))
    ∧ customers (tables db') = customers (tables db)
    ∧ same_request b (BookingRead.booking read)
    ∧ Booking.status (BookingRead.booking read) = decided
    ∧ Booking.approved_by (BookingRead.booking read) = Some (BookingDecision.actor payload)
    ∧ Booking.approved_at (BookingRead.booking read) = Some now.
Proof.
  intros Hinv%reachable_store_inv [[-> Hrun] | [-> Hrun]]; cbn [run] in Hrun.
  - destruct (approve_booking_run db booking_id payload now)
      as [[_ H] | (b & Hb & [[_ H] | [(_ & _ & H) | (Hp & _ & read' & Hread & H)]])];
      rewrite H in Hrun; try discriminate. injection Hrun as -> <-.
    destruct (booking_by_id_Some _ _ _ Hb) as [Hin Hid].
    destruct (decided_row_position db booking_id b (BookingRead.booking read) Hinv Hb)
      as (k & Hk & Heq).
    exists k, b. rewrite Hread in *. cbn. rewrite <- Heq. by repeat split.
  - destruct (decline_booking_run db booking_id payload now)
      as [[_ H] | (b & Hb & [[_ H] | (Hp & read' & Hread & H)])];
      rewrite H in Hrun; try discriminate. injection Hrun as -> <-.
    destruct (booking_by_id_Some _ _ _ Hb) as [Hin Hid].
    destruct (decided_row_position db booking_id b (BookingRead.booking read) Hinv Hb)
      as (k & Hk & Heq).
    exists k, b. rewrite Hread in *. cbn. rewrite <- Heq. by repeat split.
Qed.

Lemma decision_rewrites_exactly_its_row_witness :
  ∃ (k : nat) (b : Booking.t),
    database.bookings (tables scenario.C_created) !! k = Some b
    ∧ Booking.id b = 2
    ∧ database.bookings (tables (run (Approve 2 scenario.owner 3000) scenario.C_created).2)
      = <[k := Booking.mk 2 2 scenario.house approved 739422 739423 "Bob" (Some "Owner")
                 (Some "two nights
Decision: fine") (Some 3000)]> (database.bookings (tables scenario.C_created)).
Proof.
  destruct (decision_rewrites_exactly_its_row scenario.C_created
              (run (Approve 2 scenario.owner 3000) scenario.C_created).2 2 scenario.owner 3000
              (BookingRead.mk
                 (Booking.mk 2 2 scenario.house approved 739422 739423 "Bob" (Some "Owner")
                    (Some "two nights
Decision: fine") (Some 3000))
                 (Some (Customer.mk 2 "bob@example.com" "Bob")))
              approved)
    as (k & b & Hk & Hid & _ & Hrows & _).
  - unfold scenario.C_created, scenario.A_approved, scenario.A_created.
    repeat apply reachable_step. apply reachable_empty.
  - left. split; reflexivity.
  - exists k, b. split; [exact Hk |]. split; [exact Hid | exact Hrows].
Defined.

(** Property X3.  No request deletes or moves a booking: after any request,
    successful or not, every row of a reachable store is still at its position
    with its request columns unchanged, and a row that was no longer pending
    is unchanged altogether. *)
Theorem bookings_are_never_deleted_and_decided_once (db : Database) (r : Request) :
  reachable db →
  ∀ (k : nat) (b : Booking.t),
    database.bookings (tables db) !! k = Some b →
    ∃ b', database.bookings (tables (run r db).2) !! k = Some b'
          ∧ same_request b b'
          ∧ (Booking.status b ≠ pending → b' = b).
Proof.
  intros Hreach k b Hk.
  destruct (run r db) as [[e | read] db'] eqn:Hrun; cbn [snd].
  { apply failed_request_rows in Hrun as [-> _]. exists b. by repeat split. }
  destruct r as [payload | i payload now | i payload now].
  - cbn [run] in Hrun.
    destruct (create_booking_run db payload)
      as [[_ H] | [(_ & _ & db1 & H & _) | (_ & _ & read' & db1 & c & H & _ & Hl & _)]];
      rewrite H in Hrun; try discriminate. injection Hrun as -> <-.
    exists b. rewrite Hl. split; [by apply lookup_app_l_Some | by repeat split].
  - cbn [run] in Hrun. pose proof (reachable_store_inv db Hreach) as Hinv.
    destruct (approve_booking_run db i payload now)
      as [[_ H] | (b0 & Hb & [[_ H] | [(_ & _ & H) | (Hp & _ & read' & Hread & H)]])];
      rewrite H in Hrun; try discriminate. injection Hrun as -> <-.
    destruct (decided_row_position db i b0 (BookingRead.booking read) Hinv Hb)
      as (j & Hj & Heq).
    rewrite Hread in Heq. cbn [tables database.bookings]. rewrite Heq.
    destruct (decide (k = j)) as [-> | Hne].
    + eexists. rewrite list_lookup_insert_eq by (by eapply lookup_lt_Some).
      replace b0 with b in * by congruence. split; [done |]. split; [done | congruence].
    + exists b. rewrite list_lookup_insert_ne by done. by repeat split.
  - cbn [run] in Hrun. pose proof (reachable_store_inv db Hreach) as Hinv.
    destruct (decline_booking_run db i payload now)
      as [[_ H] | (b0 & Hb & [[_ H] | (Hp & read' & Hread & H)])];
      rewrite H in Hrun; try discriminate. injection Hrun as -> <-.
    destruct (decided_row_position db i b0 (BookingRead.booking read) Hinv Hb)
      as (j & Hj & Heq).
    rewrite Hread in Heq. cbn [tables database.bookings]. rewrite Heq.
    destruct (decide (k = j)) as [-> | Hne].
    + eexists. rewrite list_lookup_insert_eq by (by eapply lookup_lt_Some).
      replace b0 with b in * by congruence. split; [done |]. split; [done | congruence].
    + exists b. rewrite list_lookup_insert_ne by done. by repeat split.
Qed.

Lemma bookings_are_never_deleted_and_decided_once_witness :
  ∃ b', database.bookings (tables (run (Decline 1 scenario.owner 4000) scenario.C_created).2)
          !! 0%nat = Some b'
        ∧ same_request scenario.booking_A b'
        ∧ (Booking.status scenario.booking_A ≠ pending → b' = scenario.booking_A).
Proof.
  apply (bookings_are_never_deleted_and_decided_once scenario.C_created
           (Decline 1 scenario.owner 4000)).
  - unfold scenario.C_created, scenario.A_approved, scenario.A_created.
    repeat apply reachable_step. apply reachable_empty.
  - reflexivity.
Defined.

(** Property X4.  In every reachable store no booking is cancelled; a pending
    booking has neither approver nor approval time, and an approved or
    declined booking has both. *)
Theorem status_and_decision_columns_agree (db : Database) :
  reachable db →
  ∀ b, b ∈ database.bookings (tables db) →
       Booking.status b ≠ cancelled
       ∧ (Booking.status b = pending →
          Booking.approved_by b = None ∧ Booking.approved_at b = None)
       ∧ (Booking.status b ≠ pending →
          is_Some (Booking.approved_by b) ∧ is_Some (Booking.approved_at b)).
Proof.
  induction 1 as [| db r Hreach IH]; [by intros b ?%elem_of_nil |].
  destruct (run r db) as [[e | read] db'] eqn:Hrun; cbn [snd].
  { apply failed_request_rows in Hrun as [-> _]. exact IH. }
  destruct r as [payload | i payload now | i payload now]; cbn [run] in Hrun.
  - destruct (create_booking_run db payload)
      as [[_ H] | [(_ & _ & db1 & H & _) | (_ & _ & read' & db1 & c & H & Hb & Hl & _)]];
      rewrite H in Hrun; try discriminate. injection Hrun as -> <-.
    rewrite Hl. intros b [Hin | ->%list_elem_of_singleton]%elem_of_app; [by apply IH |].
    rewrite Hb. cbn. repeat split; done.
  - destruct (approve_booking_run db i payload now)
      as [[_ H] | (b0 & Hb & [[_ H] | [(_ & _ & H) | (Hp & _ & read' & Hread & H)]])];
      rewrite H in Hrun; try discriminate. injection Hrun as -> <-.
    cbn. intros b (x & -> & Hx)%list_elem_of_fmap.
    case_decide; [| by apply IH]. cbn. repeat split; try done; by eexists.
  - destruct (decline_booking_run db i payload now)
      as [[_ H] | (b0 & Hb & [[_ H] | (Hp & read' & Hread & H)])];
      rewrite H in Hrun; try discriminate. injection Hrun as -> <-.
    cbn. intros b (x & -> & Hx)%list_elem_of_fmap.
    case_decide; [| by apply IH]. cbn. repeat split; try done; by eexists.
Qed.

Lemma status_and_decision_columns_agree_witness :
  (Booking.approved_by scenario.booking_C = None
   ∧ Booking.approved_at scenario.booking_C = None)
  ∧ (is_Some (Booking.approved_by scenario.booking_A)
     ∧ is_Some (Booking.approved_at scenario.booking_A)).
Proof.
  assert (reachable scenario.C_created) as Hreach.
  { unfold scenario.C_created, scenario.A_approved, scenario.A_created.
    repeat apply reachable_step. apply reachable_empty. }
  assert (database.bookings (tables scenario.C_created)
          = [scenario.booking_A; scenario.booking_C]) as Hrows by reflexivity.
  split.
  - apply (status_and_decision_columns_agree scenario.C_created Hreach scenario.booking_C).
    + rewrite Hrows. right. left.
    + reflexivity.
  - apply (status_and_decision_columns_agree scenario.C_created Hreach scenario.booking_A).
    + rewrite Hrows. left.
    + discriminate.
Defined.

(** Property X5.  When two bookings of the store clash (same resource,
    intersecting spans) and the first has just been approved, approving the
    second, still pending, is answered with 409 and changes nothing, while
    declining it succeeds and leaves the first booking approved as it was. *)
Theorem first_approved_wins (db db1 : Database) (i1 i2 : Z) (b1 b2 : Booking.t)
    (p1 p2 : BookingDecision.t) (now1 now2 : datetime.datetime) (read1 : BookingRead.t) :
  booking_by_id db i1 = Some b1 →
  booking_by_id db i2 = Some b2 →
  i1 ≠ i2 →
  Booking.status b2 = pending →
  clash b1 b2 →
  run (Approve i1 p1 now1) db = (inr read1, db1) →
  run (Approve i2 p2 now2) db1
  = (inl (mkHTTPException 409 "Booking overlaps an approved reservation"), db1)
  ∧ ∃ read2 db2,
      run (Decline i2 p2 now2) db1 = (inr read2, db2)
      ∧ Booking.status (BookingRead.booking read2) = declined
      ∧ booking_by_id db2 i2 = Some (BookingRead.booking read2)
      ∧ booking_by_id db2 i1 = Some (BookingRead.booking read1).
Proof.
  intros Hb1 Hb2 Hne Hp2 (Hres & Ho1 & Ho2) Hrun. cbn [run] in *.
  destruct (booking_by_id_Some _ _ _ Hb1) as [Hin1 Hid1].
  destruct (booking_by_id_Some _ _ _ Hb2) as [Hin2 Hid2].
  destruct (approve_booking_run db i1 p1 now1)
    as [[_ H] | (b0 & Hb & [[_ H] | [(_ & _ & H) | (Hp & _ & read' & Hread & H)]])];
    rewrite H in Hrun; try discriminate. injection Hrun as -> <-.
  replace b0 with b1 in * by congruence.
  set (f := λ x, if decide (Booking.id x = Booking.id b1) then _ else x) in *.
  set (db1 := mkDatabase _ _ _).
  assert (Hf : ∀ x, Booking.id (f x) = Booking.id x).
  { intros x. unfold f. case_decide; cbn; congruence. }
  assert (Hby2 : booking_by_id db1 i2 = Some b2).
  { unfold db1. rewrite booking_by_id_update by exact Hf. rewrite Hb2. cbn.
    unfold f. rewrite decide_False by congruence. done. }
  assert (Hby1 : booking_by_id db1 i1 = Some (BookingRead.booking read1)).
  { unfold db1. rewrite booking_by_id_update by exact Hf. rewrite Hb1. cbn.
    unfold f. rewrite decide_True by done. by rewrite Hread. }
  split.
  - destruct (approve_booking_run db1 i2 p2 now2)
      as [[H' _] | (b3 & Hb' & [[Hp' _] | [(_ & _ & H') | (_ & Hfree & _)]])];
      try congruence.
    exfalso. replace b3 with b2 in * by congruence.
    rewrite Forall_forall in Hfree.
    apply (Hfree (BookingRead.booking read1)).
    + by apply booking_by_id_Some in Hby1 as [? _].
    + rewrite Hread. unfold conflicts_with. cbn.
      repeat split; try done; try congruence.
  - destruct (decline_booking_run db1 i2 p2 now2)
      as [[H' _] | (b3 & Hb' & [[Hp' _] | (_ & read2 & Hread2 & H')])];
      try congruence.
    replace b3 with b2 in * by congruence.
    eexists _, _. split; [exact H' |]. rewrite Hread2. split; [done |].
    split.
    + rewrite booking_by_id_update by (intros; case_decide; cbn; congruence).
      rewrite Hby2. cbn. by rewrite decide_True.
    + rewrite booking_by_id_update by (intros; case_decide; cbn; congruence).
      rewrite Hby1. cbn. rewrite decide_False; [done |].
      rewrite Hread. cbn. congruence.
Qed.

Lemma first_approved_wins_witness :
  run (Approve 2 scenario.owner 2000)
    (run (Approve 1 scenario.owner 1000) scenario_more.AB_created).2
  = (inl (mkHTTPException 409 "Booking overlaps an approved reservation"),
     (run (Approve 1 scenario.owner 1000) scenario_more.AB_created).2).
Proof.
  refine (proj1 (first_approved_wins scenario_more.AB_created _ 1 2
                   (Booking.mk 1 1 scenario.house pending 739412 739414 "Alice" None None None)
                   (Booking.mk 2 2 scenario.house pending 739413 739413 "Bob" None
                      (Some "one night") None)
                   scenario.owner scenario.owner 1000 2000
                   (BookingRead.mk scenario.booking_A
                      (Some (Customer.mk 1 "alice@example.com" "Alice")))
                   eq_refl eq_refl _ eq_refl _ eq_refl)).
  - discriminate.
  - vm_compute. repeat split; congruence.
Defined.
End lifecycle_more.

Section numbering.
Import bookings spec spec_more.

Lemma ids_increase_decision db (b b' : Booking.t) :
  ids_increase db → Booking.id b' = Booking.id b →
  ids_increase
    (mkDatabase
       (mkTables (customers (tables db))
          ((λ x, if decide (Booking.id x = Booking.id b) then b' else x)
             <$> database.bookings (tables db)))
       (customers_id_seq db) (bookings_id_seq db)).
Proof.
  intros [Hbelow Hrows] Hid.
  assert (∀ (k : nat) x,
            ((λ x, if decide (Booking.id x = Booking.id b) then b' else x)
               <$> database.bookings (tables db)) !! k = Some x →
            ∃ x0, database.bookings (tables db) !! k = Some x0
                  ∧ Booking.id x = Booking.id x0) as Hsame.
  { intros k x Hk. rewrite list_lookup_fmap in Hk.
    apply fmap_Some in Hk as (x0 & Hk & ->). exists x0. split; [done |].
    destruct (decide (Booking.id x0 = Booking.id b)); congruence. }
  split; cbn.
  - intros x [k Hk]%list_elem_of_lookup_1. apply Hsame in Hk as (x0 & Hk & ->).
    apply Hbelow. by eapply list_elem_of_lookup_2.
  - intros i j b1 b2 Hij Hi Hj.
    apply Hsame in Hi as (x1 & Hi & ->). apply Hsame in Hj as (x2 & Hj & ->).
    by apply (Hrows i j).
Qed.

(** Property X6.  In every reachable store the booking ids are 1 or more and
    grow strictly along the table: the rows stand in the order in which the
    bookings were created and no id is given twice, whatever requests failed
    in between. *)
Theorem booking_ids_grow_in_creation_order (db : Database) :
  reachable db →
  (∀ b, b ∈ database.bookings (tables db) → 1 ≤ Booking.id b)
  ∧ ∀ (i j : nat) b1 b2,
      (i < j)%nat →
      database.bookings (tables db) !! i = Some b1 →
      database.bookings (tables db) !! j = Some b2 →
      Booking.id b1 < Booking.id b2.
Proof.
  intros Hreach.
  assert (1 ≤ bookings_id_seq db ∧ ids_increase db) as (_ & Hbelow & Hrows).
  2:{ split; [| exact Hrows]. intros b Hb. by apply Hbelow. }
  induction Hreach as [| db r Hreach [Hseq IH]].
  { split; [done |]. split; [by intros b ?%elem_of_nil | by intros i j b1 b2 _ ?]. }
  destruct r as [payload | i payload now | i payload now]; cbn [run].
  - destruct (create_booking_run db payload)
      as [[_ ->] | [(_ & _ & db1 & -> & Ht & Hs) | (_ & _ & read & db1 & c & -> & Hb & Hl & Hs)]];
      cbn [snd]; [done | |].
    + destruct IH as [Hbelow Hrows]. unfold ids_increase. rewrite Ht, Hs. done.
    + destruct IH as [Hbelow Hrows]. unfold ids_increase. rewrite Hl, Hs.
      assert (Booking.id (BookingRead.booking read) = bookings_id_seq db) as Hid
        by (by rewrite Hb).
      split; [lia |]. split.
      * intros b [Hin | ->%list_elem_of_singleton]%elem_of_app.
        -- apply Hbelow in Hin. lia.
        -- lia.
      * intros i j b1 b2 Hij Hi Hj.
        apply lookup_app_Some in Hj as [Hj | [Hlen Hj]].
        -- assert (i < length (database.bookings (tables db)))%nat
             by (apply lookup_lt_Some in Hj; lia).
           rewrite lookup_app_l in Hi by done. by apply (Hrows i j).
        -- apply list_lookup_singleton_Some in Hj as [Hj0 <-]. rewrite Hid.
           apply lookup_app_Some in Hi as [Hi | [Hlen' Hi]].
           ++ apply list_elem_of_lookup_2, Hbelow in Hi. lia.
           ++ apply list_lookup_singleton_Some in Hi as [Hi _]. lia.
  - destruct (approve_booking_run db i payload now)
      as [[_ ->] | (b & Hb & [[_ ->] | [(_ & _ & ->) | (_ & _ & read & _ & ->)]])];
      cbn [snd]; try done.
    split; [done |]. by apply ids_increase_decision.
  - destruct (decline_booking_run db i payload now)
      as [[_ ->] | (b & Hb & [[_ ->] | (_ & read & _ & ->)])];
      cbn [snd]; try done.
    split; [done |]. by apply ids_increase_decision.
Qed.

Lemma booking_ids_grow_in_creation_order_witness :
  (∀ b, b ∈ database.bookings (tables scenario.C_created) → 1 ≤ Booking.id b)
  ∧ ∀ (i j : nat) b1 b2,
      (i < j)%nat →
      database.bookings (tables scenario.C_created) !! i = Some b1 →
      database.bookings (tables scenario.C_created) !! j = Some b2 →
      Booking.id b1 < Booking.id b2.
Proof.
  apply (booking_ids_grow_in_creation_order scenario.C_created).
  unfold scenario.C_created, scenario.A_approved, scenario.A_created.
  do 3 apply reachable_step. apply reachable_empty.
Defined.
End numbering.

(** ** The customers table *)

Section customers_table.
Import bookings spec spec_more.

Lemma lower_ascii_idemp c : lower_ascii (lower_ascii c) = lower_ascii c.
Proof. destruct c as [[] [] [] [] [] [] [] []]; reflexivity. Qed.

Lemma lower_idemp s : lower (lower s) = lower s.
Proof. induction s as [| c s IH]; [done |]. cbn. by rewrite lower_ascii_idemp, IH. Qed.

Lemma upsert_customer_cases payload (db : Database) :
  let e := lower (CustomerCreate.email payload) in
  let custs := customers (tables db) in
  (Forall (λ c, Customer.email c ≠ e) custs
   ∧ _upsert_customer payload (mkSession db (tables db))
     = (inr (Customer.mk (customers_id_seq db) e (CustomerCreate.full_name payload)),
        mkSession (mkDatabase (tables db) (customers_id_seq db + 1) (bookings_id_seq db))
          (mkTables (custs ++ [Customer.mk (customers_id_seq db) e
                                 (CustomerCreate.full_name payload)])
             (database.bookings (tables db)))))
  ∨ (∃ c, c ∈ custs ∧ Customer.email c = e
          ∧ let c' := Customer.mk (Customer.id c) e (CustomerCreate.full_name payload) in
            _upsert_customer payload (mkSession db (tables db))
            = (inr c',
               mkSession db
                 (mkTables ((λ x, if decide (Customer.id x = Customer.id c) then c' else x)
                              <$> custs)
                    (database.bookings (tables db))))).
Proof.
  cbv zeta. unfold _upsert_customer, bind, get_txn, scalar_one_or_none. cbn [txn].
  destruct (head (filter _ (customers (tables db)))) as [c |] eqn:Hh.
  - right. exists c. apply head_Some_elem_of, list_elem_of_filter in Hh as [He Hin].
    split; [done |]. split; [done |]. rewrite <- He. reflexivity.
  - left. split; [| done]. apply head_None in Hh.
    apply Forall_forall. intros c Hc He.
    eapply (filter_nil_not_elem_of _); [exact Hh | exact He | exact Hc].
Qed.

Lemma create_booking_after_upsert (db : Database) (payload : BookingCreate.t) c s1 :
  BookingCreate.start_at payload ≤ BookingCreate.end_at payload →
  _upsert_customer (BookingCreate.customer payload) (mkSession db (tables db)) = (inr c, s1) →
  let b :=
    Booking.mk (bookings_id_seq (server s1)) (Customer.id c) (BookingCreate.resource_id payload)
      pending (BookingCreate.start_at payload) (BookingCreate.end_at payload)
      (BookingCreate.requested_by payload) None (BookingCreate.notes payload) None in
  (∃ detail, get_db (create_booking payload) db = (inl (mkHTTPException 409 detail), server s1))
  ∨ get_db (create_booking payload) db
    = (inr (BookingRead.mk b
              (head (filter (λ x, Customer.id x = Customer.id c) (customers (txn s1))))),
       mkDatabase (mkTables (customers (txn s1)) (database.bookings (txn s1) ++ [b]))
         (customers_id_seq (server s1)) (bookings_id_seq (server s1) + 1)).
Proof.
  intros Hle Hup. cbv zeta.
  remember (get_db (create_booking payload) db) as R eqn:HR.
  unfold get_db, create_booking in HR.
  rewrite (proj2 (Z.ltb_ge _ _) Hle) in HR.
  unfold bind at 1 in HR. rewrite Hup in HR.
  destruct (ensure_no_conflict_cases (BookingCreate.resource_id payload)
              (BookingCreate.start_at payload) (BookingCreate.end_at payload) None s1)
    as [[Hrun _] | [Hrun _]]; unfold bind at 1 in HR; rewrite Hrun in HR; cbn in HR.
  - left. by eexists.
  - right. exact HR.
Qed.

(** Rewriting the rows that carry a key rewrites one row when keys are
    distinct. *)
Lemma fmap_replace_insert {A} (g : A → Z) (l : list A) (k : nat) (c c' : A) :
  NoDup (g <$> l) → l !! k = Some c →
  (λ x, if decide (g x = g c) then c' else x) <$> l = <[k := c']> l.
Proof.
  intros Hnd Hk. apply list_eq. intros j. rewrite list_lookup_fmap.
  destruct (decide (j = k)) as [-> | Hne].
  - rewrite list_lookup_insert_eq by (by eapply lookup_lt_Some).
    rewrite Hk. cbn. by rewrite decide_True.
  - rewrite list_lookup_insert_ne by done.
    destruct (l !! j) as [x |] eqn:Hj; [| done]. cbn.
    destruct (decide (g x = g c)) as [Hg | ?]; [| done].
    exfalso. apply Hne. eapply (NoDup_lookup _ j k (g c) Hnd).
    + by rewrite list_lookup_fmap, Hj, <- Hg.
    + by rewrite list_lookup_fmap, Hk.
Qed.

Lemma head_filter_replace {A} (g : A → Z) (l : list A) (c c' : A) :
  c ∈ l → g c' = g c →
  head (filter (λ x, g x = g c') ((λ x, if decide (g x = g c) then c' else x) <$> l))
  = Some c'.
Proof.
  intros Hin Hg. induction l as [| x l IH]; [by apply elem_of_nil in Hin |].
  rewrite fmap_cons, filter_cons.
  destruct (decide (g x = g c)) as [Hx | Hx].
  - by rewrite decide_True.
  - rewrite decide_False by congruence. apply IH.
    apply elem_of_cons in Hin as [-> | Hin]; done.
Qed.

Lemma customers_inv_empty : customers_inv database.empty.
Proof.
  split; cbn; try apply NoDup_nil_2; by intros ? ?%elem_of_nil.
Qed.

Lemma customers_inv_seq db cseq bseq :
  customers_id_seq db ≤ cseq → customers_inv db →
  customers_inv (mkDatabase (tables db) cseq bseq).
Proof.
  intros Hle [H1 H2 H3 H4 H5]. split; cbn; try done.
  intros c Hc. apply H1 in Hc. lia.
Qed.

Lemma customers_inv_decision db cseq bseq (f : Booking.t → Booking.t) :
  (∀ x, x ∈ database.bookings (tables db) →
        ∃ y, y ∈ database.bookings (tables db)
             ∧ Booking.customer_id (f x) = Booking.customer_id y) →
  customers_id_seq db ≤ cseq → customers_inv db →
  customers_inv (mkDatabase (mkTables (customers (tables db))
                               (f <$> database.bookings (tables db))) cseq bseq).
Proof.
  intros Hf Hle [H1 H2 H3 H4 H5]. split; cbn; try done.
  - intros c Hc. apply H1 in Hc. lia.
  - intros b (x & -> & Hx)%list_elem_of_fmap.
    destruct (Hf x Hx) as (y & Hy & ->). by apply H5.
Qed.

(** what an upsert leaves in the customers table *)
Lemma upsert_outcome payload (db : Database) c s1 :
  customers_inv db →
  _upsert_customer payload (mkSession db (tables db)) = (inr c, s1) →
  let e := lower (CustomerCreate.email payload) in
  Customer.email c = e
  ∧ Customer.full_name c = CustomerCreate.full_name payload
  ∧ tables (server s1) = tables db
  ∧ bookings_id_seq (server s1) = bookings_id_seq db
  ∧ customers_id_seq db ≤ customers_id_seq (server s1)
  ∧ database.bookings (txn s1) = database.bookings (tables db)
  ∧ head (filter (λ x, Customer.id x = Customer.id c) (customers (txn s1))) = Some c
  ∧ ((Forall (λ x, Customer.email x ≠ e) (customers (tables db))
      ∧ Customer.id c = customers_id_seq db
      ∧ customers_id_seq (server s1) = customers_id_seq db + 1
      ∧ customers (txn s1) = customers (tables db) ++ [c])
     ∨ (∃ (k : nat) old,
          customers (tables db) !! k = Some old
          ∧ Customer.email old = e
          ∧ Customer.id c = Customer.id old
          ∧ customers_id_seq (server s1) = customers_id_seq db
          ∧ customers (txn s1) = <[k := c]> (customers (tables db)))).
Proof.
  intros [H1 H2 H3 H4 H5] Hup. cbv zeta.
  destruct (upsert_customer_cases payload db) as [[Hnew H] | (old & Hin & He & H)];
    cbv zeta in H; rewrite H in Hup; injection Hup as <- <-; cbn.
  - repeat split; try done; try lia.
    + rewrite filter_app, filter_none, filter_cons_True; try done.
      apply Forall_forall. intros x Hx%H1. cbn. lia.
    + left. by repeat split.
  - destruct (list_elem_of_lookup_1 _ _ Hin) as [k Hk].
    repeat split; try done; try lia.
    + by apply (head_filter_replace Customer.id _ old (Customer.mk (Customer.id old) _ _)).
    + right. exists k, old. rewrite (fmap_replace_insert Customer.id _ k old) by done.
      by repeat split.
Qed.

Lemma elem_of_insert_inv {A} (l : list A) (k : nat) (c x : A) :
  x ∈ <[k := c]> l → x = c ∨ x ∈ l.
Proof.
  intros [j Hj]%list_elem_of_lookup_1.
  apply list_lookup_insert_Some in Hj as [(_ & -> & _) | [_ Hj]]; [by left | right].
  by eapply list_elem_of_lookup_2.
Qed.

Lemma customers_inv_create (db : Database) payload c s1 (b : Booking.t) bseq :
  customers_inv db →
  _upsert_customer payload (mkSession db (tables db)) = (inr c, s1) →
  Booking.customer_id b = Customer.id c →
  customers_inv (mkDatabase (mkTables (customers (txn s1))
                               (database.bookings (tables db) ++ [b]))
                   (customers_id_seq (server s1)) bseq).
Proof.
  intros Hinv Hup Hb.
  destruct (upsert_outcome payload db c s1 Hinv Hup)
    as (He & Hname & _ & _ & Hseq & _ & _ & Hcase).
  destruct Hinv as [H1 H2 H3 H4 H5].
  destruct Hcase as [(Hnew & Hid & -> & ->) | (k & old & Hk & Hold & Hid & -> & ->)];
    split; cbn.
  - intros x [Hx%H1 | ->%list_elem_of_singleton]%elem_of_app; lia.
  - rewrite fmap_app. apply NoDup_app. split; [done |]. split; [| apply NoDup_singleton].
    intros i (x & -> & Hx%H1)%list_elem_of_fmap Hc%list_elem_of_singleton. lia.
  - rewrite fmap_app. apply NoDup_app. split; [done |]. split; [| apply NoDup_singleton].
    intros i (x & -> & Hx)%list_elem_of_fmap Hc%list_elem_of_singleton.
    rewrite Forall_forall in Hnew. apply (Hnew x Hx). congruence.
  - intros x [Hx | ->%list_elem_of_singleton]%elem_of_app; [by apply H4 |].
    rewrite He. apply lower_idemp.
  - intros x [Hx | ->%list_elem_of_singleton]%elem_of_app.
    + destruct (H5 x Hx) as (c' & Hc' & Hcid). exists c'. split; [| done].
      apply elem_of_app. by left.
    + exists c. split; [| done]. apply elem_of_app. right. by apply list_elem_of_singleton.
  - intros x [-> | Hx]%elem_of_insert_inv; [| by apply H1].
    rewrite Hid. apply H1. by eapply list_elem_of_lookup_2.
  - rewrite list_fmap_insert, list_insert_id; [done |].
    by rewrite list_lookup_fmap, Hk, Hid.
  - rewrite list_fmap_insert, list_insert_id; [done |].
    rewrite list_lookup_fmap, Hk. cbn. congruence.
  - intros x [-> | Hx]%elem_of_insert_inv; [| by apply H4].
    rewrite He. apply lower_idemp.
  - assert (Hkept : ∀ x, x ∈ customers (tables db) →
                         ∃ x', x' ∈ <[k := c]> (customers (tables db))
                               ∧ Customer.id x' = Customer.id x).
    { intros x [j Hj]%list_elem_of_lookup_1. destruct (decide (j = k)) as [-> | Hne].
      - exists c. split; [| congruence].
        eapply list_elem_of_lookup_2, list_lookup_insert_eq. by eapply lookup_lt_Some.
      - exists x. split; [| done].
        eapply list_elem_of_lookup_2. by rewrite list_lookup_insert_ne. }
    intros x [Hx | ->%list_elem_of_singleton]%elem_of_app.
    + destruct (H5 x Hx) as (c' & Hc' & Hcid).
      destruct (Hkept c' Hc') as (x' & Hx' & Hxid). exists x'. split; [done | congruence].
    + destruct (Hkept old) as (x' & Hx' & Hxid); [by eapply list_elem_of_lookup_2 |].
      exists x'. split; [done | congruence].
Qed.

Lemma reachable_customers_inv db : reachable db → customers_inv db.
Proof.
  induction 1 as [| db r Hreach IH]; [apply customers_inv_empty |].
  destruct r as [payload | i payload now | i payload now]; cbn [run].
  - destruct (Z.lt_ge_cases (BookingCreate.end_at payload) (BookingCreate.start_at payload))
      as [Hlt | Hle].
    { destruct (create_booking_run db payload) as [[_ ->] | [(? & _) | (? & _)]];
        [done | lia | lia]. }
    destruct (upsert_customer_run (BookingCreate.customer payload) (mkSession db (tables db)))
      as (c & s1 & Hup & _).
    destruct (upsert_outcome _ db c s1 IH Hup) as (_ & _ & Ht & Hbs & Hseq & Hbk & _).
    destruct (create_booking_after_upsert db payload c s1 Hle Hup) as [[detail ->] | ->];
      cbn [snd].
    + destruct (server s1) as [t cs bs] eqn:Hs. cbn in Ht, Hseq. subst t.
      by apply customers_inv_seq.
    + rewrite Hbk. by eapply customers_inv_create.
  - destruct (approve_booking_run db i payload now)
      as [[_ ->] | (b & Hb & [[_ ->] | [(_ & _ & ->) | (_ & _ & read & _ & ->)]])];
      cbn [snd]; try done.
    apply booking_by_id_Some in Hb as [Hin _].
    apply customers_inv_decision; [| lia | done].
    intros x Hx. case_decide; [by exists b | by exists x].
  - destruct (decline_booking_run db i payload now)
      as [[_ ->] | (b & Hb & [[_ ->] | (_ & read & _ & ->)])];
      cbn [snd]; try done.
    apply booking_by_id_Some in Hb as [Hin _].
    apply customers_inv_decision; [| lia | done].
    intros x Hx. case_decide; [by exists b | by exists x].
Qed.

Lemma lower_ascii_fixed c :
  lower_ascii c = c →
  ((65 <=? Ascii.N_of_ascii c) && (Ascii.N_of_ascii c <=? 90))%N = false.
Proof. destruct c as [[] [] [] [] [] [] [] []]; vm_compute; congruence. Qed.

(** a text that lowering leaves alone holds no capital letter *)
Lemma lower_fixed_no_capital s : lower s = s → has_capital s = false.
Proof.
  induction s as [| c s IH]; [done |]. cbn [lower has_capital]. intros [= Hc Hs].
  by rewrite (lower_ascii_fixed c Hc), IH.
Qed.

(** Property X7.  In every reachable store the customers have pairwise
    distinct addresses, none of which holds a capital letter A to Z, and
    pairwise distinct ids, and every booking refers to a customer of the
    table. *)
Theorem customers_are_keyed_by_lower_case_email (db : Database) :
  reachable db →
  NoDup (Customer.email <$> customers (tables db))
  ∧ NoDup (Customer.id <$> customers (tables db))
  ∧ (∀ c, c ∈ customers (tables db) → has_capital (Customer.email c) = false)
  ∧ (∀ b, b ∈ database.bookings (tables db) →
          ∃ c, c ∈ customers (tables db) ∧ Customer.id c = Booking.customer_id b).
Proof.
  intros Hinv%reachable_customers_inv.
  destruct Hinv as [_ Hids Hemails Hlower Howned].
  split; [exact Hemails |]. split; [exact Hids |]. split; [| exact Howned].
  intros c Hc. by apply lower_fixed_no_capital, Hlower.
Qed.

Lemma customers_are_keyed_by_lower_case_email_witness :
  NoDup (Customer.email <$> customers (tables scenario.C_created))
  ∧ has_capital (Customer.email (Customer.mk 1 "alice@example.com" "Alice")) = false.
Proof.
  destruct (customers_are_keyed_by_lower_case_email scenario.C_created)
    as (Hemails & _ & Hlower & _).
  - unfold scenario.C_created, scenario.A_approved, scenario.A_created.
    repeat apply reachable_step. apply reachable_empty.
  - split; [exact Hemails |]. apply Hlower.
    assert (customers (tables scenario.C_created)
            = [Customer.mk 1 "alice@example.com" "Alice";
               Customer.mk 2 "bob@example.com" "Bob"]) as -> by reflexivity.
    left.
Defined.

(** Property X8.  Whenever a create request on a reachable store, with an
    ASCII address, persists a booking, whatever response it is given, the
    booking is appended to the table and refers to the customer of the
    request, who is in the customers table with the lower-cased address and
    the name of the request.  If no customer had that address the customer is
    new and appended to the table; otherwise the customer keeps the id of the
    one that had it and replaces that row in place, so that the name is
    overwritten. *)
Theorem a_persisted_booking_upserts_its_customer (db : Database)
    (payload : BookingCreate.t) :
  reachable db →
  isascii (CustomerCreate.email (BookingCreate.customer payload)) = true →
  let db' := (run (Create payload) db).2 in
  let e := lower (CustomerCreate.email (BookingCreate.customer payload)) in
  database.bookings (tables db') ≠ database.bookings (tables db) →
  ∃ c b,
    database.bookings (tables db') = database.bookings (tables db) ++ [b]
    ∧ Booking.customer_id b = Customer.id c
    ∧ c ∈ customers (tables db')
    ∧ Customer.email c = e
    ∧ has_capital (Customer.email c) = false
    ∧ Customer.full_name c = CustomerCreate.full_name (BookingCreate.customer payload)
    ∧ ((Forall (λ x, Customer.email x ≠ e) (customers (tables db))
        ∧ customers (tables db') = customers (tables db) ++ [c])
       ∨ (∃ (k : nat) old,
            customers (tables db) !! k = Some old
            ∧ Customer.email old = e
            ∧ Customer.id c = Customer.id old
            ∧ customers (tables db') = <[k := c]> (customers (tables db)))).
Proof.
  intros Hinv%reachable_customers_inv _. cbv zeta. cbn [run]. intros Hchanged.
  destruct (Z.lt_ge_cases (BookingCreate.end_at payload) (BookingCreate.start_at payload))
    as [Hlt | Hle].
  { destruct (create_booking_run db payload) as [[_ H] | [(? & _) | (? & _)]];
      [| lia | lia]. rewrite H in Hchanged. cbn [snd] in Hchanged. congruence. }
  destruct (upsert_customer_run (BookingCreate.customer payload) (mkSession db (tables db)))
    as (c & s1 & Hup & _).
  destruct (upsert_outcome _ db c s1 Hinv Hup)
    as (He & Hname & _ & _ & _ & Hbook & Hjoin & Hcase).
  destruct (create_booking_after_upsert db payload c s1 Hle Hup) as [[detail H] | H];
    rewrite H in *; cbn [snd tables database.bookings customers] in *.
  { destruct (create_booking_run db payload)
      as [[? _] | [(_ & _ & db1 & H1 & Ht & _) | (_ & _ & ? & ? & ? & H1 & _)]];
      [lia | | congruence].
    rewrite H in H1. injection H1 as _ <-. rewrite Ht in Hchanged. congruence. }
  exists c. eexists. split; [by rewrite Hbook |]. split; [done |].
  assert (c ∈ customers (txn s1)) as Hin by (by apply head_Some_elem_of, list_elem_of_filter in Hjoin as [_ ?]).
  split; [done |]. split; [done |].
  split; [rewrite He; apply lower_fixed_no_capital, lower_idemp |]. split; [done |].
  destruct Hcase as [(Hnew & _ & _ & ->) | (k & old & Hk & Hold & Hid & _ & ->)].
  - by left.
  - right. by exists k, old.
Qed.

Lemma a_persisted_booking_upserts_its_customer_witness :
  ∃ c b,
    database.bookings (tables (run (Create scenario_more.request_D) scenario.C_created).2)
    = database.bookings (tables scenario.C_created) ++ [b]
    ∧ Booking.customer_id b = Customer.id c
    ∧ Customer.email c = "alice@example.com"
    ∧ Customer.full_name c = "Alice Liddell".
Proof.
  destruct (a_persisted_booking_upserts_its_customer scenario.C_created
              scenario_more.request_D)
    as (c & b & Hb & Hid & _ & He & _ & Hname & _).
  - unfold scenario.C_created, scenario.A_approved, scenario.A_created.
    repeat apply reachable_step. apply reachable_empty.
  - reflexivity.
  - discriminate.
  - exists c, b. split; [exact Hb |]. split; [exact Hid |].
    split; [exact He | exact Hname].
Defined.
End customers_table.

(** ** The listing endpoint *)

Section listing_props.
Import bookings spec spec_more listing.

Lemma for_each_booking_read (l : list Booking.t) (s : AsyncSession) :
  for_each _booking_read l s
  = (inr ((λ b, BookingRead.mk b
                  (head (filter (λ c, Customer.id c = Booking.customer_id b)
                           (customers (txn s))))) <$> l), s).
Proof.
  induction l as [| b l IH]; [done |].
  cbn [for_each]. unfold bind at 1. unfold _booking_read at 1, bind, get_txn, ret.
  fold (@bind (list BookingRead.t)). unfold bind. rewrite IH. done.
Qed.

(** the joined customer of a row that has one *)
Lemma joined_customer (db : Database) (b : Booking.t) :
  customers_inv db → b ∈ database.bookings (tables db) →
  ∃ c, head (filter (λ c, Customer.id c = Booking.customer_id b) (customers (tables db)))
       = Some c
       ∧ c ∈ customers (tables db) ∧ Customer.id c = Booking.customer_id b.
Proof.
  intros Hinv Hb. destruct (inv_bookings_owned db Hinv b Hb) as (c0 & Hc0 & Hid0).
  destruct (filter (λ c, Customer.id c = Booking.customer_id b) (customers (tables db)))
    as [| c l] eqn:E.
  - exfalso. eapply (filter_nil_not_elem_of _); [exact E | exact Hid0 | exact Hc0].
  - assert (c ∈ filter (λ c, Customer.id c = Booking.customer_id b) (customers (tables db)))
      as [Hid Hc]%list_elem_of_filter by (rewrite E; left).
    by exists c.
Qed.

(** Property X9.  On a reachable store the listing endpoint succeeds and
    writes nothing.  It returns exactly the bookings of the resource that pass
    the filters given (status equal to the status filter, end date on or after
    the start-date filter, start date on or before the end-date filter), each
    once, in ascending order of (start date, id), each joined with a customer
    of the table that has the booking's customer id. *)
Theorem list_bookings_filters_and_orders (db : Database)
    (status_filter : option BookingStatus) (resource_id : string)
    (start_date end_date : option datetime.date) :
  reachable db →
  ∃ reads,
    get_db (list_bookings status_filter resource_id start_date end_date) db = (inr reads, db)
    ∧ BookingRead.booking <$> reads
      ≡ₚ filter (listed status_filter resource_id start_date end_date)
           (database.bookings (tables db))
    ∧ by_start_then_id (BookingRead.booking <$> reads)
    ∧ ∀ read, read ∈ reads →
        ∃ c, BookingRead.customer read = Some c
             ∧ c ∈ customers (tables db)
             ∧ Customer.id c = Booking.customer_id (BookingRead.booking read).
Proof.
  intros Hreach. pose proof (reachable_customers_inv db Hreach) as Hinv.
  unfold get_db, list_bookings. unfold bind at 1. unfold get_txn at 1. cbn [txn].
  rewrite for_each_booking_read. cbn [txn server].
  eexists. split; [reflexivity |].
  set (rows := sorted booking_key _).
  rewrite <- list_fmap_compose.
  assert (Hid : ∀ l : list Booking.t,
             (BookingRead.booking
                ∘ (λ b, BookingRead.mk b
                          (head (filter (λ c, Customer.id c = Booking.customer_id b)
                                   (customers (tables db)))))) <$> l = l).
  { intros l. rewrite <- (list_fmap_id l) at 2. by apply list_fmap_ext. }
  rewrite Hid.
  assert (rows ≡ₚ filter (listed status_filter resource_id start_date end_date)
                    (database.bookings (tables db))) as Hrows.
  { unfold rows. rewrite sorted_Permutation.
    destruct status_filter, start_date, end_date; rewrite ?list_filter_filter;
      (match goal with |- ?l1 ≡ₚ ?l2 => assert (l1 = l2) as ->; [| done] end);
      apply list_filter_iff; intros x; unfold listed; tauto. }
  split; [exact Hrows |]. split; [apply sorted_ascending |].
  intros read (b & -> & Hb)%list_elem_of_fmap. cbn [BookingRead.customer BookingRead.booking].
  apply joined_customer; [done |].
  rewrite Hrows in Hb. by apply list_elem_of_filter in Hb as [_ Hb].
Qed.

Lemma list_bookings_filters_and_orders_witness :
  ∃ reads,
    get_db (list_bookings (Some pending) scenario.house (Some 739414) None)
      scenario.C_created
    = (inr reads, scenario.C_created)
    ∧ BookingRead.booking <$> reads
      ≡ₚ filter (listed (Some pending) scenario.house (Some 739414) None)
           (database.bookings (tables scenario.C_created))
    ∧ by_start_then_id (BookingRead.booking <$> reads).
Proof.
  destruct (list_bookings_filters_and_orders scenario.C_created (Some pending)
              scenario.house (Some 739414) None)
    as (reads & Hget & Hrows & Hasc & _).
  - unfold scenario.C_created, scenario.A_approved, scenario.A_created.
    do 3 apply reachable_step. apply reachable_empty.
  - exists reads. split; [exact Hget |]. split; [exact Hrows | exact Hasc].
Defined.
End listing_props.

(** ** The calendar builder, continued *)

Section calendar_more.
Import bookings spec spec_more.

(** Among the days of a grid, those of the anchor month are the ones whose
    month is the anchor's: the padding days belong to the months around. *)
Lemma month_of_grid_day y m d :
  anchor_month y m → (y, m) ≠ (9999, 12) →
  grid_first y m ≤ d ≤ grid_last y m →
  (datetime.month d = m ↔ month_first y m ≤ d ≤ month_last y m).
Proof.
  intros Hym Hmax Hd. pose proof Hym as [Hy Hm].
  destruct (grid_span y m Hym) as (H1 & H2 & _).
  pose proof (last_day_first y m) as Hl.
  pose proof (days_in_month_bounds y m Hm) as Hn.
  destruct (decide (d < month_first y m)) as [Hbefore | Hnb];
    [| destruct (decide (month_last y m < d)) as [Hafter | Hna]].
  - (* a day of the month before *)
    assert ((y, m) ≠ (1, 1)) as Hmin.
    { intros [= -> ->].
      assert (grid_first 1 1 = 1 ∧ month_first 1 1 = 1) as [Hg Hf] by (by vm_compute).
      lia. }
    pose proof (prevmonth_nextmonth y m Hm) as Hprev.
    destruct (calendar._prevmonth y m) as [py pm] eqn:Epm. destruct Hprev as [Hprev Hpm].
    pose proof (ymd2ord_next_month py pm Hpm) as Hadj. rewrite Hprev in Hadj.
    pose proof (days_in_month_bounds py pm Hpm) as Hpn.
    assert (1 ≤ py ∧ pm ≠ m) as [Hpy Hne].
    { unfold calendar._prevmonth in Epm.
      destruct (Z.eqb_spec m 1) as [-> | ?]; simplify_eq; split; try lia.
      destruct (decide (y = 1)) as [-> | ?]; [done | lia]. }
    rewrite (ymd2ord_day py pm (datetime._days_in_month py pm)) in Hadj.
    fold (month_first y m) in Hadj.
    assert (d = datetime._ymd2ord py pm (d - datetime._ymd2ord py pm 1 + 1)) as Hdd
      by (rewrite (ymd2ord_day py pm (_ + 1)); lia).
    split; [| lia]. intros Hmonth. exfalso. apply Hne. rewrite <- Hmonth, Hdd.
    unfold datetime.month. rewrite ord2ymd_ymd2ord by lia. done.
  - (* a day of the month after *)
    pose proof (ymd2ord_next_month y m Hm) as Hnext.
    destruct (calendar._nextmonth y m) as [ny nm] eqn:Enm.
    assert (1 ≤ ny ∧ 1 ≤ nm ≤ 12 ∧ nm ≠ m) as (Hny & Hnm & Hne).
    { unfold calendar._nextmonth in Enm.
      destruct (Z.eqb_spec m 12) as [-> | ?]; simplify_eq; repeat split; lia. }
    pose proof (days_in_month_bounds ny nm Hnm) as Hnn.
    fold (month_last y m) in Hnext.
    assert (d = datetime._ymd2ord ny nm (d - month_last y m)) as Hdd
      by (rewrite (ymd2ord_day ny nm (_ - _)); lia).
    split; [| lia]. intros Hmonth. exfalso. apply Hne. rewrite <- Hmonth, Hdd.
    unfold datetime.month. rewrite ord2ymd_ymd2ord by lia. done.
  - split; [lia | intros _].
    assert (d = datetime._ymd2ord y m (d - month_first y m + 1)) as ->
      by (unfold month_first; rewrite (ymd2ord_day y m (_ + 1)); lia).
    unfold datetime.month. rewrite ord2ymd_ymd2ord; [done | lia | lia |].
    unfold month_first in *. rewrite ymd2ord_day in *. lia.
Qed.

(** The view the builder returns for a month other than December 9999,
    field by field. *)
Lemma build_calendar_eq y m resource_id bookings selected_date today now :
  anchor_month y m → (y, m) ≠ (9999, 12) →
  let anchor := month_first y m in
  let grid_start := grid_first y m in
  let grid_end := grid_last y m in
  let bookings_by_day := foldl (bucket grid_start grid_end) ∅ bookings in
  let weeks :=
    (λ week : list Z, calendar_day anchor today bookings_by_day <$> week)
      <$> ((λ i, seqZ (grid_start + 7 * i) 7)
             <$> seqZ 0 ((grid_end + 1 - grid_start) / 7)) in
  let preferred :=
    match selected_date with
    | Some d => d
    | None =>
        if bool_decide (y = datetime.year today) && bool_decide (m = datetime.month today)
        then today else anchor
    end in
  let selected :=
    if (preferred <? grid_start) || (grid_end <? preferred) then anchor else preferred in
  _build_calendar anchor resource_id bookings selected_date today now
  = Some (CalendarResponse.mk resource_id
            (CalendarMonth.mk anchor selected
               (Z.of_nat (size (list_to_set (C := gset Z)
                  (Booking.id <$>
                     filter (λ b, (Booking.status b = pending ∨ Booking.status b = approved)
                                  ∧ Booking.start_at b ≤ month_last y m
                                  ∧ anchor ≤ Booking.end_at b) bookings))))
               (Z.of_nat (size (list_to_set (C := gset Z)
                  (Booking.id <$>
                     filter (λ b, Booking.status b = pending
                                  ∧ Booking.start_at b ≤ month_last y m
                                  ∧ anchor ≤ Booking.end_at b) bookings))))
               (foldl (λ total day,
                         if CalendarDay.is_current_month day
                         then total + CalendarDay.remaining_slots day else total)
                      0 (concat weeks))
               (head (filter (λ d, approved_count (get_day bookings_by_day d)
                                   < CAPACITY_PER_DAY)
                        (_daterange (Z.max today grid_start) grid_end)))
               now WEEKDAY_LABELS weeks)
            (_build_day_detail selected (get_day bookings_by_day selected))
            (pending_request
               <$> sorted booking_key (filter (λ b, Booking.status b = pending) bookings))).
Proof.
  intros Hym Hmax. cbv zeta.
  destruct (year_month_first y m Hym) as [Hyear Hmonth].
  destruct (grid_corners y m Hym) as [Hhead Hlast]; cbv zeta in Hhead, Hlast.
  cbn [mbind option_bind] in Hhead, Hlast.
  unfold _build_calendar. rewrite Hyear, Hmonth.
  rewrite monthdatescalendar_eq by done. cbn [mbind option_bind].
  unfold datetime.date in *. rewrite Hhead, Hlast. cbn [mbind option_bind].
  rewrite monthrange_eq by done. cbn [mbind option_bind].
  pose proof (days_in_month_bounds y m (proj2 Hym)).
  rewrite date_new_Some by (done || lia). cbn [mbind option_bind].
  reflexivity.
Qed.

(** The bucket of a grid day holds the bookings whose span contains the
    day, in the order of the fetched list: clipping to the grid loses
    nothing on a day of the grid. *)
Lemma get_day_in_grid grid_start grid_end bookings d :
  grid_start ≤ d ≤ grid_end →
  get_day (foldl (bucket grid_start grid_end) ∅ bookings) d = filter (contains d) bookings.
Proof.
  intros Hd. rewrite get_day_bookings_by_day. apply list_filter_iff.
  intros b. unfold contains. lia.
Qed.

(** The cells of a grid, row after row, are the cells of its days. *)
Lemma cells_of_grid y m (f : Z → CalendarDay.t) :
  anchor_month y m →
  concat ((λ week : list Z, f <$> week)
            <$> ((λ i, seqZ (grid_first y m + 7 * i) 7)
                   <$> seqZ 0 ((grid_last y m + 1 - grid_first y m) / 7)))
  = f <$> seqZ (grid_first y m) (grid_last y m + 1 - grid_first y m).
Proof.
  intros Hym. rewrite <- (grid_concat y m Hym).
  generalize ((λ i, seqZ (grid_first y m + 7 * i) 7)
                <$> seqZ 0 ((grid_last y m + 1 - grid_first y m) / 7)).
  intros rows. induction rows as [| row rows IH]; [done |].
  cbn. by rewrite fmap_app, IH.
Qed.

(** A cell of the view is the cell of a day of the grid. *)
Lemma cell_of_view y m (f : Z → CalendarDay.t) week cell :
  anchor_month y m →
  week ∈ (λ week : list Z, f <$> week)
           <$> ((λ i, seqZ (grid_first y m + 7 * i) 7)
                  <$> seqZ 0 ((grid_last y m + 1 - grid_first y m) / 7)) →
  cell ∈ week →
  ∃ d, cell = f d ∧ grid_first y m ≤ d ≤ grid_last y m.
Proof.
  intros Hym Hweek Hcell.
  assert (cell ∈ f <$> seqZ (grid_first y m) (grid_last y m + 1 - grid_first y m)) as Hin.
  { rewrite <- cells_of_grid by done. apply list_elem_of_In, in_concat.
    exists week. split; by apply list_elem_of_In. }
  apply list_elem_of_fmap in Hin as (d & -> & Hd%elem_of_seqZ).
  exists d. split; [done | lia].
Qed.
End calendar_more.

(** ** Dates and their ordinals, continued *)

Section dates_more.
Import bookings spec spec_more.

(** Every ordinal from 1 on is the ordinal of a calendar date. *)
Lemma ymd2ord_surjective n :
  1 ≤ n →
  ∃ y m d, 1 ≤ y ∧ 1 ≤ m ≤ 12 ∧ 1 ≤ d ≤ datetime._days_in_month y m
           ∧ datetime._ymd2ord y m d = n.
Proof.
  intros Hn. replace n with (1 + (n - 1)) by lia.
  assert (0 ≤ n - 1) as Hk by lia. revert Hk. generalize (n - 1). clear n Hn.
  apply natlike_ind.
  - exists 1, 1, 1. by vm_compute.
  - intros k Hk (y & m & d & Hy & Hm & Hd & Hord).
    destruct (decide (d < datetime._days_in_month y m)) as [Hlt | Hge].
    + exists y, m, (d + 1). repeat split; try lia.
      rewrite ymd2ord_day in *. lia.
    + assert (d = datetime._days_in_month y m) as -> by lia.
      pose proof (ymd2ord_next_month y m Hm) as Hnext.
      destruct (calendar._nextmonth y m) as [ny nm] eqn:Enm.
      assert (1 ≤ ny ∧ 1 ≤ nm ≤ 12) as [Hny Hnm].
      { unfold calendar._nextmonth in Enm.
        destruct (Z.eqb_spec m 12); simplify_eq; lia. }
      pose proof (days_in_month_bounds ny nm Hnm).
      exists ny, nm, 1. repeat split; try lia.
Qed.

(** The year, month and day of a date are those of a calendar date, and
    give the date back. *)
Lemma ord2ymd_valid n :
  1 ≤ n ≤ datetime._MAXORDINAL →
  anchor_month (datetime.year n) (datetime.month n)
  ∧ 1 ≤ datetime.day n ≤ datetime._days_in_month (datetime.year n) (datetime.month n)
  ∧ datetime._ymd2ord (datetime.year n) (datetime.month n) (datetime.day n) = n.
Proof.
  intros [Hlo Hhi].
  destruct (ymd2ord_surjective n Hlo) as (y & m & d & Hy & Hm & Hd & Hord).
  assert (y ≤ 9999) as Hmax.
  { destruct (decide (y ≤ 9999)) as [| Hbig]; [done | exfalso].
    pose proof (days_before_year_mono 10000 y ltac:(lia)) as Hmono.
    change (datetime._days_before_year 10000) with 3652059 in Hmono.
    assert (0 ≤ datetime._days_before_month y m).
    { unfold datetime._days_before_month.
      assert (0 ≤ datetime._DAYS_BEFORE_MONTH m) by (each_month Hm; cbn; lia).
      repeat case_match; lia. }
    unfold datetime._MAXORDINAL, datetime._ymd2ord in *. lia. }
  unfold datetime.year, datetime.month, datetime.day.
  rewrite <- Hord. rewrite ord2ymd_ymd2ord by done. cbn [fst snd].
  unfold anchor_month. repeat split; lia.
Qed.

(** A date lies in a month exactly when it has the month's year and month
    number. *)
Lemma date_in_month today y m :
  1 ≤ today ≤ datetime._MAXORDINAL → anchor_month y m →
  (datetime.year today = y ∧ datetime.month today = m
   ↔ month_first y m ≤ today ≤ month_last y m).
Proof.
  intros Htoday Hym. destruct (ord2ymd_valid today Htoday) as (_ & Hd & Hord).
  pose proof (days_in_month_bounds y m (proj2 Hym)) as Hn.
  unfold month_first, month_last. split.
  - intros [<- <-].
    pose proof (ymd2ord_day (datetime.year today) (datetime.month today)
                  (datetime.day today)) as H1.
    pose proof (ymd2ord_day (datetime.year today) (datetime.month today)
                  (datetime._days_in_month (datetime.year today) (datetime.month today)))
      as H2.
    lia.
  - intros Hin. rewrite (ymd2ord_day _ _ (datetime._days_in_month _ _)) in Hin.
    assert (today = datetime._ymd2ord y m (today - datetime._ymd2ord y m 1 + 1)) as Heq
      by (rewrite (ymd2ord_day y m (_ + 1)); lia).
    unfold datetime.year, datetime.month. rewrite Heq.
    rewrite ord2ymd_ymd2ord; [done | apply Hym | apply Hym | lia].
Qed.
End dates_more.

(** ** The month view *)

Section month_view.
Import bookings spec spec_more.

(** the days of a run of days that lie in an interval of the run *)
Lemma filter_seqZ_interval (P : Z → Prop) `{!∀ d, Decision (P d)} a n lo hi :
  a ≤ lo → lo ≤ hi + 1 → hi < a + n →
  (∀ d, a ≤ d < a + n → (P d ↔ lo ≤ d ≤ hi)) →
  filter P (seqZ a n) = seqZ lo (hi + 1 - lo).
Proof.
  intros Hlo Hhi Hn HP.
  replace n with ((lo - a) + ((hi + 1 - lo) + (a + n - (hi + 1)))) by lia.
  rewrite !seqZ_app by lia. rewrite !filter_app.
  replace (a + (lo - a)) with lo by lia.
  assert (∀ b k, (∀ d, b ≤ d < b + k → ¬ P d) → filter P (seqZ b k) = []) as Hnone.
  { intros b k Hb. destruct (filter P (seqZ b k)) as [| d l] eqn:E; [done |].
    assert (d ∈ filter P (seqZ b k)) as [Hd Hin%elem_of_seqZ]%list_elem_of_filter
      by (rewrite E; left).
    by apply Hb in Hd. }
  assert (∀ b k, (∀ d, b ≤ d < b + k → P d) → filter P (seqZ b k) = seqZ b k) as Hall.
  { intros b k Hb. generalize (seqZ b k), (λ d, proj1 (elem_of_seqZ b k d)).
    intros l Hl. induction l as [| d l IH]; [done |].
    rewrite filter_cons_True by (apply Hb, Hl; left).
    f_equal. apply IH. intros d' Hd'. apply Hl. by right. }
  rewrite (Hnone a), (Hall lo), (Hnone (lo + _)).
  - by rewrite app_nil_r.
  - intros d Hd. rewrite HP by lia. lia.
  - intros d Hd. apply HP; lia.
  - intros d Hd. rewrite HP by lia. lia.
Qed.

(** the running total of the month loop *)
Lemma month_loop_total (f : Z → CalendarDay.t) (days : list Z) (total : Z) :
  foldl (λ total day,
           if CalendarDay.is_current_month day
           then total + CalendarDay.remaining_slots day else total)
        total (f <$> days)
  = total + sum_over (λ d, CalendarDay.remaining_slots (f d))
              (filter (λ d, CalendarDay.is_current_month (f d) = true) days).
Proof.
  revert total. induction days as [| d days IH]; intros total; [cbn; lia |].
  cbn [fmap list_fmap foldl]. rewrite IH, filter_cons. unfold sum_over.
  destruct (CalendarDay.is_current_month (f d)) eqn:E.
  - rewrite decide_True by done. cbn [foldr]. lia.
  - rewrite decide_False by done. done.
Qed.

Lemma sum_over_bounds (f : Z → Z) lo hi (days : list Z) :
  (∀ d, d ∈ days → lo ≤ f d ≤ hi) →
  lo * Z.of_nat (length days) ≤ sum_over f days ≤ hi * Z.of_nat (length days).
Proof.
  induction days as [| d days IH]; intros Hf; cbn; [lia |].
  pose proof (Hf d ltac:(left)). 
  assert (∀ d, d ∈ days → lo ≤ f d ≤ hi) as Hf' by (intros; apply Hf; by right).
  specialize (IH Hf'). unfold sum_over in *. lia.
Qed.

Lemma sum_over_ext (f g : Z → Z) (days : list Z) :
  (∀ d, d ∈ days → f d = g d) → sum_over f days = sum_over g days.
Proof.
  induction days as [| d days IH]; intros Hf; cbn; [done |].
  rewrite (Hf d) by left. f_equal. apply IH. intros; apply Hf; by right.
Qed.

Lemma span_weeks y m :
  anchor_month y m →
  let nweeks := (grid_last y m + 1 - grid_first y m) / 7 in
  grid_last y m + 1 - grid_first y m = 7 * nweeks ∧ 4 ≤ nweeks ≤ 6.
Proof.
  intros Hym. cbv zeta.
  destruct (grid_span y m Hym) as (H1 & H2 & _ & _ & Hmod & Hlen).
  pose proof (last_day_first y m) as Hl.
  pose proof (days_in_month_bounds y m (proj2 Hym)) as Hn.
  Z.div_mod_to_equations. lia.
Qed.

(** Property X10.  The grid of a view has four to six rows; in every row the
    cell in column [j] is a day whose weekday number is [j] (Monday is 0,
    Sunday 6), and there is one weekday label for each column. *)
Theorem grid_has_four_to_six_rows_from_monday_to_sunday
    (y m : Z) (anchor : datetime.date) (resource_id : string) (bookings : list Booking.t)
    (selected_date : option datetime.date) (today : datetime.date)
    (now : datetime.datetime) (resp : CalendarResponse.t) :
  datetime.date_new y m 1 = Some anchor →
  _build_calendar anchor resource_id bookings selected_date today now = Some resp →
  let weeks := CalendarMonth.weeks (CalendarResponse.calendar resp) in
  (4 ≤ length weeks ≤ 6)%nat
  ∧ (∀ week (j : nat) cell,
       week ∈ weeks → week !! j = Some cell →
       datetime.weekday (CalendarDay.iso cell) = Z.of_nat j)
  ∧ length (CalendarMonth.weekday_labels (CalendarResponse.calendar resp)) = 7%nat.
Proof.
  intros Hanchor Hrun. cbv zeta.
  destruct (build_calendar_Some_inv _ _ _ _ _ _ _ _ _ Hanchor Hrun) as (Hym & -> & Hmax).
  rewrite (build_calendar_eq y m _ _ _ _ _ Hym Hmax) in Hrun. injection Hrun as <-.
  cbn [CalendarResponse.calendar CalendarMonth.weeks CalendarMonth.weekday_labels].
  destruct (span_weeks y m Hym) as [Hspan Hweeks]; cbv zeta in Hspan, Hweeks.
  destruct (grid_span y m Hym) as (_ & _ & Hmonday & _).
  split; [| split; [| done]].
  - rewrite !length_fmap, length_seqZ. lia.
  - intros week j cell Hweek Hcell.
    apply list_elem_of_fmap in Hweek as (row & -> & Hrow).
    apply list_elem_of_fmap in Hrow as (i & -> & Hi%elem_of_seqZ).
    rewrite list_lookup_fmap in Hcell.
    apply fmap_Some in Hcell as (d & [-> Hj]%lookup_seqZ & ->). cbn.
    unfold datetime.weekday in *. Z.div_mod_to_equations. lia.
Qed.

Lemma grid_has_four_to_six_rows_from_monday_to_sunday_witness :
  ∃ resp,
    _build_calendar 739403 scenario.house
      (database.bookings (tables scenario.C_created)) None 739412 5000 = Some resp
    ∧ (4 ≤ length (CalendarMonth.weeks (CalendarResponse.calendar resp)) ≤ 6)%nat
    ∧ ∀ week (j : nat) cell,
        week ∈ CalendarMonth.weeks (CalendarResponse.calendar resp) →
        week !! j = Some cell →
        datetime.weekday (CalendarDay.iso cell) = Z.of_nat j.
Proof.
  eexists. split; [vm_compute; reflexivity |].
  match goal with
  | |- context [CalendarResponse.calendar ?r] =>
      destruct (grid_has_four_to_six_rows_from_monday_to_sunday 2025 6 739403
                  scenario.house (database.bookings (tables scenario.C_created))
                  None 739412 5000 r)
        as (Hrows & Hcols & _)
  end.
  - reflexivity.
  - vm_compute. reflexivity.
  - split; [exact Hrows | exact Hcols].
Defined.

(** Property X11.  Each cell of a view is flagged as of the current month
    exactly when its day lies between the first and the last day of the anchor
    month, and as today exactly when its day is today; no cell is flagged
    unavailable.  The cells flagged as of the current month, in the order of
    the grid, are the days of the month, each once. *)
Theorem cells_flag_the_days_of_the_month_and_today
    (y m : Z) (anchor : datetime.date) (resource_id : string) (bookings : list Booking.t)
    (selected_date : option datetime.date) (today : datetime.date)
    (now : datetime.datetime) (resp : CalendarResponse.t) :
  datetime.date_new y m 1 = Some anchor →
  _build_calendar anchor resource_id bookings selected_date today now = Some resp →
  let weeks := CalendarMonth.weeks (CalendarResponse.calendar resp) in
  (∀ week cell,
     week ∈ weeks → cell ∈ week →
     (CalendarDay.is_current_month cell = true
      ↔ month_first y m ≤ CalendarDay.iso cell ≤ month_last y m)
     ∧ (CalendarDay.is_today cell = true ↔ CalendarDay.iso cell = today)
     ∧ CalendarDay.is_unavailable cell = false)
  ∧ CalendarDay.iso <$> filter (λ cell, CalendarDay.is_current_month cell = true)
                          (concat weeks)
    = seqZ (month_first y m) (datetime._days_in_month y m).
Proof.
  intros Hanchor Hrun. cbv zeta.
  destruct (build_calendar_Some_inv _ _ _ _ _ _ _ _ _ Hanchor Hrun) as (Hym & -> & Hmax).
  rewrite (build_calendar_eq y m _ _ _ _ _ Hym Hmax) in Hrun. injection Hrun as <-.
  cbn [CalendarResponse.calendar CalendarMonth.weeks].
  destruct (year_month_first y m Hym) as [_ Hmonth].
  split.
  - intros week cell Hweek Hcell.
    destruct (cell_of_view y m _ week cell Hym Hweek Hcell) as (d & -> & Hd).
    cbn. rewrite Hmonth, !bool_decide_eq_true.
    split; [| done]. by apply month_of_grid_day.
  - rewrite cells_of_grid by done.
    destruct (grid_span y m Hym) as (H1 & H2 & _).
    pose proof (last_day_first y m) as Hl.
    pose proof (days_in_month_bounds y m (proj2 Hym)) as Hn.
    set (f := calendar_day _ _ _).
    assert (∀ l : list Z,
              CalendarDay.iso <$> filter (λ cell, CalendarDay.is_current_month cell = true)
                                    (f <$> l)
              = filter (λ d, datetime.month d = m) l) as ->.
    { induction l as [| d l IH]; [done |]. cbn [fmap list_fmap]. rewrite !filter_cons.
      assert (CalendarDay.is_current_month (f d) = true ↔ datetime.month d = m) as Hflag
        by (unfold f; cbn; by rewrite Hmonth, bool_decide_eq_true).
      destruct (decide (datetime.month d = m)) as [Hd | Hd].
      - rewrite decide_True by (by apply Hflag). cbn [fmap list_fmap]. by rewrite IH.
      - rewrite decide_False by (by rewrite Hflag). done. }
    rewrite (filter_seqZ_interval _ _ _ (month_first y m) (month_last y m)); try lia.
    + f_equal. lia.
    + intros d Hd. apply month_of_grid_day; [done | done | lia].
Qed.

Lemma cells_flag_the_days_of_the_month_and_today_witness :
  ∃ resp,
    _build_calendar 739403 scenario.house
      (database.bookings (tables scenario.C_created)) None 739412 5000 = Some resp
    ∧ CalendarDay.iso
        <$> filter (λ cell, CalendarDay.is_current_month cell = true)
              (concat (CalendarMonth.weeks (CalendarResponse.calendar resp)))
      = seqZ (month_first 2025 6) (datetime._days_in_month 2025 6).
Proof.
  eexists. split; [vm_compute; reflexivity |].
  match goal with
  | |- context [CalendarResponse.calendar ?r] =>
      destruct (cells_flag_the_days_of_the_month_and_today 2025 6 739403
                  scenario.house (database.bookings (tables scenario.C_created))
                  None 739412 5000 r)
        as (_ & Hdays)
  end.
  - reflexivity.
  - vm_compute. reflexivity.
  - exact Hdays.
Defined.

(** Property X12.  The remaining slots of the month are the sum, over the days
    of the anchor month only, of each day's [max 0 (1 - approvedCount)], where
    [approvedCount] is the number of approved bookings whose span contains the
    day; the figure lies between 0 and the number of days of the month. *)
Theorem month_remaining_slots_sum_the_days_of_the_month
    (y m : Z) (anchor : datetime.date) (resource_id : string) (bookings : list Booking.t)
    (selected_date : option datetime.date) (today : datetime.date)
    (now : datetime.datetime) (resp : CalendarResponse.t) :
  datetime.date_new y m 1 = Some anchor →
  _build_calendar anchor resource_id bookings selected_date today now = Some resp →
  let remaining := CalendarMonth.remaining_slots (CalendarResponse.calendar resp) in
  remaining
  = sum_over (λ d, Z.max 0 (1 - count_containing approved bookings d))
      (seqZ (month_first y m) (datetime._days_in_month y m))
  ∧ 0 ≤ remaining ≤ datetime._days_in_month y m.
Proof.
  intros Hanchor Hrun. cbv zeta.
  destruct (build_calendar_Some_inv _ _ _ _ _ _ _ _ _ Hanchor Hrun) as (Hym & -> & Hmax).
  rewrite (build_calendar_eq y m _ _ _ _ _ Hym Hmax) in Hrun. injection Hrun as <-.
  cbn [CalendarResponse.calendar CalendarMonth.remaining_slots].
  destruct (year_month_first y m Hym) as [_ Hmonth].
  destruct (grid_span y m Hym) as (H1 & H2 & _).
  pose proof (last_day_first y m) as Hl.
  pose proof (days_in_month_bounds y m (proj2 Hym)) as Hn.
  rewrite cells_of_grid by done. rewrite month_loop_total.
  cbn [calendar_day CalendarDay.is_current_month CalendarDay.remaining_slots].
  rewrite Hmonth.
  rewrite (filter_seqZ_interval _ _ _ (month_first y m) (month_last y m)); try lia.
  2:{ intros d Hd. rewrite bool_decide_eq_true. apply month_of_grid_day; [done | done | lia]. }
  replace (month_last y m + 1 - month_first y m) with (datetime._days_in_month y m) by lia.
  rewrite Z.add_0_l.
  assert (sum_over
            (λ d, Z.max 0 (CAPACITY_PER_DAY
                           - approved_count
                               (get_day (foldl (bucket (grid_first y m) (grid_last y m))
                                           ∅ bookings) d)))
            (seqZ (month_first y m) (datetime._days_in_month y m))
          = sum_over (λ d, Z.max 0 (1 - count_containing approved bookings d))
              (seqZ (month_first y m) (datetime._days_in_month y m))) as ->.
  { apply sum_over_ext. intros d Hd%elem_of_seqZ.
    rewrite approved_count_by_day, count_on_containing by lia. done. }
  split; [done |].
  pose proof (sum_over_bounds (λ d, Z.max 0 (1 - count_containing approved bookings d))
                0 1 (seqZ (month_first y m) (datetime._days_in_month y m))) as Hb.
  rewrite length_seqZ in Hb. rewrite Z2Nat.id in Hb by lia.
  assert (∀ d, 0 ≤ count_containing approved bookings d) by (intros; unfold count_containing; lia).
  assert (∀ d, d ∈ seqZ (month_first y m) (datetime._days_in_month y m) →
               0 ≤ Z.max 0 (1 - count_containing approved bookings d) ≤ 1) as Hday
    by (intros d _; specialize (H d); lia).
  specialize (Hb Hday). unfold datetime.date in *. lia.
Qed.

Lemma month_remaining_slots_sum_the_days_of_the_month_witness :
  ∃ resp,
    _build_calendar 739403 scenario.house
      (database.bookings (tables scenario.C_created)) None 739412 5000 = Some resp
    ∧ CalendarMonth.remaining_slots (CalendarResponse.calendar resp) = 27
    ∧ CalendarMonth.remaining_slots (CalendarResponse.calendar resp)
      = sum_over (λ d, Z.max 0 (1 - count_containing approved
                                      (database.bookings (tables scenario.C_created)) d))
          (seqZ (month_first 2025 6) (datetime._days_in_month 2025 6)).
Proof.
  eexists. split; [vm_compute; reflexivity |]. split; [reflexivity |].
  match goal with
  | |- context [CalendarResponse.calendar ?r] =>
      destruct (month_remaining_slots_sum_the_days_of_the_month 2025 6 739403
                  scenario.house (database.bookings (tables scenario.C_created))
                  None 739412 5000 r)
        as (Hsum & _)
  end.
  - reflexivity.
  - vm_compute. reflexivity.
  - exact Hsum.
Defined.
End month_view.

(** ** The selected day and the day lists *)

Section day_lists.
Import bookings spec spec_more.

Lemma sorted_renders {A} (render : Booking.t → A) (P Q : Booking.t → Prop)
    `{!∀ b, Decision (P b)} `{!∀ b, Decision (Q b)} (fetched bookings : list Booking.t) :
  filter Q fetched = filter P bookings →
  renders render (render <$> sorted booking_key (filter Q fetched)) P bookings.
Proof.
  intros Heq. exists (sorted booking_key (filter Q fetched)).
  split; [done |]. split; [by rewrite sorted_Permutation, Heq | apply sorted_ascending].
Qed.

(** Property X13.  The selected day of a view is the requested day when that
    day lies in the grid, and the first day of the anchor month when it lies
    outside; with no day requested it is today when today lies in the anchor
    month, and the first day of the anchor month otherwise.  It always lies in
    the grid, and the day detail of the view is the detail of that day. *)
Theorem selected_day_is_the_request_today_or_the_first
    (y m : Z) (anchor : datetime.date) (resource_id : string) (bookings : list Booking.t)
    (selected_date : option datetime.date) (today : datetime.date)
    (now : datetime.datetime) (resp : CalendarResponse.t) :
  datetime.date_new y m 1 = Some anchor →
  1 ≤ today ≤ datetime._MAXORDINAL →
  _build_calendar anchor resource_id bookings selected_date today now = Some resp →
  let selected := CalendarMonth.selected_iso (CalendarResponse.calendar resp) in
  CalendarDayDetail.iso (CalendarResponse.selected_day resp) = selected
  ∧ grid_first y m ≤ selected ≤ grid_last y m
  ∧ match selected_date with
    | Some d => selected = if decide (grid_first y m ≤ d ≤ grid_last y m) then d else anchor
    | None =>
        selected = if decide (month_first y m ≤ today ≤ month_last y m) then today else anchor
    end.
Proof.
  intros Hanchor Htoday Hrun. cbv zeta.
  destruct (build_calendar_Some_inv _ _ _ _ _ _ _ _ _ Hanchor Hrun) as (Hym & -> & Hmax).
  rewrite (build_calendar_eq y m _ _ _ _ _ Hym Hmax) in Hrun. injection Hrun as <-.
  cbn [CalendarResponse.calendar CalendarResponse.selected_day CalendarMonth.selected_iso
       _build_day_detail CalendarDayDetail.iso].
  pose proof (month_first_in_grid y m Hym) as Hfirst.
  destruct (grid_span y m Hym) as (H1 & H2 & _).
  pose proof (date_in_month today y m Htoday Hym) as Hin.
  split; [done |]. destruct selected_date as [d |].
  - split; [destruct (_ || _) eqn:E; lia |].
    destruct (decide (grid_first y m ≤ d ≤ grid_last y m)) as [Hd | Hd].
    + by replace ((d <? grid_first y m) || (grid_last y m <? d)) with false by lia.
    + by replace ((d <? grid_first y m) || (grid_last y m <? d)) with true by lia.
  - destruct (decide (month_first y m ≤ today ≤ month_last y m)) as [Hd | Hd].
    + replace (bool_decide (y = datetime.year today)
               && bool_decide (m = datetime.month today)) with true.
      2:{ symmetry. apply andb_true_iff. rewrite !bool_decide_eq_true.
          apply Hin in Hd as [<- <-]. done. }
      replace ((today <? grid_first y m) || (grid_last y m <? today)) with false by lia.
      split; [lia | done].
    + replace (bool_decide (y = datetime.year today)
               && bool_decide (m = datetime.month today)) with false.
      2:{ symmetry. apply not_true_is_false. rewrite andb_true_iff, !bool_decide_eq_true.
          intros [-> ->]. apply Hd, Hin. done. }
      replace ((month_first y m <? grid_first y m) || (grid_last y m <? month_first y m))
        with false by lia.
      split; [lia | done].
Qed.

Lemma selected_day_is_the_request_today_or_the_first_witness :
  ∃ resp,
    _build_calendar 739403 scenario.house
      (database.bookings (tables scenario.C_created)) (Some 739500) 739412 5000 = Some resp
    ∧ CalendarMonth.selected_iso (CalendarResponse.calendar resp) = 739403
    ∧ CalendarMonth.selected_iso (CalendarResponse.calendar resp)
      = if decide (grid_first 2025 6 ≤ 739500 ≤ grid_last 2025 6) then 739500 else 739403.
Proof.
  eexists. split; [vm_compute; reflexivity |]. split; [reflexivity |].
  match goal with
  | |- context [CalendarResponse.calendar ?r] =>
      destruct (selected_day_is_the_request_today_or_the_first 2025 6 739403
                  scenario.house (database.bookings (tables scenario.C_created))
                  (Some 739500) 739412 5000 r)
        as (_ & _ & Hsel)
  end.
  - reflexivity.
  - unfold datetime._MAXORDINAL. lia.
  - vm_compute. reflexivity.
  - exact Hsel.
Defined.

(** Property X14.  Every cell of a view, and its selected-day detail, lists
    the bookings whose span contains the day, whatever their status, each once
    and in ascending order of (start date, id). *)
Theorem day_lists_hold_the_bookings_of_the_day_in_order
    (y m : Z) (anchor : datetime.date) (resource_id : string) (bookings : list Booking.t)
    (selected_date : option datetime.date) (today : datetime.date)
    (now : datetime.datetime) (resp : CalendarResponse.t) :
  datetime.date_new y m 1 = Some anchor →
  _build_calendar anchor resource_id bookings selected_date today now = Some resp →
  (∀ week cell,
     week ∈ CalendarMonth.weeks (CalendarResponse.calendar resp) → cell ∈ week →
     renders _booking_summary (CalendarDay.bookings cell)
       (contains (CalendarDay.iso cell)) bookings)
  ∧ renders _booking_summary
      (CalendarDayDetail.bookings (CalendarResponse.selected_day resp))
      (contains (CalendarDayDetail.iso (CalendarResponse.selected_day resp))) bookings.
Proof.
  intros Hanchor Hrun.
  destruct (build_calendar_Some_inv _ _ _ _ _ _ _ _ _ Hanchor Hrun) as (Hym & -> & Hmax).
  rewrite (build_calendar_eq y m _ _ _ _ _ Hym Hmax) in Hrun. injection Hrun as <-.
  cbn [CalendarResponse.calendar CalendarResponse.selected_day CalendarMonth.weeks
       _build_day_detail CalendarDayDetail.iso CalendarDayDetail.bookings].
  pose proof (month_first_in_grid y m Hym) as Hfirst.
  assert (∀ d, grid_first y m ≤ d ≤ grid_last y m →
               renders _booking_summary
                 (_booking_summary
                    <$> sorted booking_key
                          (get_day (foldl (bucket (grid_first y m) (grid_last y m)) ∅ bookings)
                             d))
                 (contains d) bookings) as Hday.
  { intros d Hd. rewrite get_day_in_grid by done.
    exists (sorted booking_key (filter (contains d) bookings)).
    split; [done |]. split; [apply sorted_Permutation | apply sorted_ascending]. }
  split.
  - intros week cell Hweek Hcell.
    destruct (cell_of_view y m _ week cell Hym Hweek Hcell) as (d & -> & Hd).
    cbn [calendar_day CalendarDay.bookings CalendarDay.iso]. by apply Hday.
  - apply Hday. destruct (_ || _) eqn:E; lia.
Qed.

Lemma day_lists_hold_the_bookings_of_the_day_in_order_witness :
  ∃ resp,
    _build_calendar 739403 scenario.house
      (database.bookings (tables scenario.C_created)) (Some 739412) 739412 5000 = Some resp
    ∧ CalendarDayDetail.bookings (CalendarResponse.selected_day resp)
      = [_booking_summary scenario.booking_A]
    ∧ renders _booking_summary
        (CalendarDayDetail.bookings (CalendarResponse.selected_day resp))
        (contains (CalendarDayDetail.iso (CalendarResponse.selected_day resp)))
        (database.bookings (tables scenario.C_created)).
Proof.
  eexists. split; [vm_compute; reflexivity |]. split; [reflexivity |].
  match goal with
  | |- context [CalendarResponse.selected_day ?r] =>
      destruct (day_lists_hold_the_bookings_of_the_day_in_order 2025 6 739403
                  scenario.house (database.bookings (tables scenario.C_created))
                  (Some 739412) 739412 5000 r)
        as (_ & Hsel)
  end.
  - reflexivity.
  - vm_compute. reflexivity.
  - exact Hsel.
Defined.
End day_lists.

(** ** The calendar endpoint *)

Section calendar_endpoint.
Import bookings spec spec_more.

Lemma get_calendar_invalid_month (db : Database) y m selected_date resource_id
    today_anchor today now :
  datetime.fits_c_int y = true → datetime.fits_c_int m = true →
  ¬ anchor_month y m →
  get_db (get_calendar (Some (y, m)) selected_date resource_id today_anchor today now) db
  = (inl (mkHTTPException 422 "Invalid month format"), db).
Proof.
  intros Hy Hm Hym. unfold get_db, get_calendar, _month_anchor. rewrite Hy, Hm. cbn [andb].
  assert (datetime.date_new y m 1 = None) as ->.
  { unfold datetime.date_new, datetime.MINYEAR, datetime.MAXYEAR.
    destruct (_ && _) eqn:E; [| done]. exfalso. apply Hym. unfold anchor_month. lia. }
  by destruct db.
Qed.

Lemma get_calendar_december_9999 (db : Database) selected_date resource_id
    today_anchor today now :
  get_db (get_calendar (Some (9999, 12)) selected_date resource_id today_anchor today now) db
  = (inl (mkHTTPException 500 "Internal Server Error"), db).
Proof.
  unfold get_db, get_calendar, _month_anchor.
  change (datetime.fits_c_int 9999 && datetime.fits_c_int 12) with true. cbv iota.
  change (datetime.date_new 9999 12 1) with (Some (month_first 9999 12)).
  unfold bind at 1. unfold ret at 1.
  assert (calendar.monthdatescalendar 0 (datetime.year (month_first 9999 12))
            (datetime.month (month_first 9999 12)) = None) as ->
    by (vm_compute; reflexivity).
  by destruct db.
Qed.

(** Property X15.  The calendar endpoint never writes.  A year and month
    number that are C ints and do not name a month of the years 1 to 9999 are
    answered with 422; December 9999 is answered with 500; every other month
    is answered with the view the builder makes of the bookings of the
    resource whose span meets the grid, anchored on the first day of the month
    and stamped with the time of the request. *)
Theorem calendar_endpoint_answers_every_month_but_december_9999
    (db : Database) (y m : Z) (selected_date : option datetime.date)
    (resource_id : string) (today_anchor today : datetime.date)
    (now : datetime.datetime) :
  let out :=
    get_db (get_calendar (Some (y, m)) selected_date resource_id today_anchor today now)
      db in
  out.2 = db
  ∧ (datetime.fits_c_int y = true → datetime.fits_c_int m = true →
     ¬ anchor_month y m →
     out.1 = inl (mkHTTPException 422 "Invalid month format"))
  ∧ ((y, m) = (9999, 12) →
     out.1 = inl (mkHTTPException 500 "Internal Server Error"))
  ∧ (anchor_month y m → (y, m) ≠ (9999, 12) →
     ∃ resp,
       out.1 = inr resp
       ∧ _build_calendar (month_first y m) resource_id
           (filter (λ b, Booking.resource_id b = resource_id
                         ∧ Booking.start_at b ≤ grid_last y m
                         ∧ grid_first y m ≤ Booking.end_at b)
              (database.bookings (tables db)))
           selected_date today now = Some resp
       ∧ CalendarMonth.month_label (CalendarResponse.calendar resp) = month_first y m
       ∧ CalendarMonth.updated_label (CalendarResponse.calendar resp) = now).
Proof.
  cbv zeta.
  destruct (decide (anchor_month y m)) as [Hym | Hym].
  - destruct (decide ((y, m) = (9999, 12))) as [[= -> ->] | Hmax].
    + rewrite get_calendar_december_9999. cbn [fst snd].
      split; [done |]. split; [done |]. split; [done |]. by intros _ Hne.
    + destruct (get_calendar_run db y m selected_date resource_id today_anchor today now
                  Hym Hmax)
        as (resp & -> & Hrun). cbn [fst snd].
      split; [done |]. split; [done |]. split; [done |]. intros _ _.
      exists resp. split; [done |].
      assert (filter (λ b, Booking.resource_id b = resource_id
                           ∧ Booking.start_at b ≤ grid_last y m
                           ∧ grid_first y m ≤ Booking.end_at b)
                (database.bookings (tables db))
              = filter (λ b, Booking.start_at b ≤ grid_last y m)
                  (filter (λ b, grid_first y m ≤ Booking.end_at b)
                     (filter (λ b, Booking.resource_id b = resource_id)
                        (database.bookings (tables db))))) as ->.
      { rewrite !list_filter_filter. apply list_filter_iff. intros b. tauto. }
      split; [done |].
      rewrite (build_calendar_eq y m _ _ _ _ _ Hym Hmax) in Hrun. by injection Hrun as <-.
  - split.
    { unfold get_db, get_calendar, _month_anchor.
      destruct (datetime.fits_c_int y && datetime.fits_c_int m);
        [destruct (datetime.date_new y m 1) eqn:E |]; try (by destruct db).
      apply date_new_first_inv in E as [E _]. done. }
    split; [intros Hy Hm _; by rewrite get_calendar_invalid_month |].
    split; [| done].
    intros [= -> ->]. exfalso. apply Hym. unfold anchor_month. lia.
Qed.

Lemma calendar_endpoint_answers_every_month_but_december_9999_witness :
  (get_db (get_calendar (Some (2025, 13)) None scenario.house 739412 739412 5000)
     scenario.C_created).1
  = inl (mkHTTPException 422 "Invalid month format").
Proof.
  destruct (calendar_endpoint_answers_every_month_but_december_9999
              scenario.C_created 2025 13 None scenario.house 739412 739412 5000)
    as (_ & Hinvalid & _).
  apply Hinvalid; [reflexivity | reflexivity |]. unfold anchor_month. lia.
Defined.

Lemma get_calendar_default_month selected_date resource_id today_anchor today now y m :
  anchor_month y m → datetime.year today_anchor = y → datetime.month today_anchor = m →
  get_calendar None selected_date resource_id today_anchor today now
  = get_calendar (Some (y, m)) selected_date resource_id today_anchor today now.
Proof.
  intros Hym Hy Hm. unfold get_calendar, _month_anchor. rewrite Hy, Hm.
  replace (datetime.fits_c_int y && datetime.fits_c_int m) with true
    by (unfold datetime.fits_c_int, anchor_month in *; lia).
  pose proof (days_in_month_bounds y m (proj2 Hym)).
  rewrite date_new_Some by (exact Hym || lia). reflexivity.
Qed.

(** the day the builder selects when none is requested *)
Lemma selected_without_request y m resource_id bookings today now resp :
  anchor_month y m → (y, m) ≠ (9999, 12) →
  1 ≤ today ≤ datetime._MAXORDINAL →
  _build_calendar (month_first y m) resource_id bookings None today now = Some resp →
  CalendarMonth.month_label (CalendarResponse.calendar resp) = month_first y m
  ∧ CalendarMonth.selected_iso (CalendarResponse.calendar resp)
    = (if decide (month_first y m ≤ today ≤ month_last y m) then today else month_first y m)
  ∧ CalendarDayDetail.iso (CalendarResponse.selected_day resp)
    = CalendarMonth.selected_iso (CalendarResponse.calendar resp).
Proof.
  intros Hym Hmax Hdate Hrun.
  rewrite (build_calendar_eq y m _ _ _ _ _ Hym Hmax) in Hrun. injection Hrun as <-.
  cbn [CalendarResponse.calendar CalendarResponse.selected_day CalendarMonth.month_label
       CalendarMonth.selected_iso _build_day_detail CalendarDayDetail.iso].
  destruct (grid_span y m Hym) as (H1 & H2 & _).
  pose proof (month_first_in_grid y m Hym) as Hfirst.
  pose proof (date_in_month today y m Hdate Hym) as Hin.
  split; [reflexivity |]. split; [| reflexivity].
  destruct (decide (month_first y m ≤ today ≤ month_last y m)) as [Hd | Hd].
  - replace (bool_decide (y = datetime.year today)
             && bool_decide (m = datetime.month today)) with true.
    2:{ symmetry. apply andb_true_iff. rewrite !bool_decide_eq_true.
        apply Hin in Hd as [<- <-]. done. }
    by replace ((today <? grid_first y m) || (grid_last y m <? today)) with false by lia.
  - replace (bool_decide (y = datetime.year today)
             && bool_decide (m = datetime.month today)) with false.
    2:{ symmetry. apply not_true_is_false. rewrite andb_true_iff, !bool_decide_eq_true.
        intros [-> ->]. apply Hd, Hin. done. }
    by replace ((month_first y m <? grid_first y m) || (grid_last y m <? month_first y m))
      with false by lia.
Qed.

(** Property X16.  With no month requested the calendar is that of the month
    of the day the clock shows when the anchor is derived: for every such day
    before December 9999 the endpoint answers with a view anchored on the
    first day of its month.  The builder reads the clock again: with no day
    requested either, the selected day is the day of that second reading when
    it still lies in the anchor month, and the first day of the anchor month
    when midnight has passed at the end of the month; it is today whenever the
    two readings agree. *)
Theorem calendar_defaults_to_the_month_on_the_clock
    (db : Database) (resource_id : string) (today_anchor today : datetime.date)
    (now : datetime.datetime) :
  1 ≤ today_anchor < month_first 9999 12 →
  1 ≤ today ≤ datetime._MAXORDINAL →
  ∃ y m resp,
    anchor_month y m
    ∧ month_first y m ≤ today_anchor ≤ month_last y m
    ∧ get_db (get_calendar None None resource_id today_anchor today now) db = (inr resp, db)
    ∧ CalendarMonth.month_label (CalendarResponse.calendar resp) = month_first y m
    ∧ CalendarMonth.selected_iso (CalendarResponse.calendar resp)
      = (if decide (month_first y m ≤ today ≤ month_last y m)
         then today else month_first y m)
    ∧ CalendarDayDetail.iso (CalendarResponse.selected_day resp)
      = CalendarMonth.selected_iso (CalendarResponse.calendar resp)
    ∧ (today = today_anchor →
       CalendarMonth.selected_iso (CalendarResponse.calendar resp) = today).
Proof.
  intros Hanchor Htoday.
  assert (month_first 9999 12 = 3652029) as Hdec by (vm_compute; reflexivity).
  assert (1 ≤ today_anchor ≤ datetime._MAXORDINAL) as Hdate
    by (unfold datetime._MAXORDINAL; lia).
  destruct (ord2ymd_valid today_anchor Hdate) as (Hym & _ & _).
  pose proof (get_calendar_default_month None resource_id today_anchor today now _ _ Hym
                eq_refl eq_refl) as Hdefault.
  pose proof (proj1 (date_in_month today_anchor _ _ Hdate Hym) (conj eq_refl eq_refl))
    as Hin.
  revert Hym Hdefault Hin.
  generalize (datetime.year today_anchor), (datetime.month today_anchor).
  intros y m Hym Hdefault Hin.
  assert ((y, m) ≠ (9999, 12)) as Hmax.
  { intros [= -> ->]. rewrite Hdec in Hin. lia. }
  destruct (get_calendar_run db y m None resource_id today_anchor today now Hym Hmax)
    as (resp & Hget & Hrun).
  exists y, m, resp. split; [exact Hym |]. split; [exact Hin |].
  split; [rewrite Hdefault; exact Hget |].
  destruct (selected_without_request y m resource_id
              (filter (λ b, Booking.start_at b ≤ grid_last y m)
                 (filter (λ b, grid_first y m ≤ Booking.end_at b)
                    (filter (λ b, Booking.resource_id b = resource_id)
                       (database.bookings (tables db)))))
              today now resp Hym Hmax Htoday Hrun) as (Hlabel & Hsel & Hiso).
  split; [exact Hlabel |]. split; [exact Hsel |]. split; [exact Hiso |].
  intros ->. rewrite Hsel. by rewrite decide_True.
Qed.

Lemma calendar_defaults_to_the_month_on_the_clock_witness :
  ∃ y m resp,
    anchor_month y m
    ∧ month_first y m ≤ 739432 ≤ month_last y m
    ∧ get_db (get_calendar None None scenario.house 739432 739433 5000) scenario.C_created
      = (inr resp, scenario.C_created)
    ∧ CalendarMonth.month_label (CalendarResponse.calendar resp) = month_first y m
    ∧ CalendarMonth.selected_iso (CalendarResponse.calendar resp)
      = (if decide (month_first y m ≤ 739433 ≤ month_last y m)
         then 739433 else month_first y m).
Proof.
  destruct (calendar_defaults_to_the_month_on_the_clock scenario.C_created scenario.house
              739432 739433 5000)
    as (y & m & resp & Hym & Hin & Hget & Hlabel & Hsel & _).
  - assert (month_first 9999 12 = 3652029) as -> by (vm_compute; reflexivity). lia.
  - unfold datetime._MAXORDINAL. lia.
  - exists y, m, resp. split; [exact Hym |]. split; [exact Hin |].
    split; [exact Hget |]. split; [exact Hlabel | exact Hsel].
Defined.

(** Property X17.  The pending digest of a calendar answer lists the pending
    bookings of the resource whose span meets the grid, not only those of the
    anchor month, each once and in ascending order of (start date, id). *)
Theorem pending_digest_lists_the_pending_bookings_of_the_grid
    (db : Database) (y m : Z) (selected_date : option datetime.date)
    (resource_id : string) (today_anchor today : datetime.date)
    (now : datetime.datetime) :
  anchor_month y m → (y, m) ≠ (9999, 12) →
  ∃ resp,
    get_db (get_calendar (Some (y, m)) selected_date resource_id today_anchor today now) db
    = (inr resp, db)
    ∧ renders pending_request (CalendarResponse.pending_requests resp)
        (λ b, Booking.resource_id b = resource_id
              ∧ Booking.status b = pending
              ∧ Booking.start_at b ≤ grid_last y m
              ∧ grid_first y m ≤ Booking.end_at b)
        (database.bookings (tables db)).
Proof.
  intros Hym Hmax.
  destruct (get_calendar_run db y m selected_date resource_id today_anchor today now
              Hym Hmax)
    as (resp & Hget & Hrun).
  exists resp. split; [done |].
  rewrite (build_calendar_eq y m _ _ _ _ _ Hym Hmax) in Hrun. injection Hrun as <-.
  cbn [CalendarResponse.pending_requests].
  apply sorted_renders. rewrite !list_filter_filter. apply list_filter_iff.
  intros b. tauto.
Qed.

Lemma pending_digest_lists_the_pending_bookings_of_the_grid_witness :
  ∃ resp,
    get_db (get_calendar (Some (2025, 6)) None scenario.house 739412 739412 5000)
      scenario.C_created
    = (inr resp, scenario.C_created)
    ∧ renders pending_request (CalendarResponse.pending_requests resp)
        (λ b, Booking.resource_id b = scenario.house
              ∧ Booking.status b = pending
              ∧ Booking.start_at b ≤ grid_last 2025 6
              ∧ grid_first 2025 6 ≤ Booking.end_at b)
        (database.bookings (tables scenario.C_created)).
Proof.
  apply (pending_digest_lists_the_pending_bookings_of_the_grid scenario.C_created 2025 6
           None scenario.house 739412 739412 5000).
  - unfold anchor_month. lia.
  - discriminate.
Defined.
End calendar_endpoint.

(** ** The month figures over a reachable store *)

Section calendar_store.
Import bookings spec spec_more.

Lemma NoDup_fmap_filter {A B} (f : A → B) (P : A → Prop) `{!∀ x, Decision (P x)}
    (l : list A) :
  NoDup (f <$> l) → NoDup (f <$> filter P l).
Proof.
  induction l as [| x l IH]; [done |]. cbn [fmap list_fmap].
  intros [Hx Hl]%NoDup_cons. rewrite filter_cons.
  destruct (decide (P x)); [| by apply IH]. cbn [fmap list_fmap].
  apply NoDup_cons. split; [| by apply IH].
  intros (y & Hy & [_ Hin]%list_elem_of_filter)%list_elem_of_fmap.
  apply Hx, list_elem_of_fmap. by exists y.
Qed.

Lemma store_inv_NoDup_ids db :
  store_inv db → NoDup (Booking.id <$> database.bookings (tables db)).
Proof.
  intros Hinv. apply NoDup_alt. intros i j x Hi Hj.
  rewrite list_lookup_fmap in Hi, Hj.
  apply fmap_Some in Hi as (b1 & Hi & ->). apply fmap_Some in Hj as (b2 & Hj & Heq).
  destruct (decide (i = j)) as [| Hne]; [done | exfalso].
  by apply (inv_ids_distinct db Hinv i j b1 b2).
Qed.

(** the number of distinct ids of a selection of rows with distinct ids *)
Lemma distinct_ids_count (P : Booking.t → Prop) `{!∀ b, Decision (P b)}
    (l : list Booking.t) :
  NoDup (Booking.id <$> l) →
  size (list_to_set (C := gset Z) (Booking.id <$> filter P l)) = length (filter P l).
Proof.
  intros Hl. rewrite size_list_to_set by (by apply NoDup_fmap_filter).
  by rewrite length_fmap.
Qed.

(** Property X18.  On a reachable store the month figures of a calendar answer
    count rows: the total is the number of pending or approved bookings of the
    resource whose span meets the anchor month, the pending count the number
    of pending ones among them; declined and cancelled bookings count in
    neither, and the pending count never exceeds the total. *)
Theorem month_totals_count_the_bookings_that_meet_the_month
    (db : Database) (y m : Z) (selected_date : option datetime.date)
    (resource_id : string) (today_anchor today : datetime.date)
    (now : datetime.datetime) :
  reachable db → anchor_month y m → (y, m) ≠ (9999, 12) →
  ∃ resp,
    get_db (get_calendar (Some (y, m)) selected_date resource_id today_anchor today now) db
    = (inr resp, db)
    ∧ CalendarMonth.total_bookings (CalendarResponse.calendar resp)
      = Z.of_nat (length (filter (λ b, Booking.resource_id b = resource_id
                                       ∧ overlaps (month_first y m) (month_last y m) b
                                       ∧ (Booking.status b = pending
                                          ∨ Booking.status b = approved))
                            (database.bookings (tables db))))
    ∧ CalendarMonth.pending_count (CalendarResponse.calendar resp)
      = Z.of_nat (length (filter (λ b, Booking.resource_id b = resource_id
                                       ∧ overlaps (month_first y m) (month_last y m) b
                                       ∧ Booking.status b = pending)
                            (database.bookings (tables db))))
    ∧ 0 ≤ CalendarMonth.pending_count (CalendarResponse.calendar resp)
        ≤ CalendarMonth.total_bookings (CalendarResponse.calendar resp).
Proof.
  intros Hreach Hym Hmax.
  pose proof (store_inv_NoDup_ids db (reachable_store_inv db Hreach)) as Hids.
  destruct (get_calendar_run db y m selected_date resource_id today_anchor today now
              Hym Hmax)
    as (resp & Hget & Hrun).
  exists resp. split; [exact Hget |].
  rewrite (build_calendar_eq y m _ _ _ _ _ Hym Hmax) in Hrun. injection Hrun as <-.
  cbn [CalendarResponse.calendar CalendarMonth.total_bookings CalendarMonth.pending_count].
  destruct (grid_span y m Hym) as (H1 & H2 & _).
  pose proof (last_day_first y m) as Hl.
  pose proof (days_in_month_bounds y m (proj2 Hym)) as Hn.
  set (fetched := filter (λ b, Booking.start_at b ≤ grid_last y m) _).
  assert (NoDup (Booking.id <$> fetched)) as Hfetched
    by (unfold fetched; by do 3 apply NoDup_fmap_filter).
  rewrite !distinct_ids_count by done.
  assert (∀ (P : Booking.t → Prop) `{!∀ b, Decision (P b)},
            filter (λ b, P b ∧ Booking.start_at b ≤ month_last y m
                         ∧ month_first y m ≤ Booking.end_at b) fetched
            = filter (λ b, Booking.resource_id b = resource_id
                           ∧ overlaps (month_first y m) (month_last y m) b ∧ P b)
                (database.bookings (tables db))) as Hrows.
  { intros P HP. unfold fetched. rewrite !list_filter_filter. apply list_filter_iff.
    intros b. unfold overlaps. intuition lia. }
  rewrite (Hrows (λ b, Booking.status b = pending ∨ Booking.status b = approved) _).
  rewrite (Hrows (λ b, Booking.status b = pending) _).
  split; [done |]. split; [done |]. split; [lia |].
  apply inj_le. rewrite <- (list_filter_filter_l _ (λ b, Booking.resource_id b = resource_id
                              ∧ overlaps (month_first y m) (month_last y m) b
                              ∧ (Booking.status b = pending ∨ Booking.status b = approved))).
  - apply length_filter.
  - intros b (Hr & Ho & Hs). split; [done | split; [done | by left]].
Qed.

Lemma month_totals_count_the_bookings_that_meet_the_month_witness :
  ∃ resp,
    get_db (get_calendar (Some (2025, 6)) None scenario.house 739412 739412 5000)
      scenario.C_created
    = (inr resp, scenario.C_created)
    ∧ CalendarMonth.total_bookings (CalendarResponse.calendar resp)
      = Z.of_nat (length (filter (λ b, Booking.resource_id b = scenario.house
                                       ∧ overlaps (month_first 2025 6) (month_last 2025 6) b
                                       ∧ (Booking.status b = pending
                                          ∨ Booking.status b = approved))
                            (database.bookings (tables scenario.C_created)))).
Proof.
  destruct (month_totals_count_the_bookings_that_meet_the_month scenario.C_created 2025 6
              None scenario.house 739412 739412 5000)
    as (resp & Hget & Htotal & _).
  - unfold scenario.C_created, scenario.A_approved, scenario.A_created.
    do 3 apply reachable_step. apply reachable_empty.
  - unfold anchor_month. lia.
  - discriminate.
  - exists resp. split; [exact Hget | exact Htotal].
Defined.
End calendar_store.

(** ** The day endpoint, and the days of a reachable store *)

Section day_endpoint.
Import bookings spec spec_more.

Lemma approved_count_pos (l : list Booking.t) :
  1 ≤ approved_count l ↔ ∃ b, b ∈ l ∧ Booking.status b = approved.
Proof.
  unfold approved_count. split.
  - intros Hlen. destruct (filter _ l) as [| b l'] eqn:E; [cbn in Hlen; lia |].
    assert (b ∈ filter (λ b, Booking.status b = approved) l) as Hin by (rewrite E; left).
    apply list_elem_of_filter in Hin as [Hst Hin]. by exists b.
  - intros (b & Hb & Hst).
    assert (b ∈ filter (λ b, Booking.status b = approved) l) as Hin
      by (by apply list_elem_of_filter).
    destruct (filter _ l); [by apply elem_of_nil in Hin | cbn; lia].
Qed.

(** Property X19.  The day endpoint never fails and never writes.  Its answer
    lists the bookings of the resource whose span contains the day, whatever
    their status, each once and in ascending order of (start date, id).  The
    summary reads all slots filled exactly when an approved booking of the
    resource contains the day, wide open exactly when no booking of the
    resource contains it, and review requests in the remaining case, which
    includes a day that only declined bookings contain. *)
Theorem day_endpoint_summarises_the_bookings_of_the_day
    (db : Database) (date_value : datetime.date) (resource_id : string) :
  ∃ detail,
    get_db (get_calendar_day date_value resource_id) db = (inr detail, db)
    ∧ CalendarDayDetail.iso detail = date_value
    ∧ renders _booking_summary (CalendarDayDetail.bookings detail)
        (λ b, Booking.resource_id b = resource_id ∧ contains date_value b)
        (database.bookings (tables db))
    ∧ (CalendarDayDetail.summary detail = AllSlotsFilled
       ↔ ∃ b, b ∈ database.bookings (tables db) ∧ occupies resource_id date_value b)
    ∧ (CalendarDayDetail.summary detail = WideOpen
       ↔ ∀ b, b ∈ database.bookings (tables db) →
              Booking.resource_id b = resource_id → ¬ contains date_value b)
    ∧ (CalendarDayDetail.summary detail = ReviewRequests
       ↔ (∃ b, b ∈ database.bookings (tables db)
               ∧ Booking.resource_id b = resource_id ∧ contains date_value b)
         ∧ ¬ ∃ b, b ∈ database.bookings (tables db) ∧ occupies resource_id date_value b).
Proof.
  eexists. split; [apply get_calendar_day_run |].
  set (rows := filter (λ b, Booking.start_at b ≤ date_value ∧ date_value ≤ Booking.end_at b) _).
  assert (rows = filter (λ b, Booking.resource_id b = resource_id ∧ contains date_value b)
                   (database.bookings (tables db))) as Hrows.
  { unfold rows. rewrite !list_filter_filter. apply list_filter_iff.
    intros b. unfold contains. intuition lia. }
  assert (∀ b, b ∈ rows ↔ b ∈ database.bookings (tables db)
                          ∧ Booking.resource_id b = resource_id ∧ contains date_value b)
    as Hin by (intros b; rewrite Hrows, list_elem_of_filter; tauto).
  assert (1 ≤ approved_count rows
          ↔ ∃ b, b ∈ database.bookings (tables db) ∧ occupies resource_id date_value b)
    as Happroved.
  { rewrite approved_count_pos. unfold occupies, contains in *. split.
    - intros (b & Hb%Hin & Hst). exists b. tauto.
    - intros (b & Hb & Hocc). exists b. split; [apply Hin |]; tauto. }
  clearbody rows.
  unfold _build_day_detail, CAPACITY_PER_DAY.
  cbn [CalendarDayDetail.iso CalendarDayDetail.bookings CalendarDayDetail.summary].
  split; [done |]. split.
  { exists (sorted booking_key rows). split; [done |].
    split; [by rewrite sorted_Permutation, Hrows | apply sorted_ascending]. }
  destruct (Z.leb_spec 1 (approved_count rows)) as [Hfull | Hfree].
  - apply Happroved in Hfull as Hsome. split; [| split].
    + split; [by intros _ | done].
    + split; [done |]. intros Hnone. destruct Hsome as (b & Hb & Hr & _ & Hc).
      exfalso. by apply (Hnone b).
    + split; [done |]. by intros [_ Hno].
  - assert (¬ ∃ b, b ∈ database.bookings (tables db) ∧ occupies resource_id date_value b)
      as Hno by (rewrite <- Happroved; lia).
    destruct rows as [| b rows].
    + split; [| split].
      * split; [done | by intros ?].
      * split; [intros _ | done]. intros b Hb Hr Hc. by apply (elem_of_nil b), Hin.
      * split; [done |]. intros [(b & Hb) _]. exfalso. by apply (elem_of_nil b), Hin.
    + assert (b ∈ b :: rows) as Hb by left. apply Hin in Hb as (Hb & Hr & Hc).
      split; [| split].
      * split; [done | by intros ?].
      * split; [done |]. intros Hnone. by apply (Hnone b) in Hc.
      * split; [intros _ | done]. split; [by exists b | done].
Qed.

(** Property X20.  On a reachable store at most one approved booking of the
    resource contains any day of a calendar answer, so a day is full exactly
    when one does, and its remaining slots are 1 less the number of those
    bookings: 0 on a full day and 1 on any other day. *)
Theorem calendar_days_hold_at_most_one_approved_booking
    (db : Database) (y m : Z) (selected_date : option datetime.date)
    (resource_id : string) (today_anchor today : datetime.date)
    (now : datetime.datetime) :
  reachable db → anchor_month y m → (y, m) ≠ (9999, 12) →
  ∃ resp,
    get_db (get_calendar (Some (y, m)) selected_date resource_id today_anchor today now) db
    = (inr resp, db)
    ∧ ∀ week cell,
        week ∈ CalendarMonth.weeks (CalendarResponse.calendar resp) → cell ∈ week →
        let taken :=
          filter (occupies resource_id (CalendarDay.iso cell))
            (database.bookings (tables db)) in
        (length taken ≤ 1)%nat
        ∧ (CalendarDay.is_full cell = true ↔ ∃ b, taken = [b])
        ∧ CalendarDay.remaining_slots cell = 1 - Z.of_nat (length taken)
        ∧ (CalendarDay.is_full cell = false ↔ CalendarDay.remaining_slots cell = 1).
Proof.
  intros Hreach Hym Hmax.
  pose proof (reachable_store_inv db Hreach) as Hinv.
  destruct (get_calendar_run db y m selected_date resource_id today_anchor today now
              Hym Hmax)
    as (resp & Hget & Hrun).
  exists resp. split; [exact Hget |].
  rewrite (build_calendar_eq y m _ _ _ _ _ Hym Hmax) in Hrun. injection Hrun as <-.
  cbn [CalendarResponse.calendar CalendarMonth.weeks].
  intros week cell Hweek Hcell.
  destruct (cell_of_view y m _ week cell Hym Hweek Hcell) as (d & -> & Hd).
  cbn [calendar_day CalendarDay.iso CalendarDay.is_full CalendarDay.remaining_slots].
  cbv zeta. unfold CAPACITY_PER_DAY.
  rewrite approved_count_by_day, count_on_containing, count_containing_fetched by done.
  assert (count_containing approved
            (filter (λ b, Booking.resource_id b = resource_id)
               (database.bookings (tables db))) d
          = Z.of_nat (length (filter (occupies resource_id d)
                                (database.bookings (tables db))))) as ->.
  { unfold count_containing. rewrite list_filter_filter. do 2 f_equal.
    apply list_filter_iff. intros b. unfold occupies. tauto. }
  assert (length (filter (occupies resource_id d) (database.bookings (tables db))) ≤ 1)%nat
    as Hone.
  { apply filter_at_most_one. intros i j b1 b2 Hi Hj Hne Ho1 Ho2.
    destruct Ho1 as (Hr1 & Hs1 & Hlo1 & Hhi1), Ho2 as (Hr2 & Hs2 & Hlo2 & Hhi2).
    apply (inv_no_clash db Hinv i j b1 b2 Hi Hj Hne Hs1 Hs2).
    unfold clash. rewrite Hr1, Hr2. split; [done | lia]. }
  destruct (filter (occupies resource_id d) (database.bookings (tables db)))
    as [| b [| b' rest]] eqn:E; cbn [length] in *; [| | lia].
  - split; [lia |]. split; [| split; [done | done]].
    split; [done | by intros [b Hb]].
  - split; [lia |]. split; [| split; [done | done]].
    split; [by exists b | done].
Qed.

Lemma calendar_days_hold_at_most_one_approved_booking_witness :
  ∃ resp,
    get_db (get_calendar (Some (2025, 6)) None scenario.house 739412 739412 5000)
      scenario.C_created
    = (inr resp, scenario.C_created)
    ∧ ∀ week cell,
        week ∈ CalendarMonth.weeks (CalendarResponse.calendar resp) → cell ∈ week →
        (length (filter (occupies scenario.house (CalendarDay.iso cell))
                   (database.bookings (tables scenario.C_created))) ≤ 1)%nat.
Proof.
  destruct (calendar_days_hold_at_most_one_approved_booking scenario.C_created 2025 6
              None scenario.house 739412 739412 5000)
    as (resp & Hget & Hcells).
  - unfold scenario.C_created, scenario.A_approved, scenario.A_created.
    do 3 apply reachable_step. apply reachable_empty.
  - unfold anchor_month. lia.
  - discriminate.
  - exists resp. split; [exact Hget |]. intros week cell Hweek Hcell.
    exact (proj1 (Hcells week cell Hweek Hcell)).
Defined.
End day_endpoint.

(** ** Decisions, and the two calendar endpoints together *)

Section compositions.
Import bookings spec spec_more.

(** Property X21.  A decision succeeds on exactly these bookings: an approval
    when the id names a pending booking that no approved booking of the same
    resource, other than itself, overlaps; a refusal when the id names a
    pending booking.  A decision on an id the INTEGER key column can hold that
    fails is answered with 404 or 409 and leaves the store as it was. *)
Theorem decisions_succeed_exactly_on_free_pending_bookings
    (db : Database) (booking_id : Z) (payload : BookingDecision.t)
    (now : datetime.datetime) :
  ((∃ read db', run (Approve booking_id payload now) db = (inr read, db'))
   ↔ ∃ b, booking_by_id db booking_id = Some b
          ∧ Booking.status b = pending
          ∧ ∀ b', b' ∈ database.bookings (tables db) →
                  Booking.status b' = approved → Booking.id b' ≠ booking_id →
                  ¬ clash b b')
  ∧ ((∃ read db', run (Decline booking_id payload now) db = (inr read, db'))
     ↔ ∃ b, booking_by_id db booking_id = Some b ∧ Booking.status b = pending)
  ∧ (int32 booking_id →
     ∀ e db',
       run (Approve booking_id payload now) db = (inl e, db')
       ∨ run (Decline booking_id payload now) db = (inl e, db') →
       db' = db ∧ (NotFoundError e ∨ ConflictError e)).
Proof.
  assert (∀ b b', Booking.id b = booking_id →
            (conflicts_with (Booking.resource_id b) (Booking.start_at b) (Booking.end_at b)
               (Some (Booking.id b)) b'
             ↔ Booking.status b' = approved ∧ Booking.id b' ≠ booking_id ∧ clash b b'))
    as Hconf.
  { intros b b' <-. unfold conflicts_with, clash. split.
    - intros (Hr & Hs & H1 & H2 & Hne). repeat split; try done; try lia.
      by apply Hne.
    - intros (Hs & Hne & Hr & H1 & H2). repeat split; try done; try lia.
      by intros ? [= <-]. }
  cbn [run].
  pose proof (approve_booking_run db booking_id payload now) as Ha.
  pose proof (decline_booking_run db booking_id payload now) as Hd.
  cbv zeta in Ha, Hd. split; [| split].
  - destruct Ha as [[Hnone ->] | (b & Hb & [[Hst ->] | [(Hst & Hex & ->) | (Hst & Hall & read & _ & ->)]])].
    + split; [by intros (? & ? & ?) |]. intros (b & Hb & _). congruence.
    + split; [by intros (? & ? & ?) |]. intros (b0 & Hb0 & Hst0 & _). congruence.
    + split; [by intros (? & ? & ?) |]. intros (b0 & Hb0 & Hst0 & Hfree).
      assert (b0 = b) as -> by congruence.
      destruct (booking_by_id_Some _ _ _ Hb) as [_ Hid].
      apply Exists_exists in Hex as (b' & Hb' & Hc).
      apply (Hconf b b' Hid) in Hc as (Hs & Hne & Hclash).
      by destruct (Hfree b' Hb' Hs Hne).
    + split; [intros _ | by eauto]. exists b. split; [done |]. split; [done |].
      destruct (booking_by_id_Some _ _ _ Hb) as [_ Hid].
      intros b' Hb' Hs Hne Hclash.
      rewrite Forall_forall in Hall. apply (Hall b' Hb'). by apply (Hconf b b' Hid).
  - destruct Hd as [[Hnone ->] | (b & Hb & [[Hst ->] | (Hst & read & _ & ->)])].
    + split; [by intros (? & ? & ?) |]. intros (b & Hb & _). congruence.
    + split; [by intros (? & ? & ?) |]. intros (b0 & Hb0 & Hst0). congruence.
    + split; [intros _ | by eauto]. by exists b.
  - intros _ e db' [Hrun | Hrun].
    + destruct Ha as [[_ H] | (b & _ & [[_ H] | [(_ & _ & H) | (_ & _ & read & _ & H)]])];
        rewrite H in Hrun; simplify_eq; cbn; auto.
    + destruct Hd as [[_ H] | (b & _ & [[_ H] | (_ & read & _ & H)])];
        rewrite H in Hrun; simplify_eq; cbn; auto.
Qed.

Lemma decisions_succeed_exactly_on_free_pending_bookings_witness :
  ∃ read db', run (Approve 2 scenario.owner 3000) scenario.C_created = (inr read, db').
Proof.
  apply (decisions_succeed_exactly_on_free_pending_bookings scenario.C_created 2
           scenario.owner 3000).
  exists scenario.booking_C. split; [reflexivity |]. split; [reflexivity |].
  assert (database.bookings (tables scenario.C_created)
          = [scenario.booking_A; scenario.booking_C]) as -> by reflexivity.
  intros b' Hb' Hst Hne (_ & H1 & H2).
  apply elem_of_cons in Hb' as [-> | Hb'].
  - cbn in H1, H2. lia.
  - apply list_elem_of_singleton in Hb' as ->. by apply Hne.
Defined.

(** Property X22.  The selected-day detail of a calendar answer is the answer
    the day endpoint gives for the selected day and the same resource. *)
Theorem selected_day_detail_is_the_day_endpoint_answer
    (db : Database) (y m : Z) (selected_date : option datetime.date)
    (resource_id : string) (today_anchor today : datetime.date)
    (now : datetime.datetime) :
  anchor_month y m → (y, m) ≠ (9999, 12) →
  ∃ resp,
    get_db (get_calendar (Some (y, m)) selected_date resource_id today_anchor today now) db
    = (inr resp, db)
    ∧ get_db (get_calendar_day
                (CalendarMonth.selected_iso (CalendarResponse.calendar resp)) resource_id) db
      = (inr (CalendarResponse.selected_day resp), db).
Proof.
  intros Hym Hmax.
  destruct (get_calendar_run db y m selected_date resource_id today_anchor today now
              Hym Hmax)
    as (resp & Hget & Hrun).
  exists resp. split; [exact Hget |].
  rewrite get_calendar_day_run. do 2 f_equal.
  rewrite (build_calendar_eq y m _ _ _ _ _ Hym Hmax) in Hrun. injection Hrun as <-.
  cbn [CalendarResponse.calendar CalendarResponse.selected_day CalendarMonth.selected_iso].
  pose proof (month_first_in_grid y m Hym) as Hfirst.
  match goal with
  | |- _ = _build_day_detail ?d _ => set (selected := d)
  end.
  assert (grid_first y m ≤ selected ≤ grid_last y m) as Hsel
    by (unfold selected; destruct (_ || _) eqn:E; lia).
  clearbody selected. f_equal.
  rewrite get_day_in_grid by done. rewrite !list_filter_filter.
  apply list_filter_iff. intros b. unfold contains. intuition lia.
Qed.

Lemma selected_day_detail_is_the_day_endpoint_answer_witness :
  ∃ resp,
    get_db (get_calendar (Some (2025, 6)) (Some 739412) scenario.house 739412 739412 5000)
      scenario.C_created
    = (inr resp, scenario.C_created)
    ∧ get_db (get_calendar_day
                (CalendarMonth.selected_iso (CalendarResponse.calendar resp))
                scenario.house) scenario.C_created
      = (inr (CalendarResponse.selected_day resp), scenario.C_created).
Proof.
  apply (selected_day_detail_is_the_day_endpoint_answer scenario.C_created 2025 6
           (Some 739412) scenario.house 739412 739412 5000).
  - unfold anchor_month. lia.
  - discriminate.
Defined.
End compositions.
